(** * CloudTrace backend: the request-logging write path

    A shallow embedding of [01-cloudtrace-load-balanced-app/backend/server.js]
    together with the part of its environment the server talks to: the
    [pg] connection pool, the [request_logs] table of [db/schema.sql], the
    random source behind [crypto.randomUUID], the wall clock and the HTTP
    response object.

    Asynchronous functions are embedded as computations in a state and
    exception monad over a [World].  Every effect that leaves the process
    is appended to the world's [trace], in program order.  Console output
    is not modelled. *)

From Stdlib Require Import String Ascii ZArith List Bool Lia.
From Stdlib Require Import Sorted Permutation.
Import ListNotations.
Open Scope string_scope.
Open Scope list_scope.

(* ================================================================== *)
(** ** JavaScript values used by the server *)

(** [s.includes(needle)] *)
Fixpoint includes (needle s : string) : bool :=
  if String.prefix needle s then true
  else match s with
       | EmptyString => false
       | String _ rest => includes needle rest
       end.

(** Truthiness of a value that is a string or [undefined]/[null]. *)
Definition truthy (v : option string) : bool :=
  match v with
  | Some s => negb (s =? "")
  | None => false
  end.

(** [a || b] on such values. *)
Definition js_or (a b : option string) : option string :=
  if truthy a then a else b.

(** [v === lit] for a string literal [lit]. *)
Definition strict_eq (v : option string) (lit : string) : bool :=
  match v with
  | Some s => s =? lit
  | None => false
  end.

(** An [Error] object as thrown by [pg] or by Node: [code] may be
    undefined, [message] is always a string. *)
Record JsError := mkError {
  err_code : option string;
  err_message : string
}.

(** The object returned by [writeRequestToDatabase]:
    [{ success, error, message }]; [error] is [null] on success and
    [message] is then absent. *)
Record DbResult := mkResult {
  res_success : bool;
  res_error : option string;
  res_message : option string
}.

(** A row of [request_logs] (db/schema.sql). *)
Record LogEntry := mkEntry {
  row_id : nat;                 (* BIGSERIAL PRIMARY KEY *)
  request_id : string;          (* VARCHAR(36) NOT NULL UNIQUE *)
  server_hostname : string;
  timestamp : Z;                (* milliseconds since the epoch *)
  client_ip : string
}.

(** The statements the server sends. *)
Inductive Sql :=
| SELECT_1
| BEGIN
| INSERT (requestId serverHostname : string) (ts : Z) (clientIp : string)
| COMMIT
| ROLLBACK.

(** The objects the server serialises are flat, with string values. *)
Definition JsonObject : Type := list (string * string).

(** What [res.end] is given: nothing, or [JSON.stringify(o, null, indent)]. *)
Inductive Body :=
| EmptyBody
| JsonBody (indent : nat) (o : JsonObject).

(** What a run leaves in the trace.  [EvGateway] marks the entry into
    [writeRequestToDatabase] with its arguments; the other events are
    calls that leave the process. *)
Inductive Event :=
| EvRandomUUID (u : string)        (* crypto.randomUUID() returned u *)
| EvGateway (requestId serverHostname : string) (ts : Z) (clientIp : string)
| EvConnect                        (* dbPool.connect() *)
| EvQuery (q : Sql)                (* client.query(q) *)
| EvRelease                        (* client.release() *)
| EvSleep (ms : Z)                 (* setTimeout(resolve, ms) *)
| EvWriteHead (status : Z) (headers : list (string * string))
| EvEnd (body : Body).

(* ================================================================== *)
(** ** The world outside the handler *)

Record World := mkWorld {
  (** outcome injected into each coming round trip to the database
      ([dbPool.connect] or [client.query]), in order: [None] lets the
      server answer normally, [Some e] rejects the call with [e];
      an exhausted list injects nothing *)
  faults : list (option JsError);
  (** the values [crypto.randomUUID] returns, and how many were drawn *)
  entropy : nat -> string;
  drawn : nat;
  (** wall clock, milliseconds *)
  clock : Z;
  (** committed rows of [request_logs] and the last sequence value *)
  request_logs : list LogEntry;
  serial : nat;
  (** rows written by the open transaction of the checked-out client *)
  txn : option (list LogEntry);
  (** clients currently checked out of [dbPool] *)
  checked_out : nat;
  trace : list Event
}.

Definition set_faults (f : list (option JsError)) (w : World) : World :=
  mkWorld f (entropy w) (drawn w) (clock w) (request_logs w) (serial w)
          (txn w) (checked_out w) (trace w).

Definition set_drawn (n : nat) (w : World) : World :=
  mkWorld (faults w) (entropy w) n (clock w) (request_logs w) (serial w)
          (txn w) (checked_out w) (trace w).

Definition set_clock (t : Z) (w : World) : World :=
  mkWorld (faults w) (entropy w) (drawn w) t (request_logs w) (serial w)
          (txn w) (checked_out w) (trace w).

Definition set_request_logs (l : list LogEntry) (w : World) : World :=
  mkWorld (faults w) (entropy w) (drawn w) (clock w) l (serial w)
          (txn w) (checked_out w) (trace w).

Definition set_serial (n : nat) (w : World) : World :=
  mkWorld (faults w) (entropy w) (drawn w) (clock w) (request_logs w) n
          (txn w) (checked_out w) (trace w).

Definition set_txn (t : option (list LogEntry)) (w : World) : World :=
  mkWorld (faults w) (entropy w) (drawn w) (clock w) (request_logs w)
          (serial w) t (checked_out w) (trace w).

Definition set_checked_out (n : nat) (w : World) : World :=
  mkWorld (faults w) (entropy w) (drawn w) (clock w) (request_logs w)
          (serial w) (txn w) n (trace w).

Definition emit (e : Event) (w : World) : World :=
  mkWorld (faults w) (entropy w) (drawn w) (clock w) (request_logs w)
          (serial w) (txn w) (checked_out w) (trace w ++ [e]).

(* ================================================================== *)
(** ** Computations: state plus exceptions *)

Inductive Completion (A : Type) :=
| Normal (a : A)
| Throw (e : JsError).
Arguments Normal {A} a.
Arguments Throw {A} e.

Definition Io (A : Type) : Type := World -> Completion A * World.

Definition ret {A} (a : A) : Io A := fun w => (Normal a, w).

Definition throw {A} (e : JsError) : Io A := fun w => (Throw e, w).

Definition bind {A B} (m : Io A) (k : A -> Io B) : Io B :=
  fun w =>
    match m w with
    | (Normal a, w') => k a w'
    | (Throw e, w') => (Throw e, w')
    end.

(** [try { m } catch (e) { ... }] seen from outside: the completion of
    [m] is handed over as a value and nothing escapes. *)
Definition try_block {A} (m : Io A) : Io (JsError + A) :=
  fun w =>
    match m w with
    | (Normal a, w') => (Normal (inr a), w')
    | (Throw e, w') => (Normal (inl e), w')
    end.

Definition effect (f : World -> World) : Io unit := fun w => (Normal tt, f w).

Declare Scope io_scope.
Delimit Scope io_scope with io.
Notation "x <- m ;; k" := (bind m (fun x => k))
  (at level 61, m at next level, right associativity) : io_scope.
Notation "m ;;; k" := (bind m (fun _ => k))
  (at level 61, right associativity) : io_scope.
Open Scope io_scope.

(* ================================================================== *)
(** ** The pool and the database server *)

(** [max: 10] in the [Pool] options. *)
Definition poolMax : nat := 10.

(** What [pg-pool] rejects with when no client becomes free within
    [connectionTimeoutMillis]. *)
Definition poolTimeout : JsError :=
  mkError None "timeout exceeded when trying to connect".

Definition dquote : string := String (ascii_of_nat 34) EmptyString.

(** What PostgreSQL answers to an insert that breaks
    [request_id ... UNIQUE]. *)
Definition uniqueViolation : JsError :=
  mkError (Some "23505")
          ("duplicate key value violates unique constraint " ++ dquote
           ++ "request_logs_request_id_key" ++ dquote)%string.

Definition next_fault : Io (option JsError) :=
  fun w =>
    match faults w with
    | [] => (Normal None, w)
    | f :: rest => (Normal f, set_faults rest w)
    end.

Definition pending (w : World) : list LogEntry :=
  match txn w with
  | Some rows => rows
  | None => []
  end.

(** Is [rid] the [request_id] of a row the inserting session can see? *)
Definition id_taken (rid : string) (w : World) : bool :=
  existsb (fun r => request_id r =? rid) (request_logs w ++ pending w).

(** [await dbPool.connect()] *)
Definition dbPool_connect : Io unit :=
  effect (emit EvConnect) ;;;
  f <- next_fault ;;
  match f with
  | Some e => throw e
  | None =>
      fun w =>
        if (poolMax <=? checked_out w)%nat then (Throw poolTimeout, w)
        else (Normal tt, set_checked_out (S (checked_out w)) w)
  end.

(** The server's normal answer to a statement. *)
Definition execute (q : Sql) : Io unit :=
  match q with
  | SELECT_1 => ret tt
  | BEGIN => effect (set_txn (Some []))
  | INSERT rid host ts ip =>
      fun w =>
        if id_taken rid w then (Throw uniqueViolation, w)
        else
          let row := mkEntry (S (serial w)) rid host ts ip in
          let w1 := set_serial (S (serial w)) w in
          match txn w1 with
          | Some rows => (Normal tt, set_txn (Some (rows ++ [row])) w1)
          | None => (Normal tt, set_request_logs (request_logs w1 ++ [row]) w1)
          end
  | COMMIT =>
      fun w => (Normal tt,
                set_txn None (set_request_logs (request_logs w ++ pending w) w))
  | ROLLBACK => effect (set_txn None)
  end.

(** [await client.query(q)] *)
Definition client_query (q : Sql) : Io unit :=
  effect (emit (EvQuery q)) ;;;
  f <- next_fault ;;
  match f with
  | Some e => throw e
  | None => execute q
  end.

(** [client.release()]: the client goes back to the pool; whatever its
    session had not committed is never seen by anyone. *)
Definition client_release : Io unit :=
  effect (emit EvRelease) ;;;
  effect (fun w => set_txn None (set_checked_out (pred (checked_out w)) w)).

(** [await new Promise(resolve => setTimeout(resolve, delay))] *)
Definition sleep (delay : Z) : Io unit :=
  effect (emit (EvSleep delay)) ;;;
  effect (fun w => set_clock (clock w + delay) w).

(** [new Date()] *)
Definition new_Date : Io Z := fun w => (Normal (clock w), w).

(* ================================================================== *)
(** ** UUID generation *)

(** [crypto.randomUUID()] *)
Definition crypto_randomUUID : Io string :=
  fun w =>
    let u := entropy w (drawn w) in
    (Normal u, emit (EvRandomUUID u) (set_drawn (S (drawn w)) w)).

Definition generateRequestId : Io string := crypto_randomUUID.

(* ================================================================== *)
(** ** Database write with retry logic *)

Definition backoffMs : list Z := [100; 200; 400]%Z.

Definition isDuplicateKey (error : JsError) : bool :=
  strict_eq (err_code error) "23505"
  || (negb (err_message error =? "")
      && includes "duplicate key" (err_message error)).

Definition isTransientError (error : JsError) : bool :=
  strict_eq (err_code error) "ECONNRESET"
  || strict_eq (err_code error) "ETIMEDOUT"
  || strict_eq (err_code error) "ECONNREFUSED"
  || strict_eq (err_code error) "57P01"
  || strict_eq (err_code error) "57P02"
  || strict_eq (err_code error) "57P03"
  || strict_eq (err_code error) "08003"
  || strict_eq (err_code error) "08006"
  || strict_eq (err_code error) "08001"
  || strict_eq (err_code error) "08004"
  || strict_eq (err_code error) "08007".

(** [backoffMs[attempt] || 400] *)
Definition backoff_delay (attempt : nat) : Z :=
  match nth_error backoffMs attempt with
  | Some d => if (d =? 0)%Z then 400%Z else d
  | None => 400%Z
  end.

Definition collisionResult : DbResult :=
  mkResult false (Some "UUID_COLLISION")
           (Some "Request ID collision detected - extremely rare event").

Definition successResult : DbResult := mkResult true None None.

(** [{ success: false, error: error.code || 'UNKNOWN', message: error.message }] *)
Definition failureResult (error : JsError) : DbResult :=
  mkResult false (js_or (err_code error) (Some "UNKNOWN"))
           (Some (err_message error)).

Definition maxRetriesResult : DbResult :=
  mkResult false (Some "MAX_RETRIES") (Some "Maximum retries exceeded").

(** The body of the [try] block once the client is there. *)
Definition transaction (requestId serverHostname : string) (ts : Z)
    (clientIp : string) : Io DbResult :=
  client_query BEGIN ;;;
  client_query (INSERT requestId serverHostname ts clientIp) ;;;
  client_query COMMIT ;;;
  client_release ;;;
  ret successResult.

(** The [catch (error)] block of one pass of the loop, in its two
    halves.  [client] is the value of the variable at the throw: [false]
    while it is still [null], that is when [dbPool.connect] itself threw.

    First half: [if (client) { try { ROLLBACK } catch { log } release }]. *)
Definition rollback_and_release (client : bool) : Io unit :=
  if client then
    try_block (client_query ROLLBACK) ;;;
    client_release
  else ret tt.

(** Second half: the classification of [error].  [None] stands for
    [continue], [Some r] for [return r]. *)
Definition classify (error : JsError) (attempt retries : nat)
  : Io (option DbResult) :=
  if isDuplicateKey error then ret (Some collisionResult)
  else if isTransientError error && (attempt <? retries - 1)%nat then
    sleep (backoff_delay attempt) ;;;
    ret None
  else ret (Some (failureResult error)).

Definition catch_block (client : bool) (error : JsError)
    (attempt retries : nat) : Io (option DbResult) :=
  rollback_and_release client ;;;
  classify error attempt retries.

(** One pass of the loop body. *)
Definition pass (requestId serverHostname : string) (ts : Z)
    (clientIp : string) (attempt retries : nat) : Io (option DbResult) :=
  acquired <- try_block dbPool_connect ;;
  match acquired with
  | inl error => catch_block false error attempt retries
  | inr _ =>
      done <- try_block (transaction requestId serverHostname ts clientIp) ;;
      match done with
      | inr r => ret (Some r)
      | inl error => catch_block true error attempt retries
      end
  end.

(** [for (let attempt = 0; attempt < retries; attempt++)], with
    [left = retries - attempt] passes to go, and the statement after
    the loop. *)
Fixpoint retry_loop (left : nat) (requestId serverHostname : string) (ts : Z)
    (clientIp : string) (attempt retries : nat) : Io DbResult :=
  match left with
  | O => ret maxRetriesResult
  | S left' =>
      r <- pass requestId serverHostname ts clientIp attempt retries ;;
      match r with
      | Some result => ret result
      | None =>
          retry_loop left' requestId serverHostname ts clientIp
                     (S attempt) retries
      end
  end.

Definition writeRequestToDatabase (requestId serverHostname : string)
    (ts : Z) (clientIp : string) (retries : nat) : Io DbResult :=
  effect (emit (EvGateway requestId serverHostname ts clientIp)) ;;;
  retry_loop retries requestId serverHostname ts clientIp 0 retries.

(** The default value of the parameter [retries]. *)
Definition defaultRetries : nat := 3.

(* ================================================================== *)
(** ** Dates *)

Definition digit (n : Z) : ascii := ascii_of_nat (48 + Z.to_nat (n mod 10)).

(** The last [width] decimal digits of [n], in front of [acc]. *)
Fixpoint pad (width : nat) (n : Z) (acc : string) : string :=
  match width with
  | O => acc
  | S width' => pad width' (n / 10) (String (digit n) acc)
  end.

(** Year, month and day of the proleptic Gregorian calendar for a day
    number counted from 1970-01-01. *)
Definition civil_from_days (days : Z) : Z * Z * Z :=
  let z := (days + 719468)%Z in
  let era := (z / 146097)%Z in
  let doe := (z - era * 146097)%Z in
  let yoe := ((doe - doe / 1460 + doe / 36524 - doe / 146096) / 365)%Z in
  let doy := (doe - (365 * yoe + yoe / 4 - yoe / 100))%Z in
  let mp := ((5 * doy + 2) / 153)%Z in
  let d := (doy - (153 * mp + 2) / 5 + 1)%Z in
  let m := (if mp <? 10 then mp + 3 else mp - 9)%Z in
  let y := (yoe + era * 400 + (if m <=? 2 then 1 else 0))%Z in
  (y, m, d).

(** [Date.prototype.toISOString] of the date whose time value is [t]. *)
Definition toISOString (t : Z) : string :=
  let ms := (t mod 86400000)%Z in
  let '(y, m, d) := civil_from_days (t / 86400000) in
  let year :=
    if ((0 <=? y) && (y <=? 9999))%Z then pad 4 y ""
    else ((if (y <? 0)%Z then "-" else "+") ++ pad 6 (Z.abs y) "")%string in
  (year ++ "-" ++ pad 2 m "" ++ "-" ++ pad 2 d "" ++ "T"
   ++ pad 2 (ms / 3600000) "" ++ ":" ++ pad 2 (ms / 60000 mod 60) ""
   ++ ":" ++ pad 2 (ms / 1000 mod 60) "" ++ "." ++ pad 3 (ms mod 1000) ""
   ++ "Z")%string.

Arguments toISOString t : simpl never.

(* ================================================================== *)
(** ** HTTP *)

(** What the handlers read of the incoming request. *)
Record IncomingMessage := mkRequest {
  req_method : string;
  (** [new URL(req.url, `http://${req.headers.host}`).pathname], or
      [None] when the constructor throws *)
  req_pathname : option string;
  (** [req.headers['x-forwarded-for']] *)
  req_x_forwarded_for : option string;
  (** [req.connection.remoteAddress] *)
  req_remoteAddress : option string
}.

(** [a || lit] where [lit] is a non-empty string literal. *)
Definition or_else (a : option string) (lit : string) : string :=
  match a with
  | Some s => if s =? "" then lit else s
  | None => lit
  end.

Definition res_writeHead (status : Z) (headers : list (string * string))
  : Io unit := effect (emit (EvWriteHead status headers)).

Definition res_end (body : Body) : Io unit := effect (emit (EvEnd body)).

(** What [new URL] throws on unparsable input. *)
Definition invalidUrl : JsError := mkError (Some "ERR_INVALID_URL") "Invalid URL".

Definition URL_pathname (req : IncomingMessage) : Io string :=
  match req_pathname req with
  | Some p => ret p
  | None => throw invalidUrl
  end.

Section Server.

(** [const SERVER_HOSTNAME = os.hostname()], read once at start. *)
Variable SERVER_HOSTNAME : string.

(** [async function checkDatabaseConnection()] *)
Definition checkDatabaseConnection : Io bool :=
  r <- try_block (dbPool_connect ;;;
                  client_query SELECT_1 ;;;
                  client_release) ;;
  match r with
  | inr _ => ret true
  | inl _ => ret false
  end.

(** The client address of step 2 of [handleRequest]. *)
Definition clientIpOf (req : IncomingMessage) : string :=
  or_else (js_or (req_x_forwarded_for req) (req_remoteAddress req)) "unknown".

(** The object literal [responseData] of step 5. *)
Definition responseData (requestId : string) (ts : Z) (clientIp : string)
    (dbResult : DbResult) : JsonObject :=
  [ ("request_id", requestId);
    ("server_hostname", SERVER_HOSTNAME);
    ("timestamp", toISOString ts);
    ("client_ip", clientIp);
    ("db_status", if res_success dbResult then "success" else "failed") ]
  ++ (if truthy (res_error dbResult) then
        match js_or (res_message dbResult) (res_error dbResult) with
        | Some v => [ ("db_error", v) ]
        | None => []
        end
      else []).

Definition corsHeaders : list (string * string) :=
  [ ("Access-Control-Allow-Origin", "*");
    ("Access-Control-Allow-Methods", "GET, POST, OPTIONS");
    ("Access-Control-Allow-Headers", "Content-Type") ].

(** [!dbResult.success && dbResult.error === 'UUID_COLLISION'] *)
Definition is_collision (dbResult : DbResult) : bool :=
  negb (res_success dbResult)
  && strict_eq (res_error dbResult) "UUID_COLLISION".

Definition jsonHeaders : list (string * string) :=
  ("Content-Type", "application/json") :: corsHeaders.

(** [async function handleRequest(req, res)] *)
Definition handleRequest (req : IncomingMessage) : Io unit :=
  requestId <- generateRequestId ;;
  let clientIp := clientIpOf req in
  ts <- new_Date ;;
  dbResult <- writeRequestToDatabase requestId SERVER_HOSTNAME ts clientIp
                                     defaultRetries ;;
  retried <-
    (if is_collision dbResult then
       requestId' <- generateRequestId ;;
       dbResult' <- writeRequestToDatabase requestId' SERVER_HOSTNAME ts
                                           clientIp defaultRetries ;;
       ret (requestId', dbResult')
     else ret (requestId, dbResult)) ;;
  let '(requestId, dbResult) := retried in
  res_writeHead 200 jsonHeaders ;;;
  res_end (JsonBody 2 (responseData requestId ts clientIp dbResult)).

(** [async function handleHealthCheck(req, res)] *)
Definition handleHealthCheck (req : IncomingMessage) : Io unit :=
  probe <- try_block (dbPool_connect ;;;
                      client_query SELECT_1 ;;;
                      client_release) ;;
  let dbHealthy := match probe with inr _ => true | inl _ => false end in
  let statusCode := if dbHealthy then 200%Z else 503%Z in
  now <- new_Date ;;
  let healthData :=
    [ ("status", if dbHealthy then "healthy" else "unhealthy");
      ("server_hostname", SERVER_HOSTNAME);
      ("timestamp", toISOString now);
      ("database", if dbHealthy then "connected" else "disconnected") ] in
  res_writeHead statusCode
    [ ("Content-Type", "application/json");
      ("Access-Control-Allow-Origin", "*") ] ;;;
  res_end (JsonBody 2 healthData).

(** [function handleOptions(req, res)] *)
Definition handleOptions (req : IncomingMessage) : Io unit :=
  res_writeHead 200 corsHeaders ;;;
  res_end EmptyBody.

(** The listener given to [http.createServer]. *)
Definition server (req : IncomingMessage) : Io unit :=
  r <- try_block
         (path <- URL_pathname req ;;
          if req_method req =? "OPTIONS" then handleOptions req
          else if (path =? "/health") && (req_method req =? "GET") then
            handleHealthCheck req
          else if ((path =? "/") || (path =? "/api/request"))
                  && ((req_method req =? "GET") || (req_method req =? "POST"))
          then handleRequest req
          else
            res_writeHead 404 [ ("Content-Type", "application/json") ] ;;;
            res_end (JsonBody 0 [ ("error", "Not found") ])) ;;
  match r with
  | inr _ => ret tt
  | inl error =>
      res_writeHead 500 [ ("Content-Type", "application/json") ] ;;;
      res_end (JsonBody 0 [ ("error", "Internal server error");
                            ("message", err_message error) ])
  end.

End Server.

(* ================================================================== *)
(** ** Graceful shutdown

    The [SIGTERM] listener runs on the same event loop as the request
    handlers.  A handler in flight is suspended at one of its [await]s,
    either with a pooled client checked out or without one (waiting for
    [dbPool.connect] or for the backoff timer).  [pg-pool]'s [end()]
    marks the pool as ending and resolves once no client is left checked
    out; a pool that is ending rejects [connect]. *)

Inductive Handler := Idle | Holding.

Record Process := mkProcess {
  listening : bool;           (* the HTTP server accepts connections *)
  inflight : list Handler;    (* handlers that have not sent their response *)
  ending : bool;              (* [dbPool.end()] was called *)
  awaiting_end : bool;        (* the listener is suspended at [await dbPool.end()] *)
  exit_code : option Z        (* [process.exit(code)] was called *)
}.

Definition clients_out (p : Process) : nat :=
  length (filter (fun h => match h with Holding => true | Idle => false end)
                 (inflight p)).

(** [process.on('SIGTERM', async () => { ... })] up to its first
    suspension.  [server.close(cb)] returns at once, its callback is not
    awaited; when the pool has no client out, [end()] is already
    resolved and the listener goes on to [process.exit(0)] before any
    other task runs. *)
Definition on_SIGTERM (p : Process) : Process :=
  let p1 := mkProcess false (inflight p) (ending p) (awaiting_end p)
                      (exit_code p) in                    (* server.close *)
  let p2 := mkProcess (listening p1) (inflight p1) true (awaiting_end p1)
                      (exit_code p1) in                   (* dbPool.end() *)
  if (clients_out p2 =? 0)%nat then
    mkProcess (listening p2) (inflight p2) (ending p2) false (Some 0%Z)
  else
    mkProcess (listening p2) (inflight p2) (ending p2) true (exit_code p2).

(** The rest of the listener, run when the last client comes back. *)
Definition pool_drained (p : Process) : Process :=
  if awaiting_end p && (clients_out p =? 0)%nat then
    mkProcess (listening p) (inflight p) (ending p) false (Some 0%Z)
  else p.

Inductive Tick :=
| SIGTERM
| Accepts                      (* a new request arrives *)
| Connects (i : nat)           (* handler [i] asks the pool for a client *)
| Releases (i : nat)           (* handler [i] releases its client *)
| Finishes (i : nat).          (* handler [i] has sent its response *)

Fixpoint set_handler (i : nat) (h : Handler) (l : list Handler) : list Handler :=
  match l, i with
  | [], _ => []
  | _ :: l', O => h :: l'
  | x :: l', S i' => x :: set_handler i' h l'
  end.

Fixpoint drop_handler (i : nat) (l : list Handler) : list Handler :=
  match l, i with
  | [], _ => []
  | _ :: l', O => l'
  | x :: l', S i' => x :: drop_handler i' l'
  end.

Definition with_inflight (l : list Handler) (p : Process) : Process :=
  mkProcess (listening p) l (ending p) (awaiting_end p) (exit_code p).

(** One turn of the event loop.  Nothing runs once the process exited. *)
Definition tick (p : Process) (t : Tick) : Process :=
  match exit_code p with
  | Some _ => p
  | None =>
      match t with
      | SIGTERM => on_SIGTERM p
      | Accepts =>
          if listening p then with_inflight (inflight p ++ [Idle]) p else p
      | Connects i =>
          if ending p then p
          else with_inflight (set_handler i Holding (inflight p)) p
      | Releases i =>
          pool_drained (with_inflight (set_handler i Idle (inflight p)) p)
      | Finishes i => with_inflight (drop_handler i (inflight p)) p
      end
  end.

Definition run (ticks : list Tick) (p : Process) : Process :=
  fold_left tick ticks p.

(* ================================================================== *)
(** ** Vocabulary of the statements *)

(** The round trip of a pass of the loop that fails. *)
Inductive Phase := AtConnect | AtBegin | AtInsert | AtCommit.

(** The injected outcomes that make a pass fail at [p] with [e]; [rb] is
    the outcome injected into the [ROLLBACK] that follows. *)
Definition failing (p : Phase) (e : JsError) (rb : option JsError)
  : list (option JsError) :=
  match p with
  | AtConnect => [Some e]
  | AtBegin => [None; Some e; rb]
  | AtInsert => [None; None; Some e; rb]
  | AtCommit => [None; None; None; Some e; rb]
  end.

(** What such a pass does, as seen from outside. *)
Definition failing_events (p : Phase) (rid host : string) (ts : Z)
    (ip : string) : list Event :=
  match p with
  | AtConnect => [EvConnect]
  | AtBegin => [EvConnect; EvQuery BEGIN; EvQuery ROLLBACK; EvRelease]
  | AtInsert =>
      [EvConnect; EvQuery BEGIN; EvQuery (INSERT rid host ts ip);
       EvQuery ROLLBACK; EvRelease]
  | AtCommit =>
      [EvConnect; EvQuery BEGIN; EvQuery (INSERT rid host ts ip);
       EvQuery COMMIT; EvQuery ROLLBACK; EvRelease]
  end.

(** The world after it. *)
Definition after_failing (p : Phase) (rest : list (option JsError))
    (evs : list Event) (w : World) : World :=
  mkWorld rest (entropy w) (drawn w) (clock w) (request_logs w)
          (match p with AtCommit => S (serial w) | _ => serial w end)
          (match p with AtConnect => txn w | _ => None end)
          (checked_out w) (trace w ++ evs).

(** What a pass that commits does, and the world after it. *)
Definition committing_events (rid host : string) (ts : Z) (ip : string)
  : list Event :=
  [EvConnect; EvQuery BEGIN; EvQuery (INSERT rid host ts ip);
   EvQuery COMMIT; EvRelease].

Definition after_commit (rest : list (option JsError)) (rid host : string)
    (ts : Z) (ip : string) (w : World) : World :=
  mkWorld rest (entropy w) (drawn w) (clock w)
          (request_logs w ++ [mkEntry (S (serial w)) rid host ts ip])
          (S (serial w)) None (checked_out w)
          (trace w ++ committing_events rid host ts ip).

(** The world after a backoff timer of [ms] milliseconds. *)
Definition after_sleep (ms : Z) (w : World) : World :=
  set_clock (clock w + ms) (emit (EvSleep ms) w).

(** The world after an identifier was drawn. *)
Definition after_uuid (w : World) : World :=
  emit (EvRandomUUID (entropy w (drawn w))) (set_drawn (S (drawn w)) w).

(** The world after [handleRequest] has written its response. *)
Definition after_response (host rid : string) (ts : Z) (ip : string)
    (r : DbResult) (w : World) : World :=
  emit (EvEnd (JsonBody 2 (responseData host rid ts ip r)))
       (emit (EvWriteHead 200 jsonHeaders) w).

(** What [handleRequest] writes to [res]. *)
Definition response_events (host rid : string) (ts : Z) (ip : string)
    (r : DbResult) : list Event :=
  [EvWriteHead 200 jsonHeaders;
   EvEnd (JsonBody 2 (responseData host rid ts ip r))].

(** [rid] is the identifier of a committed row. *)
Definition in_logs (rid : string) (w : World) : bool :=
  existsb (fun r => request_id r =? rid) (request_logs w).

(** The insert of [rid] meets a unique-constraint violation: the server
    finds [rid] in the table, or the answer injected into the round trip
    carries SQLSTATE 23505. *)
Definition unique_violation_on_insert (f : option JsError) (rid : string)
    (w : World) : Prop :=
  match f with
  | Some e => err_code e = Some "23505"
  | None => in_logs rid w = true
  end.

(** The error the insert then throws. *)
Definition insert_error (f : option JsError) : JsError :=
  match f with
  | Some e => e
  | None => uniqueViolation
  end.

(** An error the gateway or its caller would take for a unique-constraint
    violation: one the duplicate-key test accepts, or one whose code is
    the gateway's own label UUID_COLLISION (a code neither [pg] nor Node
    ever sets). *)
Definition reads_as_collision (e : JsError) : bool :=
  isDuplicateKey e || strict_eq (err_code e) "UUID_COLLISION".

(** No coming round trip is answered by such an error. *)
Definition no_collision_injected (w : World) : bool :=
  negb (existsb (fun f => match f with
                          | Some e => reads_as_collision e
                          | None => false
                          end) (faults w)).

(** The worlds in which the insert of [rid] cannot meet a
    unique-constraint violation: [rid] is not in the table and no such
    error is injected. *)
Definition collision_free (rid : string) (w : World) : bool :=
  no_collision_injected w && negb (in_logs rid w).

(** Does the store answer the probe of the health check: does
    [SELECT 1] on a client of the pool come back? *)
Definition probe_succeeds (w : World) : bool :=
  match fst ((dbPool_connect ;;; client_query SELECT_1) w) with
  | Normal _ => true
  | Throw _ => false
  end.

(** A header or property that is there and not the empty string. *)
Definition nonempty (v : option string) : option string :=
  match v with
  | Some s => if s =? "" then None else Some s
  | None => None
  end.

(** A host, a table that already holds a row, and a random source that
    returns the identifier of that row twice in a row. *)
Definition host0 : string := "ip-172-31-45-123.ec2.internal".

Definition uuid0 : string := "550e8400-e29b-41d4-a716-446655440000".

Definition colliding_world : World :=
  mkWorld [None; None; None; None] (fun _ => uuid0) 0 1793549296789
          [mkEntry 1 uuid0 host0 1793549290000 "203.0.113.9"] 1 None 0 [].

(** A random source that counts, and a table that already holds its
    first value. *)
Definition counting_entropy (n : nat) : string :=
  pad 12 (Z.of_nat n) "550e8400-e29b-41d4-a716-".

Definition taken_world : World :=
  mkWorld [None; None; None; None] counting_entropy 0 1793549296789
          [mkEntry 1 (counting_entropy 0) host0 1793549290000 "203.0.113.9"]
          1 None 0 [].

(** A world with an empty table and a random source that counts. *)
Definition fresh_world (f : list (option JsError)) : World :=
  mkWorld f counting_entropy 0 1793549296789 [] 0 None 0 [].

(** What the server answers when [statement_timeout] cancels a query. *)
Definition queryCanceled : JsError :=
  mkError (Some "57014") "canceling statement due to statement timeout".

(** A statement the server cannot parse. *)
Definition syntaxError : JsError :=
  mkError (Some "42601") "syntax error at or near VALUES".

(** The connection drops. *)
Definition connectionReset : JsError :=
  mkError (Some "ECONNRESET") "read ECONNRESET".

(** The server is being shut down by its administrator. *)
Definition adminShutdown : JsError :=
  mkError (Some "57P01") "terminating connection due to administrator command".

(** The health-check body for a given verdict. *)
Definition healthData (host : string) (now : Z) (dbHealthy : bool)
  : JsonObject :=
  [ ("status", if dbHealthy then "healthy" else "unhealthy");
    ("server_hostname", host);
    ("timestamp", toISOString now);
    ("database", if dbHealthy then "connected" else "disconnected") ].

(** The identifier of a gateway call. *)
Definition call_id (c : string * string * Z * string) : string :=
  fst (fst (fst c)).

(** Events of the database layer. *)
Definition db_event (e : Event) : bool :=
  match e with
  | EvConnect | EvQuery _ | EvRelease | EvSleep _ => true
  | _ => false
  end.

(** The events of a run that [pick] selects, in order. *)
Fixpoint collect {A : Type} (pick : Event -> option A) (evs : list Event)
  : list A :=
  match evs with
  | [] => []
  | e :: rest =>
      match pick e with
      | Some a => a :: collect pick rest
      | None => collect pick rest
      end
  end.

(** The backoff delays slept in a run. *)
Definition slept : list Event -> list Z :=
  collect (fun e => match e with EvSleep ms => Some ms | _ => None end).

(** The sum of a list of delays. *)
Definition total (delays : list Z) : Z := fold_right Z.add 0%Z delays.

(** The calls of [writeRequestToDatabase] in a run, with their arguments. *)
Definition gateway_calls : list Event -> list (string * string * Z * string) :=
  collect (fun e => match e with
                    | EvGateway rid host ts ip => Some (rid, host, ts, ip)
                    | _ => None
                    end).

(** The identifiers generated in a run. *)
Definition generated : list Event -> list string :=
  collect (fun e => match e with EvRandomUUID u => Some u | _ => None end).

(** The status codes and the bodies written in a run. *)
Definition statuses : list Event -> list Z :=
  collect (fun e => match e with EvWriteHead s _ => Some s | _ => None end).

Definition bodies : list Event -> list Body :=
  collect (fun e => match e with EvEnd b => Some b | _ => None end).

(** The passes of the retry loop in a run: one per [dbPool.connect]. *)
Definition passes (evs : list Event) : nat :=
  length (collect (fun e => match e with EvConnect => Some tt | _ => None end)
                  evs).

(** The clients released in a run. *)
Definition releases (evs : list Event) : nat :=
  length (collect (fun e => match e with EvRelease => Some tt | _ => None end)
                  evs).

(** [JSON.parse(body)[key]] for the flat objects the server writes. *)
Fixpoint field (key : string) (o : JsonObject) : option string :=
  match o with
  | [] => None
  | (k, v) :: rest => if k =? key then Some v else field key rest
  end.


(** [w'] is reached from [w] by database work only: the trace grows by
    [evs], all of them events of the database layer, no identifier is
    drawn, every client taken from the pool is back, and the clock has
    not gone backwards. *)
Definition db_run (w w' : World) (evs : list Event) : Prop :=
  trace w' = trace w ++ evs
  /\ forallb db_event evs = true
  /\ entropy w' = entropy w
  /\ drawn w' = drawn w
  /\ checked_out w' = checked_out w
  /\ (clock w <= clock w')%Z.

(** What a gateway call that returned [r] did to the table: either it
    reports success and exactly its row was added, or it reports a
    failure with an error label and the table is as before. *)
Definition write_outcome (rid host : string) (ts : Z) (ip : string)
    (w w' : World) (r : DbResult) : Prop :=
  (r = successResult
   /\ exists k, request_logs w' = request_logs w ++ [mkEntry k rid host ts ip])
  \/ (res_success r = false
      /\ truthy (res_error r) = true
      /\ request_logs w' = request_logs w).

(* ================================================================== *)
(** ** Vocabulary for the dispatcher as a whole *)

(** The branch of the listener a request ends in, read off its cascade
    of tests: the URL is parsed first, [OPTIONS] is tested before any
    path, [/health] only answers to [GET]. *)
Inductive Route :=
| RouteInvalid        (* [new URL] throws *)
| RoutePreflight
| RouteHealth
| RouteLogWrite
| RouteNotFound.

Definition route (req : IncomingMessage) : Route :=
  match req_pathname req with
  | None => RouteInvalid
  | Some path =>
      if req_method req =? "OPTIONS" then RoutePreflight
      else if (path =? "/health") && (req_method req =? "GET") then RouteHealth
      else if ((path =? "/") || (path =? "/api/request"))
              && ((req_method req =? "GET") || (req_method req =? "POST"))
      then RouteLogWrite
      else RouteNotFound
  end.

(** The world after [res.writeHead(status, headers); res.end(body)]. *)
Definition respond (status : Z) (headers : list (string * string))
    (body : Body) (w : World) : World :=
  emit (EvEnd body) (emit (EvWriteHead status headers) w).

(** The probe of the health check takes a client and then fails on its
    query. *)
Definition probe_leaks (w : World) : bool :=
  match dbPool_connect w with
  | (Normal _, w1) =>
      match fst (client_query SELECT_1 w1) with
      | Throw _ => true
      | Normal _ => false
      end
  | (Throw _, _) => false
  end.

(** The listener run on one request after the other, each to its end
    before the next begins. *)
Fixpoint serve (host : string) (reqs : list IncomingMessage) : Io unit :=
  match reqs with
  | [] => ret tt
  | req :: rest => server host req ;;; serve host rest
  end.

(** What one request adds to the table: nothing, or one row that names
    this server and carries an identifier the table did not hold. *)
Definition adds_at_most_one (host : string) (w w' : World) : Prop :=
  request_logs w' = request_logs w
  \/ exists k rid ts ip,
       request_logs w' = request_logs w ++ [mkEntry k rid host ts ip]
       /\ in_logs rid w = false.

(** A connection reset whose message happens to quote the server. *)
Definition resetQuotingDuplicate : JsError :=
  mkError (Some "ECONNRESET")
          "socket hang up while reporting: duplicate key value".

(** A request on the log-write path. *)
Definition logRequest : IncomingMessage :=
  mkRequest "POST" (Some "/api/request") (Some "203.0.113.9")
            (Some "10.0.0.7").

(** A world whose pool has every client checked out. *)
Definition drained_world : World :=
  mkWorld [] counting_entropy 0 1793549296789 [] 0 None poolMax [].

(** The identifiers of the committed rows. *)
Definition logged_ids (w : World) : list string :=
  map request_id (request_logs w).

(** The injected outcomes of [n] probes that each get a client and then
    fail on [SELECT 1] with the given errors. *)
Definition failing_probes (errors : list JsError) : list (option JsError) :=
  concat (map (fun e => [None; Some e]) errors).

Definition healthRequest : IncomingMessage :=
  mkRequest "GET" (Some "/health") None (Some "10.0.0.7").

(* ================================================================== *)
(** ** The frontend

    A shallow embedding of the browser script that calls the backend
    (src/unnamed/part_005, "CloudTrace frontend application").  Its state
    is the array [requests], the [Map] [servers] and the DOM elements it
    writes to; the environment gives it the text of the URL field, the
    outcome of [fetch], the answer to [confirm] and the clock. *)

(** An element of [requests]: the object parsed from a response, or the
    [errorData] literal.  A property that is missing is [None];
    [rd_isError] is the truthiness of [isError]. *)
Record RequestData := mkData {
  rd_request_id : option string;
  rd_server_hostname : option string;
  rd_timestamp : option string;
  rd_client_ip : option string;
  rd_db_status : option string;
  rd_db_error : option string;
  rd_isError : bool
}.

(** The object [response.json()] yields for a flat body. *)
Definition parsed (o : JsonObject) : RequestData :=
  mkData (field "request_id" o) (field "server_hostname" o)
         (field "timestamp" o) (field "client_ip" o)
         (field "db_status" o) (field "db_error" o)
         (truthy (field "isError" o)).

(** [servers.get(k)] and [servers.set(k, v)] on a [Map], which keeps its
    keys in the order of their first insertion. *)
Fixpoint map_get (k : string) (m : list (string * nat)) : option nat :=
  match m with
  | [] => None
  | (k', v) :: rest => if k' =? k then Some v else map_get k rest
  end.

Fixpoint map_set (k : string) (v : nat) (m : list (string * nat))
  : list (string * nat) :=
  match m with
  | [] => [(k, v)]
  | (k', v') :: rest =>
      if k' =? k then (k, v) :: rest else (k', v') :: map_set k v rest
  end.

(** [String(n)] for an integer: its decimal digits, with a sign when it
    is negative.  A number has no more decimal digits than bits. *)
Fixpoint decimal_digits (fuel : nat) (n : Z) (acc : string) : string :=
  match fuel with
  | O => acc
  | S fuel' =>
      let acc' := String (digit n) acc in
      if (n <? 10)%Z then acc' else decimal_digits fuel' (n / 10) acc'
  end.

Definition decimalZ (n : Z) : string :=
  if (n <? 0)%Z then
    ("-" ++ decimal_digits (S (Z.to_nat (Z.log2 (- n)))) (- n) "")%string
  else decimal_digits (S (Z.to_nat (Z.log2 n))) n "".

Definition decimal (n : nat) : string := decimalZ (Z.of_nat n).

(** A value interpolated into a template literal. *)
Definition interpolate (v : option string) : string :=
  match v with
  | Some s => s
  | None => "undefined"
  end.

(** One [div.request-item] of the request log. *)
Record LogItem := mkLogItem {
  li_className : string;
  li_request_id : string;
  li_time : string;
  li_server_hostname : string;
  li_client_ip : string;
  li_db_status : string;
  li_error : option string      (* the "Error" block, when there is one *)
}.

(** One [div.distribution-item].  The width of its bar is the double
    [(count / maxCount) * 100]; the item keeps the two operands. *)
Record DistItem := mkDistItem {
  di_hostname : string;
  di_count : nat;
  di_maxCount : nat;
  di_label : string
}.

(** The content of a container: the empty-state paragraph or items. *)
Inductive View (A : Type) :=
| EmptyState
| Items (items : list A).
Arguments EmptyState {A}.
Arguments Items {A} items.

Record Page := mkPage {
  requests : list RequestData;          (* newest first *)
  servers : list (string * nat);
  btn_disabled : bool;                  (* sendRequestBtn.disabled *)
  btn_text : string;                    (* sendRequestBtn.textContent *)
  requestLogs : View LogItem;           (* requestLogsContainer *)
  serverDistribution : View DistItem;   (* serverDistributionContainer *)
  totalRequests : string;               (* totalRequestsSpan.textContent *)
  uniqueServers : string;               (* uniqueServersSpan.textContent *)
  alerts : list string                  (* what [alert] was given, in order *)
}.

(** [Math.max(...values)] for natural numbers. *)
Definition math_max (values : list nat) : nat := fold_right Nat.max 0%nat values.

(** [entries.sort((a, b) => b[1] - a[1])]: the sort is stable, so the
    result is the one of an insertion that keeps equal counts in their
    order. *)
Fixpoint insert_desc (x : string * nat) (l : list (string * nat))
  : list (string * nat) :=
  match l with
  | [] => [x]
  | y :: l' =>
      if (snd x <? snd y)%nat then y :: insert_desc x l' else x :: l
  end.

Fixpoint sort_desc (l : list (string * nat)) : list (string * nat) :=
  match l with
  | [] => []
  | x :: l' => insert_desc x (sort_desc l')
  end.

Definition newline : string := String (ascii_of_nat 10) EmptyString.

(** What [fetch] and [response.json()] can come to. *)
Inductive FetchOutcome :=
| FetchRejects (message : string)            (* network or CORS error *)
| FetchResponse (status : Z) (body : Body).

(** [response.ok] *)
Definition response_ok (status : Z) : bool :=
  ((200 <=? status) && (status <=? 299))%Z.

Section Frontend.

(** [new Date(timestamp).toLocaleString()], which depends on the locale
    and the time zone of the browser. *)
Variable toLocaleString : option string -> string.

(** The message of the [SyntaxError] the browser throws when it is asked
    to parse an empty body as JSON. *)
Variable jsonErrorMessage : string.

(** The text the button has in the HTML of the page. *)
Variable initialButtonText : string.

(** [await response.json()]: the parsed object, or the message of the
    error for a body that is not JSON.  The bodies considered are the
    ones the backend writes: nothing, or a flat object of strings. *)
Definition response_json (body : Body) : string + JsonObject :=
  match body with
  | JsonBody _ o => inr o
  | EmptyBody => inl jsonErrorMessage
  end.

(** [function updateRequestLogs()] *)
Definition updateRequestLogs (p : Page) : Page :=
  let view :=
    match requests p with
    | [] => EmptyState
    | _ =>
        Items
          (map (fun request =>
                  mkLogItem
                    ("request-item "
                     ++ (if rd_isError request then "error"
                         else if strict_eq (rd_db_status request) "success"
                              then "success" else "error"))%string
                    (interpolate (rd_request_id request))
                    (toLocaleString (rd_timestamp request))
                    (interpolate (rd_server_hostname request))
                    (interpolate (rd_client_ip request))
                    (interpolate (rd_db_status request))
                    (if truthy (rd_db_error request)
                     then rd_db_error request else None))
               (requests p))
    end in
  mkPage (requests p) (servers p) (btn_disabled p) (btn_text p) view
         (serverDistribution p) (totalRequests p) (uniqueServers p) (alerts p).

(** [function updateServerDistribution()] *)
Definition updateServerDistribution (p : Page) : Page :=
  let view :=
    match servers p with
    | [] => EmptyState
    | _ =>
        let maxCount := math_max (map snd (servers p)) in
        let sortedServers := sort_desc (servers p) in
        Items
          (map (fun entry =>
                  mkDistItem (fst entry) (snd entry) maxCount
                    (decimal (snd entry) ++ " request"
                     ++ (if (snd entry =? 1)%nat then "" else "s"))%string)
               sortedServers)
    end in
  mkPage (requests p) (servers p) (btn_disabled p) (btn_text p)
         (requestLogs p) view (totalRequests p) (uniqueServers p) (alerts p).

(** [function updateStats()] *)
Definition updateStats (p : Page) : Page :=
  mkPage (requests p) (servers p) (btn_disabled p) (btn_text p)
         (requestLogs p) (serverDistribution p)
         (decimal (length (requests p))) (decimal (length (servers p)))
         (alerts p).

(** [function addRequest(requestData)] *)
Definition addRequest (requestData : RequestData) (p : Page) : Page :=
  let requests' := requestData :: requests p in
  let hostname := rd_server_hostname requestData in
  let servers' :=
    if truthy hostname && negb (strict_eq hostname "Error") then
      map_set (interpolate hostname)
              (match map_get (interpolate hostname) (servers p) with
               | Some c => if (c =? 0)%nat then 0 else c
               | None => 0
               end + 1)
              (servers p)
    else servers p in
  updateStats
    (updateServerDistribution
       (updateRequestLogs
          (mkPage requests' servers' (btn_disabled p) (btn_text p)
                  (requestLogs p) (serverDistribution p)
                  (totalRequests p) (uniqueServers p) (alerts p)))).

(** [function clearLogs()], given the answer to [confirm]. *)
Definition clearLogs (confirmed : bool) (p : Page) : Page :=
  if confirmed then
    updateStats
      (updateServerDistribution
         (updateRequestLogs
            (mkPage [] [] (btn_disabled p) (btn_text p)
                    (requestLogs p) (serverDistribution p)
                    (totalRequests p) (uniqueServers p) (alerts p))))
  else p.

Definition set_button (disabled : bool) (text : string) (p : Page) : Page :=
  mkPage (requests p) (servers p) disabled text (requestLogs p)
         (serverDistribution p) (totalRequests p) (uniqueServers p) (alerts p).

Definition alert (message : string) (p : Page) : Page :=
  mkPage (requests p) (servers p) (btn_disabled p) (btn_text p)
         (requestLogs p) (serverDistribution p) (totalRequests p)
         (uniqueServers p) (alerts p ++ [message]).

(** The [errorData] literal of the [catch] block; [t_id] is [Date.now()]
    and [t_iso] the time value of [new Date()]. *)
Definition errorData (message : string) (t_id t_iso : Z) : RequestData :=
  mkData (Some ("error-" ++ decimalZ t_id)%string)
         (Some "Error")
         (Some (toISOString t_iso))
         (Some "N/A")
         (Some "failed")
         (Some message)
         true.

(** The [catch (error)] block of [sendRequest]. *)
Definition sendRequest_catch (message : string) (t_id t_iso : Z) (p : Page)
  : Page :=
  alert ("Request failed: " ++ message ++ newline ++ newline
         ++ "Check:" ++ newline
         ++ "1. Backend URL is correct" ++ newline
         ++ "2. Backend server is running" ++ newline
         ++ "3. CORS is configured")%string
        (addRequest (errorData message t_id t_iso) p).

(** [async function sendRequest()].  [backendUrl] is the trimmed text of
    the URL field and [outcome] what the [fetch] of that URL comes to. *)
Definition sendRequest (backendUrl : string) (outcome : FetchOutcome)
    (t_id t_iso : Z) (p : Page) : Page :=
  let p1 := set_button true "Sending..." p in
  if backendUrl =? "" then
    set_button false "Send Request" (alert "Please enter a backend URL" p1)
  else
    let p2 :=
      match outcome with
      | FetchRejects message => sendRequest_catch message t_id t_iso p1
      | FetchResponse status body =>
          if negb (response_ok status) then
            sendRequest_catch
              ("HTTP error! status: " ++ decimalZ status)%string
              t_id t_iso p1
          else
            match response_json body with
            | inl message => sendRequest_catch message t_id t_iso p1
            | inr data => addRequest (parsed data) p1
            end
      end in
    set_button false "Send Request" p2.

(** The page once the script has run: empty state, then the three
    updates of its last lines. *)
Definition initial_page : Page :=
  updateStats
    (updateServerDistribution
       (updateRequestLogs
          (mkPage [] [] false initialButtonText EmptyState EmptyState
                  "" "" []))).

(** What the user can do to the page. *)
Inductive Action :=
| Send (backendUrl : string) (outcome : FetchOutcome) (t_id t_iso : Z)
| Clear (confirmed : bool).

Definition act (p : Page) (a : Action) : Page :=
  match a with
  | Send backendUrl outcome t_id t_iso =>
      sendRequest backendUrl outcome t_id t_iso p
  | Clear confirmed => clearLogs confirmed p
  end.

Definition after_actions (actions : list Action) : Page :=
  fold_left act actions initial_page.

End Frontend.

(** The host name an element of [requests] is counted under, if any:
    one that is there, not empty, and not "Error". *)
Definition counted (d : RequestData) : option string :=
  match rd_server_hostname d with
  | Some h => if (h =? "") || (h =? "Error") then None else Some h
  | None => None
  end.

(** How many elements of [requests] are counted under [h]. *)
Definition count_host (h : string) (l : list RequestData) : nat :=
  length (filter (fun d => match counted d with
                           | Some h' => h' =? h
                           | None => false
                           end) l).

(** What [fetch] comes to when the backend answers a request with
    [server] and the answer reaches the script. *)
Definition answer (host : string) (req : IncomingMessage) (w : World)
  : FetchOutcome :=
  let w' := snd (server host req w) in
  let evs := skipn (length (trace w)) (trace w') in
  match statuses evs, bodies evs with
  | [status], [body] => FetchResponse status body
  | _, _ => FetchRejects "Failed to fetch"
  end.

(** The three updates every change of the state is followed by. *)
Definition refresh (toLocaleString : option string -> string) (p : Page)
  : Page :=
  updateStats (updateServerDistribution (updateRequestLogs toLocaleString p)).

(** The DOM of [p] shows the state of [p]. *)
Definition shows_state (toLocaleString : option string -> string) (p : Page)
  : Prop :=
  requestLogs p = requestLogs (refresh toLocaleString p)
  /\ serverDistribution p = serverDistribution (refresh toLocaleString p)
  /\ totalRequests p = decimal (length (requests p))
  /\ uniqueServers p = decimal (length (servers p)).

(** [servers] holds, for each host name, the number of elements of
    [requests] counted under it, and no entry for a host with none. *)
Definition servers_agree (p : Page) : Prop :=
  forall h,
    map_get h (servers p)
    = if (count_host h (requests p) =? 0)%nat then None
      else Some (count_host h (requests p)).

(** The three facts kept by every action. *)
Definition page_invariant (tl : option string -> string) (p : Page) : Prop :=
  servers_agree p /\ NoDup (map fst (servers p)) /\ shows_state tl p.

(** The order of the distribution: larger counts first. *)
Definition count_ge (x y : string * nat) : Prop := (snd y <= snd x)%nat.

(** The entry of [servers] an item of the distribution stands for. *)
Definition dist_entry (i : DistItem) : string * nat :=
  (di_hostname i, di_count i).

(** The message of the error [sendRequest] catches for a given outcome
    of [fetch], if it catches one. *)
Definition failure_message (jsonErrorMessage : string)
    (outcome : FetchOutcome) : option string :=
  match outcome with
  | FetchRejects message => Some message
  | FetchResponse status body =>
      if negb (response_ok status) then
        Some ("HTTP error! status: " ++ decimalZ status)%string
      else
        match response_json jsonErrorMessage body with
        | inl message => Some message
        | inr _ => None
        end
  end.

(** The text [sendRequest] gives to [alert] for a caught error. *)
Definition failure_alert (message : string) : string :=
  ("Request failed: " ++ message ++ newline ++ newline
   ++ "Check:" ++ newline
   ++ "1. Backend URL is correct" ++ newline
   ++ "2. Backend server is running" ++ newline
   ++ "3. CORS is configured")%string.

(** A locale-independent stand-in for [toLocaleString]. *)
Definition showTimestamp (t : option string) : string :=
  or_else t "Invalid Date".

(* ================================================================== *)
(** * Properties *)

(** ** Reading a trace *)

Lemma collect_app {A : Type} (pick : Event -> option A)
    (l1 l2 : list Event) :
  collect pick (l1 ++ l2) = collect pick l1 ++ collect pick l2.
Proof.
  induction l1 as [|e l1 IH]; cbn; [reflexivity|].
  destruct (pick e); cbn; rewrite IH; reflexivity.
Qed.

Lemma collect_db_events {A : Type} (pick : Event -> option A)
    (evs : list Event) :
  (forall e, db_event e = true -> pick e = None) ->
  forallb db_event evs = true ->
  collect pick evs = [].
Proof.
  intros Hpick. induction evs as [|e evs IH]; cbn; [reflexivity|].
  intros H. apply andb_true_iff in H. destruct H as [He Hevs].
  rewrite (Hpick e He). apply IH. exact Hevs.
Qed.

(** ** The classification of an error *)

Lemma classify_collision (e : JsError) (a n : nat) (w : World) :
  isDuplicateKey e = true ->
  classify e a n w = (Normal (Some collisionResult), w).
Proof.
  intros H. unfold classify. rewrite H. reflexivity.
Qed.

Lemma classify_retry (e : JsError) (a n : nat) (w : World) :
  isDuplicateKey e = false ->
  isTransientError e = true ->
  (a < n - 1)%nat ->
  classify e a n w
  = (Normal None, after_sleep (backoff_delay a) w).
Proof.
  intros Hd Ht Ha. unfold classify. rewrite Hd, Ht.
  apply Nat.ltb_lt in Ha. rewrite Ha. reflexivity.
Qed.

Lemma classify_final (e : JsError) (a n : nat) (w : World) :
  isDuplicateKey e = false ->
  isTransientError e = false \/ (n - 1 <= a)%nat ->
  classify e a n w = (Normal (Some (failureResult e)), w).
Proof.
  intros Hd [Ht | Ha]; unfold classify; rewrite Hd.
  - rewrite Ht. reflexivity.
  - apply Nat.ltb_ge in Ha. rewrite Ha, andb_false_r. reflexivity.
Qed.

Lemma backoff_delay_pos (a : nat) : (0 < backoff_delay a)%Z.
Proof.
  destruct a as [|[|[|a]]]; unfold backoff_delay; simpl; try lia.
  destruct a; simpl; lia.
Qed.

(** ** One pass of the loop *)

Lemma pool_has_room (n : nat) :
  (n < poolMax)%nat -> (poolMax <=? n)%nat = false.
Proof. intros H. apply Nat.leb_gt. exact H. Qed.

Ltac unfold_world :=
  unfold after_failing, after_commit, failing_events, committing_events,
    set_faults, set_drawn, set_clock, set_request_logs, set_serial, set_txn,
    set_checked_out, emit in *.

Ltac run_io :=
  unfold pass, transaction, catch_block, rollback_and_release,
    dbPool_connect, client_query, client_release, execute, next_fault,
    try_block, bind, effect, ret, throw, id_taken, pending, in_logs in *;
  unfold_world;
  cbn -[Nat.leb poolMax classify String.eqb] in *.

Ltac tidy_trace := rewrite <- ?app_assoc; cbn [app].

(** Reads the fields of a world built by the [after_...] functions
    without expanding the worlds themselves. *)
Ltac project_world :=
  cbn [faults entropy drawn clock request_logs serial txn checked_out trace
       after_failing after_commit after_sleep after_uuid after_response
       set_faults set_drawn set_clock set_request_logs set_serial set_txn
       set_checked_out emit].

Lemma pass_failing (p : Phase) (e : JsError) (rb : option JsError)
    (rest : list (option JsError)) (rid host : string) (ts : Z) (ip : string)
    (a n : nat) (w : World) :
  faults w = failing p e rb ++ rest ->
  (checked_out w < poolMax)%nat ->
  (p = AtCommit -> in_logs rid w = false) ->
  pass rid host ts ip a n w
  = classify e a n (after_failing p rest (failing_events p rid host ts ip) w).
Proof.
  intros Hf Hroom Hfresh.
  destruct w as [fs en dr cl lg se tx co tr].
  cbn in Hf, Hroom. subst fs. apply pool_has_room in Hroom.
  destruct p; run_io.
  - reflexivity.
  - rewrite Hroom. cbn -[classify].
    destruct rb; cbn -[classify]; tidy_trace; reflexivity.
  - rewrite Hroom. cbn -[classify].
    destruct rb; cbn -[classify]; tidy_trace; reflexivity.
  - rewrite Hroom. cbn -[classify String.eqb].
    rewrite app_nil_r. rewrite (Hfresh eq_refl). cbn -[classify].
    destruct rb; cbn -[classify]; tidy_trace; reflexivity.
Qed.

Lemma pass_committing (rest : list (option JsError)) (rid host : string)
    (ts : Z) (ip : string) (a n : nat) (w : World) :
  faults w = [None; None; None; None] ++ rest ->
  (checked_out w < poolMax)%nat ->
  in_logs rid w = false ->
  pass rid host ts ip a n w
  = (Normal (Some successResult), after_commit rest rid host ts ip w).
Proof.
  intros Hf Hroom Hfresh.
  destruct w as [fs en dr cl lg se tx co tr].
  cbn in Hf, Hroom. subst fs. apply pool_has_room in Hroom.
  run_io. rewrite Hroom. cbn -[String.eqb].
  rewrite app_nil_r, Hfresh. cbn. tidy_trace. reflexivity.
Qed.

(** The insert of an identifier that is already in the table is refused
    by the server itself, with SQLSTATE 23505. *)
Lemma pass_unique_violation (rb : option JsError)
    (rest : list (option JsError)) (rid host : string) (ts : Z) (ip : string)
    (a n : nat) (w : World) :
  faults w = [None; None; None; rb] ++ rest ->
  (checked_out w < poolMax)%nat ->
  in_logs rid w = true ->
  pass rid host ts ip a n w
  = classify uniqueViolation a n
      (after_failing AtInsert rest (failing_events AtInsert rid host ts ip) w).
Proof.
  intros Hf Hroom Htaken.
  destruct w as [fs en dr cl lg se tx co tr].
  cbn in Hf, Hroom. subst fs. apply pool_has_room in Hroom.
  run_io. rewrite Hroom. cbn -[classify String.eqb].
  rewrite app_nil_r, Htaken. cbn -[classify].
  destruct rb; cbn -[classify]; tidy_trace; reflexivity.
Qed.

Lemma db_run_refl (w : World) : db_run w w [].
Proof.
  unfold db_run. rewrite app_nil_r. repeat split; lia.
Qed.

Lemma db_run_trans (w1 w2 w3 : World) (evs1 evs2 : list Event) :
  db_run w1 w2 evs1 -> db_run w2 w3 evs2 -> db_run w1 w3 (evs1 ++ evs2).
Proof.
  unfold db_run.
  intros (T1 & D1 & E1 & R1 & C1 & K1) (T2 & D2 & E2 & R2 & C2 & K2).
  repeat split; try congruence; try lia.
  - rewrite T2, T1, app_assoc. reflexivity.
  - rewrite forallb_app, D1, D2. reflexivity.
Qed.

Lemma classify_total (e : JsError) (a n : nat) (w : World) :
  exists r w' evs,
    classify e a n w = (Normal r, w')
    /\ db_run w w' evs
    /\ request_logs w' = request_logs w
    /\ match r with
       | Some res =>
           res_success res = false /\ truthy (res_error res) = true
           /\ evs = [] /\ clock w' = clock w
       | None =>
           (a < n - 1)%nat
           /\ evs = [EvSleep (backoff_delay a)]
           /\ clock w' = (clock w + backoff_delay a)%Z
       end.
Proof.
  unfold classify.
  destruct (isDuplicateKey e).
  - exists (Some collisionResult), w, []. split; [reflexivity|].
    split; [apply db_run_refl|]. repeat split.
  - destruct (isTransientError e && (a <? n - 1)%nat) eqn:Hr.
    + apply andb_true_iff in Hr. destruct Hr as [_ Hr].
      apply Nat.ltb_lt in Hr.
      eexists None, _, [EvSleep (backoff_delay a)].
      split; [reflexivity|]. split.
      * pose proof (backoff_delay_pos a).
        unfold db_run. cbn. repeat split; lia.
      * repeat split. exact Hr.
    + exists (Some (failureResult e)), w, []. split; [reflexivity|].
      split; [apply db_run_refl|]. split; [reflexivity|].
      split; [reflexivity|]. split; [|split; reflexivity].
      unfold failureResult, js_or. cbn.
      destruct (truthy (err_code e)) eqn:Hc; [exact Hc | reflexivity].
Qed.

Ltac leaf_fail :=
  left; eexists _, _, _; split; [reflexivity|];
  split; [unfold db_run; cbn; tidy_trace; repeat split; lia
         | repeat split; reflexivity].

Ltac leaf_ok :=
  right; eexists _, _, _; split; [reflexivity|];
  split; [unfold db_run; cbn; tidy_trace; repeat split; lia
         | repeat split; reflexivity].

(** Whatever the database does, a pass either commits the row or ends in
    the classification of the error it caught, with the table untouched
    and the client back in the pool. *)
Lemma pass_cases (rid host : string) (ts : Z) (ip : string) (a n : nat)
    (w : World) :
  (exists e w1 evs,
      pass rid host ts ip a n w = classify e a n w1
      /\ db_run w w1 evs
      /\ request_logs w1 = request_logs w
      /\ slept evs = []
      /\ clock w1 = clock w)
  \/ (exists w1 evs k,
      pass rid host ts ip a n w = (Normal (Some successResult), w1)
      /\ db_run w w1 evs
      /\ request_logs w1 = request_logs w ++ [mkEntry k rid host ts ip]
      /\ slept evs = []
      /\ clock w1 = clock w).
Proof.
  destruct w as [fs en dr cl lg se tx co tr].
  run_io.
  destruct fs as [|[e1|] fs]; cbn -[Nat.leb poolMax classify String.eqb];
    try solve [leaf_fail];
    (destruct (poolMax <=? co)%nat eqn:Hroom;
     cbn -[Nat.leb poolMax classify String.eqb]; [solve [leaf_fail]|]).
  all: rewrite ?app_nil_r.
  all: try (destruct fs as [|[e2|] fs]; cbn -[Nat.leb poolMax classify String.eqb]).
  all: try (destruct fs as [|[e3|] fs]; cbn -[Nat.leb poolMax classify String.eqb]).
  all: rewrite ?app_nil_r.
  all: try (destruct (existsb (fun r => request_id r =? rid) lg) eqn:Htaken;
            cbn -[Nat.leb poolMax classify String.eqb]).
  all: try (destruct fs as [|[e4|] fs]; cbn -[Nat.leb poolMax classify String.eqb]).
  all: try (destruct fs as [|[e5|] fs]; cbn -[Nat.leb poolMax classify String.eqb]).
  all: try solve [leaf_fail].
  all: try solve [leaf_ok].
Qed.

(** ** The loop and the gateway, whatever the database does *)

Lemma retry_loop_total (rid host : string) (ts : Z) (ip : string) (n : nat) :
  forall (left a : nat) (w : World),
  exists r w' evs,
    retry_loop left rid host ts ip a n w = (Normal r, w')
    /\ db_run w w' evs
    /\ write_outcome rid host ts ip w w' r.
Proof.
  induction left as [|left IH]; intros a w.
  - exists maxRetriesResult, w, []. split; [reflexivity|].
    split; [apply db_run_refl|]. right. repeat split.
  - cbn [retry_loop]. unfold bind.
    destruct (pass_cases rid host ts ip a n w)
      as [(e & w1 & evs1 & Hp & Hrun1 & Hlogs1 & _)
         | (w1 & evs1 & k & Hp & Hrun1 & Hlogs1 & _)].
    + rewrite Hp.
      destruct (classify_total e a n w1)
        as (r & w2 & evs2 & Hc & Hrun2 & Hlogs2 & Hr).
      rewrite Hc.
      pose proof (db_run_trans _ _ _ _ _ Hrun1 Hrun2) as Hrun12.
      destruct r as [res|].
      * exists res, w2, (evs1 ++ evs2). split; [reflexivity|].
        split; [exact Hrun12|]. right.
        destruct Hr as (Hs & Ht & _). repeat split; congruence.
      * destruct (IH (S a) w2) as (r & w3 & evs3 & Hl & Hrun3 & Hout).
        exists r, w3, ((evs1 ++ evs2) ++ evs3). split; [exact Hl|].
        split; [exact (db_run_trans _ _ _ _ _ Hrun12 Hrun3)|].
        unfold write_outcome in *.
        rewrite <- Hlogs1, <- Hlogs2. exact Hout.
    + rewrite Hp. exists successResult, w1, evs1.
      split; [reflexivity|]. split; [exact Hrun1|].
      left. split; [reflexivity|]. exists k. exact Hlogs1.
Qed.

(** [writeRequestToDatabase] always returns a result (it never throws),
    announces itself once, leaves the pool as it found it, and reports
    success exactly when its row was committed. *)
Lemma writeRequestToDatabase_total (rid host : string) (ts : Z) (ip : string)
    (n : nat) (w : World) :
  exists r w' evs,
    writeRequestToDatabase rid host ts ip n w = (Normal r, w')
    /\ db_run (emit (EvGateway rid host ts ip) w) w' evs
    /\ write_outcome rid host ts ip w w' r.
Proof.
  unfold writeRequestToDatabase, bind, effect.
  destruct (retry_loop_total rid host ts ip n n 0
              (emit (EvGateway rid host ts ip) w))
    as (r & w' & evs & Hl & Hrun & Hout).
  exists r, w', evs. rewrite Hl.
  split; [reflexivity | split; assumption].
Qed.

(** Every client [writeRequestToDatabase] takes from the pool is back in
    it when the function returns, on every path. *)
Lemma writeRequestToDatabase_releases (rid host : string) (ts : Z)
    (ip : string) (n : nat) (w : World) :
  checked_out (snd (writeRequestToDatabase rid host ts ip n w))
  = checked_out w.
Proof.
  destruct (writeRequestToDatabase_total rid host ts ip n w)
    as (r & w' & evs & Hw & (_ & _ & _ & _ & Hc & _) & _).
  rewrite Hw. exact Hc.
Qed.

(** ** The delays of a call, whatever the database does *)

Lemma slept_app (l1 l2 : list Event) : slept (l1 ++ l2) = slept l1 ++ slept l2.
Proof. apply collect_app. Qed.

(** The loop sleeps after each pass it repeats, and the delay after
    pass number [a] (counted from 0) is [backoffMs[a]]: started at pass
    [a], it sleeps [backoff_delay a], [backoff_delay (a + 1)], ... and
    only after passes that are not the last one. *)
Lemma retry_loop_backoff (rid host : string) (ts : Z) (ip : string) (n : nat) :
  forall (left a : nat) (w : World),
  exists r w' evs j,
    retry_loop left rid host ts ip a n w = (Normal r, w')
    /\ trace w' = trace w ++ evs
    /\ slept evs = map backoff_delay (seq a j)
    /\ (j = 0 \/ a + j <= n - 1)%nat
    /\ clock w' = (clock w + total (slept evs))%Z.
Proof.
  induction left as [|left IH]; intros a w.
  - exists maxRetriesResult, w, [], 0%nat. split; [reflexivity|].
    rewrite app_nil_r. cbn. repeat split; lia.
  - cbn [retry_loop]. unfold bind.
    destruct (pass_cases rid host ts ip a n w)
      as [(e & w1 & evs1 & Hp & (T1 & _) & _ & S1 & K1)
         | (w1 & evs1 & k & Hp & (T1 & _) & _ & S1 & K1)].
    + rewrite Hp.
      destruct (classify_total e a n w1)
        as (r & w2 & evs2 & Hc & (T2 & _) & _ & Hr).
      rewrite Hc. destruct r as [res|].
      * destruct Hr as (_ & _ & -> & K2).
        exists res, w2, evs1, 0%nat. split; [reflexivity|].
        rewrite app_nil_r in T2. rewrite S1. cbn.
        repeat split; try congruence; lia.
      * destruct Hr as (Ha & -> & K2).
        destruct (IH (S a) w2) as (r & w3 & evs3 & j & Hl & T3 & S3 & Hj & K3).
        exists r, w3, (evs1 ++ [EvSleep (backoff_delay a)] ++ evs3), (S j).
        split; [exact Hl|].
        split; [rewrite T3, T2, T1, <- !app_assoc; reflexivity|].
        rewrite !slept_app, S1, S3. cbn [app seq map].
        change (slept [EvSleep (backoff_delay a)]) with [backoff_delay a].
        cbn [app].
        split; [reflexivity|].
        split; [right; lia|].
        rewrite K3, K2, K1, S3. cbn [total fold_right].
        fold (total (map backoff_delay (seq (S a) j))). lia.
    + rewrite Hp. exists successResult, w1, evs1, 0%nat.
      split; [reflexivity|]. rewrite S1. cbn.
      repeat split; try congruence; lia.
Qed.

(** With the three passes the handler asks for, a call sleeps nothing,
    100 ms, or 100 ms and then 200 ms; the third entry of [backoffMs] is
    never reached, since the loop does not sleep after its last pass. *)
Lemma backoff_follows_schedule (rid host : string) (ts : Z) (ip : string)
    (w : World) :
  exists r w' evs,
    writeRequestToDatabase rid host ts ip defaultRetries w = (Normal r, w')
    /\ trace w' = trace w ++ EvGateway rid host ts ip :: evs
    /\ (slept evs = [] \/ slept evs = [100%Z] \/ slept evs = [100%Z; 200%Z])
    /\ clock w' = (clock w + total (slept evs))%Z
    /\ (total (slept evs) <= 300)%Z.
Proof.
  unfold writeRequestToDatabase, bind, effect.
  destruct (retry_loop_backoff rid host ts ip defaultRetries defaultRetries 0
              (emit (EvGateway rid host ts ip) w))
    as (r & w' & evs & j & Hl & Ht & Hs & Hj & Hk).
  exists r, w', evs. rewrite Hl. split; [reflexivity|].
  split; [rewrite Ht; cbn; rewrite <- app_assoc; reflexivity|].
  assert (Hcases : (j = 0 \/ j = 1 \/ j = 2)%nat)
    by (unfold defaultRetries in Hj; lia).
  rewrite Hk, Hs.
  destruct Hcases as [-> | [-> | ->]]; cbn.
  - repeat split; try lia. left. reflexivity.
  - repeat split; try lia. right. left. reflexivity.
  - repeat split; try lia. right. right. reflexivity.
Qed.

(** ** Facts about error labels *)

Lemma isTransientError_code (e e' : JsError) :
  err_code e = err_code e' -> isTransientError e = isTransientError e'.
Proof. unfold isTransientError. intros ->. reflexivity. Qed.

Lemma transient_code_truthy (e : JsError) :
  isTransientError e = true -> truthy (err_code e) = true.
Proof.
  destruct e as [[c|] m]; cbn; [|discriminate].
  destruct (c =? "") eqn:Hc; [|reflexivity].
  apply String.eqb_eq in Hc. subst c. cbn. discriminate.
Qed.

Lemma transient_label (e : JsError) :
  isTransientError e = true -> res_error (failureResult e) = err_code e.
Proof.
  intros H. apply transient_code_truthy in H.
  unfold failureResult, js_or. cbn. rewrite H. reflexivity.
Qed.

(** A result that carries a transient code is never the result of a
    permanent error. *)
Lemma exhausted_not_permanent (e e' : JsError) :
  isTransientError e = true ->
  isTransientError e' = false ->
  failureResult e' <> failureResult e.
Proof.
  intros He He' Heq.
  assert (Hl : res_error (failureResult e') = err_code e)
    by (rewrite Heq; apply transient_label; exact He).
  unfold failureResult, js_or in Hl. cbn in Hl.
  destruct (truthy (err_code e')) eqn:Ht.
  - rewrite (isTransientError_code e' e Hl) in He'. congruence.
  - rewrite (isTransientError_code e (mkError (Some "UNKNOWN") "")) in He
      by (symmetry; exact Hl).
    cbn in He. discriminate.
Qed.

Lemma exhausted_not_collision (e : JsError) :
  isTransientError e = true -> failureResult e <> collisionResult.
Proof.
  intros He Heq.
  assert (Hl : err_code e = Some "UUID_COLLISION")
    by (rewrite <- (transient_label e He), Heq; reflexivity).
  rewrite (isTransientError_code e (mkError (Some "UUID_COLLISION") "") Hl)
    in He.
  cbn in He. discriminate.
Qed.

(** ** The gateway on given outcomes *)

Lemma after_failing_emit (p : Phase) (rest : list (option JsError))
    (ev : Event) (evs : list Event) (w : World) :
  after_failing p rest evs (emit ev w) = after_failing p rest (ev :: evs) w.
Proof.
  unfold after_failing, emit. cbn. rewrite <- app_assoc. reflexivity.
Qed.

(** C6: a failure that is neither a unique-constraint violation nor a
    transient error ends the call at once: [writeRequestToDatabase]
    returns the failure with the error's code (or UNKNOWN) and message
    after exactly one pass of the loop, without sleeping any backoff
    delay and without a further round trip to the database. *)
Theorem permanent_error_not_retried (p : Phase) (e : JsError)
    (rb : option JsError) (rest : list (option JsError))
    (rid host : string) (ts : Z) (ip : string) (retries : nat) (w : World) :
  (0 < retries)%nat ->
  faults w = failing p e rb ++ rest ->
  (checked_out w < poolMax)%nat ->
  (p = AtCommit -> in_logs rid w = false) ->
  isDuplicateKey e = false ->
  isTransientError e = false ->
  let evs := EvGateway rid host ts ip :: failing_events p rid host ts ip in
  writeRequestToDatabase rid host ts ip retries w
  = (Normal (failureResult e), after_failing p rest evs w)
  /\ passes evs = 1%nat
  /\ slept evs = []
  /\ faults (after_failing p rest evs w) = rest
  /\ clock (after_failing p rest evs w) = clock w
  /\ request_logs (after_failing p rest evs w) = request_logs w.
Proof.
  intros Hn Hf Hroom Hfresh Hdup Htr evs. split.
  - destruct retries as [|k]; [lia|].
    unfold writeRequestToDatabase, bind, effect. cbn [retry_loop]. unfold bind.
    rewrite (pass_failing p e rb rest) by assumption.
    rewrite classify_final by (try assumption; left; assumption).
    unfold ret. rewrite after_failing_emit. reflexivity.
  - subst evs. destruct p; repeat split; reflexivity.
Qed.

(** C2: when the first two passes of a call fail with transient errors
    and the third goes through, [writeRequestToDatabase] returns success;
    every pass starts the transaction afresh on a client of its own, the
    delays slept are 100 ms after the first failure and 200 ms after the
    second, as [backoffMs] has them, so that 300 ms of backoff lie
    between the start and the end of the call, and the row is committed. *)
Theorem transient_twice_then_success (p1 p2 : Phase) (e1 e2 : JsError)
    (rb1 rb2 : option JsError) (rest : list (option JsError))
    (rid host : string) (ts : Z) (ip : string) (w : World) :
  faults w
  = failing p1 e1 rb1 ++ failing p2 e2 rb2 ++ [None; None; None; None] ++ rest ->
  (checked_out w < poolMax)%nat ->
  in_logs rid w = false ->
  isDuplicateKey e1 = false -> isTransientError e1 = true ->
  isDuplicateKey e2 = false -> isTransientError e2 = true ->
  let evs :=
    EvGateway rid host ts ip
    :: failing_events p1 rid host ts ip
    ++ EvSleep 100 :: failing_events p2 rid host ts ip
    ++ EvSleep 200 :: committing_events rid host ts ip in
  exists w' k,
    writeRequestToDatabase rid host ts ip defaultRetries w
    = (Normal successResult, w')
    /\ trace w' = trace w ++ evs
    /\ passes evs = 3%nat
    /\ slept evs = firstn 2 backoffMs
    /\ clock w' = (clock w + (100 + 200))%Z
    /\ request_logs w' = request_logs w ++ [mkEntry k rid host ts ip]
    /\ checked_out w' = checked_out w
    /\ faults w' = rest.
Proof.
  intros Hf Hroom Hfresh Hd1 Ht1 Hd2 Ht2 evs.
  unfold writeRequestToDatabase, defaultRetries, bind, effect.
  cbn [retry_loop]. unfold bind.
  rewrite (pass_failing p1 e1 rb1
             (failing p2 e2 rb2 ++ [None; None; None; None] ++ rest));
    [ | exact Hf | exact Hroom | intros _; exact Hfresh ].
  rewrite classify_retry; [ | exact Hd1 | exact Ht1 | cbn; lia ].
  rewrite (pass_failing p2 e2 rb2 ([None; None; None; None] ++ rest));
    [ | reflexivity | exact Hroom | intros _; exact Hfresh ].
  rewrite classify_retry; [ | exact Hd2 | exact Ht2 | cbn; lia ].
  rewrite (pass_committing rest);
    [ | reflexivity | exact Hroom | exact Hfresh ].
  unfold ret. eexists _, _. split; [reflexivity|].
  subst evs. project_world.
  repeat split.
  - tidy_trace. reflexivity.
  - destruct p1, p2; reflexivity.
  - destruct p1, p2; reflexivity.
  - change (backoff_delay 0) with 100%Z.
    change (backoff_delay 1) with 200%Z. lia.
Qed.

(** C4: when all three passes of a call fail with transient errors,
    [writeRequestToDatabase] returns a failure that carries the code and
    the message of the last error; this result differs from success,
    from the collision result and from the result of every permanent
    error.  Nothing was added to the table and no transaction is left
    open: each pass that had a client sent ROLLBACK and then released it. *)
Theorem transient_thrice_exhausts_retries (p1 p2 p3 : Phase)
    (e1 e2 e3 : JsError) (rb1 rb2 rb3 : option JsError)
    (rest : list (option JsError))
    (rid host : string) (ts : Z) (ip : string) (w : World) :
  faults w
  = failing p1 e1 rb1 ++ failing p2 e2 rb2 ++ failing p3 e3 rb3 ++ rest ->
  (checked_out w < poolMax)%nat ->
  (In AtCommit [p1; p2; p3] -> in_logs rid w = false) ->
  isDuplicateKey e1 = false -> isTransientError e1 = true ->
  isDuplicateKey e2 = false -> isTransientError e2 = true ->
  isDuplicateKey e3 = false -> isTransientError e3 = true ->
  let evs :=
    EvGateway rid host ts ip
    :: failing_events p1 rid host ts ip
    ++ EvSleep 100 :: failing_events p2 rid host ts ip
    ++ EvSleep 200 :: failing_events p3 rid host ts ip in
  exists w',
    writeRequestToDatabase rid host ts ip defaultRetries w
    = (Normal (failureResult e3), w')
    /\ res_success (failureResult e3) = false
    /\ res_error (failureResult e3) = err_code e3
    /\ res_message (failureResult e3) = Some (err_message e3)
    /\ failureResult e3 <> collisionResult
    /\ (forall e', isTransientError e' = false ->
                   failureResult e' <> failureResult e3)
    /\ trace w' = trace w ++ evs
    /\ passes evs = 3%nat
    /\ releases evs = (3 - length (filter (fun p => match p with
                                                    | AtConnect => true
                                                    | _ => false
                                                    end) [p1; p2; p3]))%nat
    /\ request_logs w' = request_logs w
    /\ (txn w = None -> txn w' = None)
    /\ checked_out w' = checked_out w
    /\ faults w' = rest.
Proof.
  intros Hf Hroom Hfresh Hd1 Ht1 Hd2 Ht2 Hd3 Ht3 evs.
  unfold writeRequestToDatabase, defaultRetries, bind, effect.
  cbn [retry_loop]. unfold bind.
  rewrite (pass_failing p1 e1 rb1
             (failing p2 e2 rb2 ++ failing p3 e3 rb3 ++ rest));
    [ | exact Hf | exact Hroom
      | intros ->; apply Hfresh; cbn; tauto ].
  rewrite classify_retry; [ | exact Hd1 | exact Ht1 | cbn; lia ].
  rewrite (pass_failing p2 e2 rb2 (failing p3 e3 rb3 ++ rest));
    [ | reflexivity | exact Hroom
      | intros ->; apply Hfresh; cbn; tauto ].
  rewrite classify_retry; [ | exact Hd2 | exact Ht2 | cbn; lia ].
  rewrite (pass_failing p3 e3 rb3 rest);
    [ | reflexivity | exact Hroom
      | intros ->; apply Hfresh; cbn; tauto ].
  rewrite classify_final; [ | exact Hd3 | right; cbn; lia ].
  eexists. split; [reflexivity|].
  split; [reflexivity|].
  split; [apply transient_label; exact Ht3|].
  split; [reflexivity|].
  split; [apply exhausted_not_collision; exact Ht3|].
  split; [intros e' He'; apply exhausted_not_permanent; assumption|].
  subst evs. project_world.
  repeat split.
  - tidy_trace. reflexivity.
  - destruct p1, p2, p3; reflexivity.
  - destruct p1, p2, p3; reflexivity.
  - intros Htx. destruct p1, p2, p3; try reflexivity. exact Htx.
Qed.

(** ** The request handler, whatever the database does *)

Lemma handleRequest_unfold (host : string) (req : IncomingMessage)
    (w : World) :
  handleRequest host req w
  = match writeRequestToDatabase (entropy w (drawn w)) host (clock w)
                                 (clientIpOf req) defaultRetries
                                 (after_uuid w) with
    | (Normal r1, w1) =>
        if is_collision r1 then
          match writeRequestToDatabase (entropy w1 (drawn w1)) host (clock w)
                                       (clientIpOf req) defaultRetries
                                       (after_uuid w1) with
          | (Normal r2, w2) =>
              (Normal tt,
               after_response host (entropy w1 (drawn w1)) (clock w)
                              (clientIpOf req) r2 w2)
          | (Throw e, w2) => (Throw e, w2)
          end
        else
          (Normal tt,
           after_response host (entropy w (drawn w)) (clock w)
                          (clientIpOf req) r1 w1)
    | (Throw e, w1) => (Throw e, w1)
    end.
Proof.
  unfold handleRequest, generateRequestId, crypto_randomUUID, new_Date,
    res_writeHead, res_end, effect, ret, bind, after_uuid, after_response.
  cbn [clock emit set_drawn].
  destruct (writeRequestToDatabase _ _ _ _ _ _) as [[r1|e1] w1];
    [|reflexivity].
  destruct (is_collision r1); [|reflexivity].
  destruct (writeRequestToDatabase _ _ _ _ _ _) as [[r2|e2] w2];
    reflexivity.
Qed.

(** [handleRequest] never throws.  It draws one identifier and calls the
    gateway; unless that call reports a collision, it answers with the
    result of the call.  On a collision it draws a second identifier,
    calls the gateway again with the same host name, timestamp and client
    address, and answers with the result of the second call. *)
Lemma handleRequest_cases (host : string) (req : IncomingMessage) (w : World) :
  let rid1 := entropy w (drawn w) in
  let rid2 := entropy w (S (drawn w)) in
  let ts := clock w in
  let ip := clientIpOf req in
  exists r1 w1 evs1,
    writeRequestToDatabase rid1 host ts ip defaultRetries (after_uuid w)
    = (Normal r1, w1)
    /\ db_run (emit (EvGateway rid1 host ts ip) (after_uuid w)) w1 evs1
    /\ write_outcome rid1 host ts ip w w1 r1
    /\ ((is_collision r1 = false
         /\ exists w',
             handleRequest host req w = (Normal tt, w')
             /\ trace w'
                = trace w
                  ++ EvRandomUUID rid1 :: EvGateway rid1 host ts ip :: evs1
                  ++ response_events host rid1 ts ip r1
             /\ request_logs w' = request_logs w1
             /\ checked_out w' = checked_out w)
        \/ (is_collision r1 = true
            /\ exists r2 w2 evs2 w',
                writeRequestToDatabase rid2 host ts ip defaultRetries
                                       (after_uuid w1)
                = (Normal r2, w2)
                /\ forallb db_event evs2 = true
                /\ write_outcome rid2 host ts ip w1 w2 r2
                /\ handleRequest host req w = (Normal tt, w')
                /\ trace w'
                   = trace w
                     ++ EvRandomUUID rid1 :: EvGateway rid1 host ts ip :: evs1
                     ++ EvRandomUUID rid2 :: EvGateway rid2 host ts ip :: evs2
                     ++ response_events host rid2 ts ip r2
                /\ request_logs w' = request_logs w2
                /\ checked_out w' = checked_out w)).
Proof.
  intros rid1 rid2 ts ip.
  destruct (writeRequestToDatabase_total rid1 host ts ip defaultRetries
              (after_uuid w))
    as (r1 & w1 & evs1 & Hw1 & Hrun1 & Hout1).
  exists r1, w1, evs1.
  split; [exact Hw1|]. split; [exact Hrun1|]. split; [exact Hout1|].
  destruct Hrun1 as (T1 & D1 & E1 & R1 & C1 & K1). cbn in T1, E1, R1, C1.
  rewrite !handleRequest_unfold. fold rid1 ts ip. rewrite Hw1.
  assert (Hrid2 : entropy w1 (drawn w1) = rid2)
    by (rewrite E1, R1; reflexivity).
  rewrite Hrid2.
  destruct (is_collision r1) eqn:Hcol.
  - right. split; [reflexivity|].
    destruct (writeRequestToDatabase_total rid2 host ts ip defaultRetries
                (after_uuid w1))
      as (r2 & w2 & evs2 & Hw2 & Hrun2 & Hout2).
    destruct Hrun2 as (T2 & D2 & E2 & R2 & C2 & K2). cbn in T2, E2, R2, C2.
    rewrite Hrid2 in T2.
    exists r2, w2, evs2. eexists.
    split; [exact Hw2|]. split; [exact D2|]. split; [exact Hout2|].
    rewrite Hw2. split; [reflexivity|].
    project_world. rewrite T2, T1. tidy_trace.
    repeat split; congruence.
  - left. split; [reflexivity|]. eexists.
    split; [reflexivity|].
    project_world. rewrite T1. tidy_trace.
    repeat split; congruence.
Qed.

(** ** A collision on the first write *)

Lemma code_23505_is_duplicate (e : JsError) :
  err_code e = Some "23505" -> isDuplicateKey e = true.
Proof.
  intros H. unfold isDuplicateKey. rewrite H. reflexivity.
Qed.

Lemma insert_error_is_duplicate (f : option JsError) (rid : string)
    (w : World) :
  unique_violation_on_insert f rid w -> isDuplicateKey (insert_error f) = true.
Proof.
  destruct f as [e|]; cbn; intros H.
  - apply code_23505_is_duplicate. exact H.
  - reflexivity.
Qed.

(** A pass whose insert meets a unique-constraint violation returns the
    collision result on the spot, at whatever pass of the loop it
    happens: the client is rolled back and released, nothing is slept. *)
Lemma pass_collision (f rb : option JsError) (rest : list (option JsError))
    (rid host : string) (ts : Z) (ip : string) (a n : nat) (w : World) :
  faults w = [None; None; f; rb] ++ rest ->
  (checked_out w < poolMax)%nat ->
  unique_violation_on_insert f rid w ->
  pass rid host ts ip a n w
  = (Normal (Some collisionResult),
     after_failing AtInsert rest (failing_events AtInsert rid host ts ip) w).
Proof.
  intros Hf Hroom Hviol.
  pose proof (insert_error_is_duplicate f rid w Hviol) as Hdup.
  destruct f as [e|]; cbn in Hviol, Hdup.
  - rewrite (pass_failing AtInsert e rb rest);
      [ | exact Hf | exact Hroom | discriminate ].
    apply classify_collision. exact Hdup.
  - rewrite (pass_unique_violation rb rest);
      [ | exact Hf | exact Hroom | exact Hviol ].
    apply classify_collision. exact Hdup.
Qed.

Lemma gateway_collision (f rb : option JsError) (rest : list (option JsError))
    (rid host : string) (ts : Z) (ip : string) (w : World) :
  faults w = [None; None; f; rb] ++ rest ->
  (checked_out w < poolMax)%nat ->
  unique_violation_on_insert f rid w ->
  writeRequestToDatabase rid host ts ip defaultRetries w
  = (Normal collisionResult,
     after_failing AtInsert rest
       (EvGateway rid host ts ip :: failing_events AtInsert rid host ts ip) w).
Proof.
  intros Hf Hroom Hviol.
  unfold writeRequestToDatabase, defaultRetries, bind, effect.
  cbn [retry_loop]. unfold bind.
  rewrite (pass_collision f rb rest); [ | exact Hf | exact Hroom | exact Hviol ].
  unfold ret. rewrite after_failing_emit. reflexivity.
Qed.

(** The whole of [handleRequest] when the first write collides. *)
Lemma handleRequest_on_collision (host : string) (req : IncomingMessage)
    (f rb : option JsError) (rest : list (option JsError)) (w : World) :
  let rid1 := entropy w (drawn w) in
  let rid2 := entropy w (S (drawn w)) in
  let ts := clock w in
  let ip := clientIpOf req in
  faults w = [None; None; f; rb] ++ rest ->
  (checked_out w < poolMax)%nat ->
  unique_violation_on_insert f rid1 w ->
  exists r2 evs2 w',
    handleRequest host req w = (Normal tt, w')
    /\ forallb db_event evs2 = true
    /\ trace w'
       = trace w
         ++ EvRandomUUID rid1 :: EvGateway rid1 host ts ip
            :: failing_events AtInsert rid1 host ts ip
         ++ EvRandomUUID rid2 :: EvGateway rid2 host ts ip :: evs2
         ++ response_events host rid2 ts ip r2.
Proof.
  intros rid1 rid2 ts ip Hf Hroom Hviol.
  pose proof (gateway_collision f rb rest rid1 host ts ip (after_uuid w)
                Hf Hroom Hviol) as Hg.
  destruct (handleRequest_cases host req w)
    as (r1 & w1 & evs1 & Hw1 & Hrun1 & _ & Hcases).
  fold rid1 rid2 ts ip in Hw1, Hrun1, Hcases.
  rewrite Hg in Hw1. injection Hw1 as <- <-.
  destruct Hrun1 as (T1 & _).
  assert (Hevs1 : evs1 = failing_events AtInsert rid1 host ts ip).
  { unfold after_failing, after_uuid, emit in T1. cbn in T1.
    rewrite <- !app_assoc in T1. cbn [app] in T1.
    apply app_inv_head in T1. injection T1 as T1. symmetry. exact T1. }
  destruct Hcases as [(Hcol & _) | (_ & r2 & w2 & evs2 & w' & _ & D2 & _ & Hh & Ht & _)].
  - cbn in Hcol. discriminate.
  - exists r2, evs2, w'. rewrite <- Hevs1. repeat split; assumption.
Qed.

Ltac read_trace :=
  unfold passes, releases, slept, generated, gateway_calls, statuses, bodies,
    response_events, failing_events, committing_events;
  repeat (rewrite collect_app || cbn [collect app length]);
  rewrite ?collect_db_events
    by first [ assumption
             | let H := fresh in intros [] H; cbn in H |- *; congruence ].

(** ** Failures that are not collisions *)

Ltac leaf_caught :=
  left; eexists _, _; split; [reflexivity|];
  split; [reflexivity|];
  split;
  [ cbn [faults];
    first [ exists []; reflexivity
          | eexists [_]; reflexivity
          | eexists [_; _]; reflexivity
          | eexists [_; _; _]; reflexivity
          | eexists [_; _; _; _]; reflexivity
          | eexists [_; _; _; _; _]; reflexivity ]
  | cbn [faults In];
    first [ right; right; split;
            [reflexivity | first [assumption | reflexivity]]
          | right; left; reflexivity
          | left; auto 12 ] ].

(** The error a failing pass hands to its classification is one the
    database layer raised: an injected answer, the pool's timeout, or
    the server's own refusal of an identifier that is in the table. *)
Lemma pass_caught (rid host : string) (ts : Z) (ip : string) (a n : nat)
    (w : World) :
  (exists e w1,
      pass rid host ts ip a n w = classify e a n w1
      /\ request_logs w1 = request_logs w
      /\ (exists pre, faults w = pre ++ faults w1)
      /\ (In (Some e) (faults w) \/ e = poolTimeout
          \/ (e = uniqueViolation /\ in_logs rid w = true)))
  \/ (exists w1,
      pass rid host ts ip a n w = (Normal (Some successResult), w1)).
Proof.
  destruct w as [fs en dr cl lg se tx co tr].
  run_io.
  destruct fs as [|[e1|] fs]; cbn -[Nat.leb poolMax classify String.eqb];
    try solve [leaf_caught];
    (destruct (poolMax <=? co)%nat eqn:Hroom;
     cbn -[Nat.leb poolMax classify String.eqb]; [solve [leaf_caught]|]).
  all: rewrite ?app_nil_r.
  all: try (destruct fs as [|[e2|] fs]; cbn -[Nat.leb poolMax classify String.eqb]).
  all: try (destruct fs as [|[e3|] fs]; cbn -[Nat.leb poolMax classify String.eqb]).
  all: rewrite ?app_nil_r.
  all: try (destruct (existsb (fun r => request_id r =? rid) lg) eqn:Htaken;
            cbn -[Nat.leb poolMax classify String.eqb]).
  all: try (destruct fs as [|[e4|] fs]; cbn -[Nat.leb poolMax classify String.eqb]).
  all: try (destruct fs as [|[e5|] fs]; cbn -[Nat.leb poolMax classify String.eqb]).
  all: try solve [leaf_caught].
  all: solve [right; eexists; reflexivity].
Qed.

Lemma is_collision_differs (r : DbResult) :
  is_collision r = false -> r <> collisionResult.
Proof. intros H ->. discriminate. Qed.

(** The classification of an error that does not read as a collision:
    it is retried after a sleep or returned under its own label, and
    that label is not the collision label. *)
Lemma classify_not_collision (e : JsError) (a n : nat) (w : World) :
  reads_as_collision e = false ->
  exists o w1,
    classify e a n w = (Normal o, w1)
    /\ faults w1 = faults w
    /\ request_logs w1 = request_logs w
    /\ match o with
       | Some r => is_collision r = false
       | None => True
       end.
Proof.
  unfold reads_as_collision. intros H.
  apply orb_false_iff in H. destruct H as [Hd Hl].
  unfold classify. rewrite Hd.
  destruct (isTransientError e && (a <? n - 1)%nat).
  - eexists None, _. split; [reflexivity|]. repeat split.
  - exists (Some (failureResult e)), w. split; [reflexivity|].
    split; [reflexivity|]. split; [reflexivity|].
    unfold is_collision, failureResult, js_or.
    cbn [res_success res_error negb andb].
    destruct (truthy (err_code e)); [exact Hl | reflexivity].
Qed.

Lemma injected_not_collision (e : JsError) (w : World) :
  no_collision_injected w = true ->
  In (Some e) (faults w) ->
  reads_as_collision e = false.
Proof.
  unfold no_collision_injected. intros H Hin.
  apply negb_true_iff in H.
  destruct (reads_as_collision e) eqn:He; [|reflexivity].
  assert (Hex : existsb (fun f => match f with
                                  | Some e => reads_as_collision e
                                  | None => false
                                  end) (faults w) = true)
    by (apply existsb_exists; exists (Some e); split; assumption).
  congruence.
Qed.

Lemma no_collision_injected_later (pre : list (option JsError))
    (w w1 : World) :
  faults w = pre ++ faults w1 ->
  no_collision_injected w = true ->
  no_collision_injected w1 = true.
Proof.
  unfold no_collision_injected. intros Hf H.
  rewrite Hf, existsb_app in H.
  apply negb_true_iff in H. apply orb_false_iff in H.
  apply negb_true_iff. apply H.
Qed.

(** In a world where the insert cannot meet a unique-constraint
    violation, a pass never returns a collision, and if it asks for
    another pass the world is still such a world. *)
Lemma pass_not_collision (rid host : string) (ts : Z) (ip : string)
    (a n : nat) (w : World) :
  collision_free rid w = true ->
  exists o w1,
    pass rid host ts ip a n w = (Normal o, w1)
    /\ match o with
       | Some r => is_collision r = false
       | None => collision_free rid w1 = true
       end.
Proof.
  unfold collision_free. intros H.
  apply andb_true_iff in H. destruct H as [Hinj Hfree].
  apply negb_true_iff in Hfree.
  destruct (pass_caught rid host ts ip a n w)
    as [(e & w1 & Hp & Hlogs & (pre & Hpre) & Hsrc) | (w1 & Hp)].
  - assert (He : reads_as_collision e = false).
    { destruct Hsrc as [Hin | [-> | (_ & Htaken)]].
      - apply (injected_not_collision e w); assumption.
      - reflexivity.
      - congruence. }
    destruct (classify_not_collision e a n w1 He)
      as (o & w2 & Hc & Hf2 & Hl2 & Ho).
    exists o, w2. rewrite Hp. split; [exact Hc|].
    destruct o as [r|]; [exact Ho|].
    apply andb_true_iff. split.
    + apply (no_collision_injected_later pre w); [|exact Hinj].
      rewrite Hf2. exact Hpre.
    + apply negb_true_iff. unfold in_logs in *.
      rewrite Hl2, Hlogs. exact Hfree.
  - exists (Some successResult), w1. split; [exact Hp | reflexivity].
Qed.

Lemma retry_loop_not_collision (rid host : string) (ts : Z) (ip : string)
    (n : nat) :
  forall (left a : nat) (w : World),
  collision_free rid w = true ->
  exists r w',
    retry_loop left rid host ts ip a n w = (Normal r, w')
    /\ is_collision r = false.
Proof.
  induction left as [|left IH]; intros a w Hfree.
  - exists maxRetriesResult, w. split; reflexivity.
  - cbn [retry_loop]. unfold bind.
    destruct (pass_not_collision rid host ts ip a n w Hfree)
      as (o & w1 & Hp & Ho).
    rewrite Hp. destruct o as [r|].
    + exists r, w1. split; [reflexivity | exact Ho].
    + apply IH. exact Ho.
Qed.

(** Whatever else goes wrong (transient errors, permanent errors, a
    drained pool, retries used up), a call of the gateway whose insert
    meets no unique-constraint violation does not return a collision. *)
Lemma gateway_not_collision (rid host : string) (ts : Z) (ip : string)
    (n : nat) (w : World) :
  collision_free rid w = true ->
  exists r w',
    writeRequestToDatabase rid host ts ip n w = (Normal r, w')
    /\ is_collision r = false
    /\ r <> collisionResult.
Proof.
  intros Hfree.
  unfold writeRequestToDatabase, bind, effect.
  destruct (retry_loop_not_collision rid host ts ip n n 0
              (emit (EvGateway rid host ts ip) w) Hfree)
    as (r & w' & Hl & Hr).
  exists r, w'. rewrite Hl. split; [reflexivity|].
  split; [exact Hr | apply is_collision_differs; exact Hr].
Qed.

(** [handleRequest] when the first write collides, with the second call
    of the gateway and its result. *)
Lemma handleRequest_second_call (host : string) (req : IncomingMessage)
    (f rb : option JsError) (rest : list (option JsError)) (w : World) :
  let rid1 := entropy w (drawn w) in
  let rid2 := entropy w (S (drawn w)) in
  let ts := clock w in
  let ip := clientIpOf req in
  let w1 := after_failing AtInsert rest
              (EvGateway rid1 host ts ip
               :: failing_events AtInsert rid1 host ts ip) (after_uuid w) in
  faults w = [None; None; f; rb] ++ rest ->
  (checked_out w < poolMax)%nat ->
  unique_violation_on_insert f rid1 w ->
  exists r2 w2 evs2 w',
    writeRequestToDatabase rid2 host ts ip defaultRetries (after_uuid w1)
    = (Normal r2, w2)
    /\ forallb db_event evs2 = true
    /\ write_outcome rid2 host ts ip w1 w2 r2
    /\ handleRequest host req w = (Normal tt, w')
    /\ trace w'
       = trace w
         ++ EvRandomUUID rid1 :: EvGateway rid1 host ts ip
            :: failing_events AtInsert rid1 host ts ip
         ++ EvRandomUUID rid2 :: EvGateway rid2 host ts ip :: evs2
         ++ response_events host rid2 ts ip r2
    /\ request_logs w' = request_logs w2.
Proof.
  intros rid1 rid2 ts ip w1 Hf Hroom Hviol.
  pose proof (gateway_collision f rb rest rid1 host ts ip (after_uuid w)
                Hf Hroom Hviol) as Hg.
  destruct (handleRequest_cases host req w)
    as (r1 & w1' & evs1 & Hw1 & Hrun1 & _ & Hcases).
  fold rid1 rid2 ts ip in Hw1, Hrun1, Hcases.
  rewrite Hg in Hw1. injection Hw1 as <- <-.
  destruct Hrun1 as (T1 & _).
  assert (Hevs1 : evs1 = failing_events AtInsert rid1 host ts ip).
  { unfold after_failing, after_uuid, emit in T1. cbn in T1.
    rewrite <- !app_assoc in T1. cbn [app] in T1.
    apply app_inv_head in T1. injection T1 as T1. symmetry. exact T1. }
  destruct Hcases
    as [(Hcol & _)
       | (_ & r2 & w2 & evs2 & w' & Hw2 & D2 & Hout2 & Hh & Ht & Hl & _)].
  - cbn in Hcol. discriminate.
  - exists r2, w2, evs2, w'. rewrite <- Hevs1.
    repeat split; assumption.
Qed.

Lemma failure_not_collision (e : JsError) :
  err_code e <> Some "UUID_COLLISION" -> failureResult e <> collisionResult.
Proof.
  intros Hc Heq. apply Hc.
  assert (Hl : res_error (failureResult e) = Some "UUID_COLLISION")
    by (rewrite Heq; reflexivity).
  unfold failureResult, js_or in Hl. cbn in Hl.
  destruct (truthy (err_code e)); [exact Hl | discriminate].
Qed.

(** C1: when the insert of the first write meets a unique-constraint
    violation, [writeRequestToDatabase] returns the collision result
    after that single pass, without sleeping; the same holds at whatever
    pass of the loop the violation occurs.  The collision result is
    kept for that case: it is the one result the handler's test accepts,
    it differs from success, from the safety-net result and from the
    result of any error whose code is not the label UUID_COLLISION
    itself, and a call whose insert meets no unique-constraint violation
    never returns it, whatever else fails and whatever the retry budget.
    [handleRequest] then draws a second identifier and calls the gateway
    once more, with that identifier: two calls in all, and the response
    reports the second identifier with the result of the second call,
    whatever that result is. *)
Theorem collision_retried_exactly_once (host : string)
    (req : IncomingMessage) (f rb : option JsError)
    (rest : list (option JsError)) (w : World) :
  let rid1 := entropy w (drawn w) in
  let rid2 := entropy w (S (drawn w)) in
  let ts := clock w in
  let ip := clientIpOf req in
  let first := EvGateway rid1 host ts ip
               :: failing_events AtInsert rid1 host ts ip in
  let w1 := after_failing AtInsert rest first (after_uuid w) in
  faults w = [None; None; f; rb] ++ rest ->
  (checked_out w < poolMax)%nat ->
  unique_violation_on_insert f rid1 w ->
  writeRequestToDatabase rid1 host ts ip defaultRetries (after_uuid w)
  = (Normal collisionResult, w1)
  /\ passes first = 1%nat
  /\ slept first = []
  /\ clock w1 = clock w
  /\ (forall a n,
        pass rid1 host ts ip a n (after_uuid w)
        = (Normal (Some collisionResult),
           after_failing AtInsert rest
             (failing_events AtInsert rid1 host ts ip) (after_uuid w)))
  /\ is_collision collisionResult = true
  /\ collisionResult <> successResult
  /\ collisionResult <> maxRetriesResult
  /\ (forall e, err_code e <> Some "UUID_COLLISION" ->
                failureResult e <> collisionResult)
  /\ (forall rid' host' ts' ip' n w0,
        collision_free rid' w0 = true ->
        exists r w0',
          writeRequestToDatabase rid' host' ts' ip' n w0 = (Normal r, w0')
          /\ is_collision r = false
          /\ r <> collisionResult)
  /\ exists r2 w2 w' evs,
       writeRequestToDatabase rid2 host ts ip defaultRetries (after_uuid w1)
       = (Normal r2, w2)
       /\ handleRequest host req w = (Normal tt, w')
       /\ trace w' = trace w ++ evs
       /\ generated evs = [rid1; rid2]
       /\ gateway_calls evs = [(rid1, host, ts, ip); (rid2, host, ts, ip)]
       /\ length (gateway_calls evs) = 2%nat
       /\ statuses evs = [200%Z]
       /\ bodies evs = [JsonBody 2 (responseData host rid2 ts ip r2)]
       /\ request_logs w' = request_logs w2.
Proof.
  intros rid1 rid2 ts ip first w1 Hf Hroom Hviol.
  split; [apply (gateway_collision f rb rest); assumption|].
  split; [reflexivity|]. split; [reflexivity|]. split; [reflexivity|].
  split; [intros a n; apply (pass_collision f rb rest); assumption|].
  split; [reflexivity|].
  split; [discriminate|]. split; [discriminate|].
  split; [exact failure_not_collision|].
  split; [intros rid' host' ts' ip' n w0; apply gateway_not_collision|].
  destruct (handleRequest_second_call host req f rb rest w Hf Hroom Hviol)
    as (r2 & w2 & evs2 & w' & Hw2 & D2 & _ & Hh & Ht & Hl).
  fold rid1 rid2 ts ip in Hw2, Ht. fold first in Hw2. fold w1 in Hw2.
  exists r2, w2, w'. eexists.
  split; [exact Hw2|]. split; [exact Hh|]. split; [exact Ht|].
  split; [read_trace; reflexivity|].
  split; [read_trace; reflexivity|].
  split; [read_trace; reflexivity|].
  split; [read_trace; reflexivity|].
  split; [read_trace; reflexivity | exact Hl].
Qed.

(** C8, as stated, fails: with a random source that returns the same
    value twice and a table that already holds it, the first write
    collides and the second gateway call carries the very same
    identifier. *)
Lemma regenerated_identifier_can_repeat :
  let w := colliding_world in
  let req := mkRequest "GET" (Some "/") None (Some "203.0.113.9") in
  unique_violation_on_insert None (entropy w (drawn w)) w
  /\ map call_id (gateway_calls (trace (snd (handleRequest host0 req w))))
     = [uuid0; uuid0]
  /\ ~ (forall c1 c2,
          gateway_calls (trace (snd (handleRequest host0 req w))) = [c1; c2] ->
          call_id c2 <> call_id c1).
Proof.
  cbv zeta. split; [reflexivity|].
  assert (H : gateway_calls
                (trace (snd (handleRequest host0
                               (mkRequest "GET" (Some "/") None
                                          (Some "203.0.113.9"))
                               colliding_world)))
              = [(uuid0, host0, 1793549296789%Z, "203.0.113.9");
                 (uuid0, host0, 1793549296789%Z, "203.0.113.9")])
    by (vm_compute; reflexivity).
  split.
  - rewrite H. reflexivity.
  - intros Hclaim. apply (Hclaim _ _ H). reflexivity.
Qed.

(** C8, amended: when the first write collides, the identifiers of the
    two gateway calls are the two values drawn from the random source, in
    that order; the second differs from the first exactly when the two
    draws differ, which [handleRequest] does not check. *)
Theorem regenerated_identifier_is_next_draw (host : string)
    (req : IncomingMessage) (f rb : option JsError)
    (rest : list (option JsError)) (w : World) :
  faults w = [None; None; f; rb] ++ rest ->
  (checked_out w < poolMax)%nat ->
  unique_violation_on_insert f (entropy w (drawn w)) w ->
  exists w' evs c1 c2,
    handleRequest host req w = (Normal tt, w')
    /\ trace w' = trace w ++ evs
    /\ gateway_calls evs = [c1; c2]
    /\ call_id c1 = entropy w (drawn w)
    /\ call_id c2 = entropy w (S (drawn w))
    /\ (call_id c2 <> call_id c1
        <-> entropy w (S (drawn w)) <> entropy w (drawn w)).
Proof.
  intros Hf Hroom Hviol.
  destruct (handleRequest_on_collision host req f rb rest w Hf Hroom Hviol)
    as (r2 & evs2 & w' & Hh & D2 & Ht).
  exists w'. eexists. eexists. eexists.
  split; [exact Hh|]. split; [exact Ht|].
  split; [read_trace; reflexivity|].
  split; [reflexivity|]. split; [reflexivity|]. cbn. tauto.
Qed.

(** ** The client address *)

(** C10, as stated, fails: a request whose x-forwarded-for header is
    there but empty is recorded and answered with the remote address of
    the connection, not with the value of the header. *)
Lemma empty_forwarded_header_is_skipped :
  let req := mkRequest "GET" (Some "/") (Some "") (Some "10.0.0.7") in
  let w' := snd (server host0 req (fresh_world [])) in
  ~ (forall v, req_x_forwarded_for req = Some v -> clientIpOf req = v)
  /\ clientIpOf req = "10.0.0.7"
  /\ map client_ip (request_logs w') = ["10.0.0.7"]
  /\ map (fun b => match b with
                   | JsonBody _ o => field "client_ip" o
                   | EmptyBody => None
                   end) (bodies (trace w'))
     = [Some "10.0.0.7"].
Proof.
  cbv zeta. split.
  - intros H. specialize (H "" eq_refl). vm_compute in H. discriminate.
  - vm_compute. repeat split; reflexivity.
Qed.

Lemma clientIpOf_cases (req : IncomingMessage) :
  clientIpOf req
  = match nonempty (req_x_forwarded_for req) with
    | Some v => v
    | None =>
        match nonempty (req_remoteAddress req) with
        | Some r => r
        | None => "unknown"
        end
    end.
Proof.
  unfold clientIpOf, or_else, js_or, truthy, nonempty.
  destruct (req_x_forwarded_for req) as [v|];
    [destruct (v =? "") eqn:Hv|]; cbn; rewrite ?Hv;
    try reflexivity;
    destruct (req_remoteAddress req) as [r|];
    try destruct (r =? ""); reflexivity.
Qed.

(** C10, amended: the client address is the x-forwarded-for header when
    it is there and not empty, otherwise the remote address of the
    connection when it is there and not empty, otherwise "unknown".  For
    every request and whatever the database does, the timestamp is the
    clock as the handler starts and both are read once: every call of
    the gateway is given that timestamp and that address, also the
    second call after a collision, which starts in the world the first
    call left behind (backoff delays of the first call included) and
    differs from the first in the identifier alone; the response reports
    them, and the row written, if any, records them. *)
Theorem client_address_and_timestamp_reused (host : string)
    (req : IncomingMessage) (w : World) :
  let d1 := entropy w (drawn w) in
  let d2 := entropy w (S (drawn w)) in
  let ts := clock w in
  let ip := clientIpOf req in
  (forall v, req_x_forwarded_for req = Some v -> v <> "" -> ip = v)
  /\ (forall r, nonempty (req_x_forwarded_for req) = None ->
                req_remoteAddress req = Some r -> r <> "" -> ip = r)
  /\ (nonempty (req_x_forwarded_for req) = None ->
      nonempty (req_remoteAddress req) = None ->
      ip = "unknown")
  /\ exists w' evs r1 w1 rid r,
       handleRequest host req w = (Normal tt, w')
       /\ trace w' = trace w ++ evs
       /\ writeRequestToDatabase d1 host ts ip defaultRetries (after_uuid w)
          = (Normal r1, w1)
       /\ (if is_collision r1
           then rid = d2
                /\ fst (writeRequestToDatabase d2 host ts ip defaultRetries
                                               (after_uuid w1))
                   = Normal r
                /\ gateway_calls evs = [(d1, host, ts, ip); (d2, host, ts, ip)]
           else rid = d1
                /\ r = r1
                /\ gateway_calls evs = [(d1, host, ts, ip)])
       /\ bodies evs = [JsonBody 2 (responseData host rid ts ip r)]
       /\ field "timestamp" (responseData host rid ts ip r)
          = Some (toISOString ts)
       /\ field "client_ip" (responseData host rid ts ip r) = Some ip
       /\ (request_logs w' = request_logs w
           \/ exists k,
               request_logs w'
               = request_logs w ++ [mkEntry k rid host ts ip]).
Proof.
  intros d1 d2 ts ip.
  split; [|split; [|split]].
  - intros v Hv Hne. unfold ip. rewrite clientIpOf_cases, Hv. cbn.
    apply String.eqb_neq in Hne. rewrite Hne. reflexivity.
  - intros r Hx Hr Hne. unfold ip. rewrite clientIpOf_cases, Hx, Hr. cbn.
    apply String.eqb_neq in Hne. rewrite Hne. reflexivity.
  - intros Hx Hr. unfold ip. rewrite clientIpOf_cases, Hx, Hr. reflexivity.
  - destruct (handleRequest_cases host req w)
      as (r1 & w1 & evs1 & Hw1 & (_ & D1 & _) & Hout1 & Hcases).
    fold d1 d2 ts ip in Hw1, Hout1, Hcases.
    destruct Hcases
      as [(Hcol & w' & Hh & Ht & Hl & _)
         | (Hcol & r2 & w2 & evs2 & w' & Hw2 & D2 & Hout2 & Hh & Ht & Hl & _)].
    + exists w'. eexists. exists r1, w1, d1, r1.
      split; [exact Hh|]. split; [exact Ht|]. split; [exact Hw1|].
      rewrite Hcol.
      split; [repeat split; read_trace; reflexivity|].
      split; [read_trace; reflexivity|].
      split; [reflexivity|]. split; [reflexivity|].
      rewrite Hl.
      destruct Hout1 as [(_ & k & Hk) | (_ & _ & Hk)];
        [right; exists k; exact Hk | left; exact Hk].
    + exists w'. eexists. exists r1, w1, d2, r2.
      split; [exact Hh|]. split; [exact Ht|]. split; [exact Hw1|].
      rewrite Hcol.
      split; [split; [reflexivity|]; split;
              [rewrite Hw2; reflexivity | read_trace; reflexivity]|].
      split; [read_trace; reflexivity|].
      split; [reflexivity|]. split; [reflexivity|].
      assert (Hsame : request_logs w1 = request_logs w).
      { destruct Hout1 as [(-> & _) | (_ & _ & Hk)];
          [cbn in Hcol; discriminate | exact Hk]. }
      rewrite Hl, <- Hsame.
      destruct Hout2 as [(_ & k & Hk) | (_ & _ & Hk)];
        [right; exists k; exact Hk | left; exact Hk].
Qed.

(** ** The log-write path of the dispatcher *)

Lemma server_routes_log_write (host : string) (req : IncomingMessage)
    (w w' : World) :
  req_pathname req = Some "/" \/ req_pathname req = Some "/api/request" ->
  req_method req = "GET" \/ req_method req = "POST" ->
  handleRequest host req w = (Normal tt, w') ->
  server host req w = (Normal tt, w').
Proof.
  intros Hp Hm Hh.
  unfold server, bind, try_block, URL_pathname, ret.
  destruct Hp as [Hp | Hp], Hm as [Hm | Hm]; rewrite Hp, Hm;
    cbn -[handleRequest]; rewrite Hh; reflexivity.
Qed.

Lemma truthy_some (v : option string) :
  truthy v = true -> exists s, v = Some s.
Proof.
  destruct v as [s|]; cbn; [eauto | discriminate].
Qed.

Lemma responseData_fields (host rid : string) (ts : Z) (ip : string)
    (r : DbResult) :
  let o := responseData host rid ts ip r in
  field "request_id" o = Some rid
  /\ field "server_hostname" o = Some host
  /\ field "timestamp" o = Some (toISOString ts)
  /\ field "client_ip" o = Some ip
  /\ field "db_status" o = Some (if res_success r then "success" else "failed")
  /\ field "db_error" o
     = if truthy (res_error r) then js_or (res_message r) (res_error r)
       else None.
Proof.
  cbv zeta. repeat split.
  unfold responseData. cbn.
  destruct (truthy (res_error r)); [|reflexivity].
  destruct (js_or (res_message r) (res_error r)); reflexivity.
Qed.

(** What the body says about the write, given what the write did. *)
Lemma reported_outcome (host rid : string) (ts : Z) (ip : string)
    (r : DbResult) (w w' : World) :
  write_outcome rid host ts ip w w' r ->
  let o := responseData host rid ts ip r in
  (field "db_status" o = Some "success"
   /\ field "db_error" o = None
   /\ exists k, request_logs w' = request_logs w ++ [mkEntry k rid host ts ip])
  \/ (field "db_status" o = Some "failed"
      /\ (exists msg, field "db_error" o = Some msg)
      /\ request_logs w' = request_logs w).
Proof.
  intros Hout o.
  destruct (responseData_fields host rid ts ip r)
    as (_ & _ & _ & _ & Hs & He).
  fold o in Hs, He.
  destruct Hout as [(-> & k & Hk) | (Hfail & Hlabel & Hlogs)].
  - left. split; [exact Hs|]. split; [exact He|]. exists k. exact Hk.
  - right. rewrite Hfail in Hs. rewrite Hlabel in He.
    split; [exact Hs|]. split; [|exact Hlogs].
    rewrite He. unfold js_or.
    destruct (truthy (res_message r)) eqn:Hm.
    + destruct (truthy_some _ Hm) as (s & ->). eauto.
    + destruct (truthy_some _ Hlabel) as (s & ->). eauto.
Qed.

Lemma collision_is_failure (rid host : string) (ts : Z) (ip : string)
    (w w' : World) (r : DbResult) :
  is_collision r = true ->
  write_outcome rid host ts ip w w' r ->
  request_logs w' = request_logs w.
Proof.
  intros Hc [(-> & _) | (_ & _ & H)]; [cbn in Hc; discriminate | exact H].
Qed.

(** C3: a GET or POST on / or /api/request is always answered with
    status 200, whatever the database did.  The body is a JSON object
    with request_id, server_hostname, timestamp and client_ip; its
    db_status is "success" and it has no db_error when the row of that
    request_id was committed, and its db_status is "failed" and it has a
    db_error when nothing was committed. *)
Theorem log_write_answers_200 (host : string) (req : IncomingMessage)
    (w : World) :
  req_pathname req = Some "/" \/ req_pathname req = Some "/api/request" ->
  req_method req = "GET" \/ req_method req = "POST" ->
  exists w' evs rid o,
    server host req w = (Normal tt, w')
    /\ trace w' = trace w ++ evs
    /\ statuses evs = [200%Z]
    /\ bodies evs = [JsonBody 2 o]
    /\ field "request_id" o = Some rid
    /\ field "server_hostname" o = Some host
    /\ field "timestamp" o = Some (toISOString (clock w))
    /\ field "client_ip" o = Some (clientIpOf req)
    /\ ((field "db_status" o = Some "success"
         /\ field "db_error" o = None
         /\ exists k,
             request_logs w'
             = request_logs w
               ++ [mkEntry k rid host (clock w) (clientIpOf req)])
        \/ (field "db_status" o = Some "failed"
            /\ (exists msg, field "db_error" o = Some msg)
            /\ request_logs w' = request_logs w)).
Proof.
  intros Hp Hm.
  destruct (handleRequest_cases host req w)
    as (r1 & w1 & evs1 & _ & (_ & D1 & _) & Hout1 & Hcases).
  destruct Hcases
    as [(_ & w' & Hh & Ht & Hlogs & _)
       | (Hcol & r2 & w2 & evs2 & w' & _ & D2 & Hout2 & Hh & Ht & Hlogs & _)].
  - exists w'. eexists. eexists. eexists.
    split; [exact (server_routes_log_write host req w w' Hp Hm Hh)|].
    split; [exact Ht|].
    split; [read_trace; reflexivity|].
    split; [read_trace; reflexivity|].
    destruct (responseData_fields host (entropy w (drawn w)) (clock w)
                (clientIpOf req) r1) as (F1 & F2 & F3 & F4 & _).
    split; [exact F1|]. split; [exact F2|]. split; [exact F3|].
    split; [exact F4|].
    rewrite Hlogs. apply reported_outcome. exact Hout1.
  - exists w'. eexists. eexists. eexists.
    split; [exact (server_routes_log_write host req w w' Hp Hm Hh)|].
    split; [exact Ht|].
    split; [read_trace; reflexivity|].
    split; [read_trace; reflexivity|].
    destruct (responseData_fields host (entropy w (S (drawn w))) (clock w)
                (clientIpOf req) r2) as (F1 & F2 & F3 & F4 & _).
    split; [exact F1|]. split; [exact F2|]. split; [exact F3|].
    split; [exact F4|].
    rewrite Hlogs.
    rewrite <- (collision_is_failure _ _ _ _ _ _ _ Hcol Hout1).
    apply reported_outcome. exact Hout2.
Qed.

(** ** The health check *)

Lemma server_routes_health (host : string) (req : IncomingMessage)
    (w : World) :
  req_pathname req = Some "/health" ->
  req_method req = "GET" ->
  handleHealthCheck host req w
  = (Normal tt, snd (handleHealthCheck host req w)) ->
  server host req w = handleHealthCheck host req w.
Proof.
  intros Hp Hm Hh.
  unfold server, bind, try_block, URL_pathname, ret.
  rewrite Hp, Hm. cbn -[handleHealthCheck]. rewrite Hh. reflexivity.
Qed.

Lemma handleHealthCheck_run (host : string) (req : IncomingMessage)
    (w : World) :
  exists w' evs,
    handleHealthCheck host req w = (Normal tt, w')
    /\ trace w' = trace w ++ evs
    /\ statuses evs = [if probe_succeeds w then 200%Z else 503%Z]
    /\ bodies evs = [JsonBody 2 (healthData host (clock w) (probe_succeeds w))]
    /\ fst (checkDatabaseConnection w) = Normal (probe_succeeds w).
Proof.
  destruct w as [fs en dr cl lg se tx co tr].
  unfold handleHealthCheck, checkDatabaseConnection, probe_succeeds,
    new_Date, res_writeHead, res_end, healthData.
  run_io.
  destruct fs as [|[e1|] fs]; cbn -[Nat.leb poolMax];
    try (destruct (poolMax <=? co)%nat; cbn -[Nat.leb poolMax]);
    try (destruct fs as [|[e2|] fs]; cbn -[Nat.leb poolMax]).
  all: eexists; eexists; split; [reflexivity|]; cbn; tidy_trace.
  all: repeat split; reflexivity.
Qed.

(** C5: GET /health is answered with status 200 and database
    "connected" when [SELECT 1] on a pooled client comes back, and with
    status 503 and database "disconnected" when it does not.  Neither
    the handler nor the start-up check throws, and the body always
    holds status, server_hostname, timestamp and database. *)
Theorem health_check_reports_store (host : string) (req : IncomingMessage)
    (w : World) :
  req_pathname req = Some "/health" ->
  req_method req = "GET" ->
  exists w' evs,
    server host req w = (Normal tt, w')
    /\ handleHealthCheck host req w = (Normal tt, w')
    /\ trace w' = trace w ++ evs
    /\ statuses evs = [if probe_succeeds w then 200%Z else 503%Z]
    /\ bodies evs
       = [ JsonBody 2
             [ ("status", if probe_succeeds w then "healthy" else "unhealthy");
               ("server_hostname", host);
               ("timestamp", toISOString (clock w));
               ("database",
                if probe_succeeds w then "connected" else "disconnected") ] ]
    /\ fst (checkDatabaseConnection w) = Normal (probe_succeeds w).
Proof.
  intros Hp Hm.
  destruct (handleHealthCheck_run host req w)
    as (w' & evs & Hh & Ht & Hs & Hb & Hc).
  exists w', evs.
  split.
  - rewrite (server_routes_health host req w Hp Hm); [exact Hh|].
    rewrite Hh. reflexivity.
  - repeat split; assumption.
Qed.

(** ** Clients that do not come back *)

(** When [SELECT 1] fails on a client the probe has acquired, the
    [catch] block is entered with the client still checked out. *)
Lemma probe_keeps_client_on_query_failure (host : string)
    (req : IncomingMessage) (e : JsError) (rest : list (option JsError))
    (w : World) :
  faults w = None :: Some e :: rest ->
  (checked_out w < poolMax)%nat ->
  checked_out (snd (handleHealthCheck host req w)) = S (checked_out w)
  /\ checked_out (snd (checkDatabaseConnection w)) = S (checked_out w).
Proof.
  intros Hf Hroom.
  destruct w as [fs en dr cl lg se tx co tr].
  cbn in Hf, Hroom. subst fs. apply pool_has_room in Hroom.
  unfold handleHealthCheck, checkDatabaseConnection, new_Date,
    res_writeHead, res_end.
  run_io. rewrite Hroom. cbn. split; reflexivity.
Qed.

(** C9, evaluated where it fails: the store accepts the connection and
    then cancels [SELECT 1].  The health check answers 503 and the
    start-up check returns false, and in both the client that was taken
    from the pool is never released; the write path, given the same
    failure on its first statement, does release its client. *)
Theorem probe_leaks_client_on_query_failure :
  let w := fresh_world [None; Some queryCanceled] in
  let req := mkRequest "GET" (Some "/health") None (Some "10.0.0.7") in
  checked_out w = 0%nat
  /\ statuses (trace (snd (server host0 req w))) = [503%Z]
  /\ releases (trace (snd (server host0 req w))) = 0%nat
  /\ checked_out (snd (server host0 req w)) = 1%nat
  /\ fst (checkDatabaseConnection w) = Normal false
  /\ releases (trace (snd (checkDatabaseConnection w))) = 0%nat
  /\ checked_out (snd (checkDatabaseConnection w)) = 1%nat
  /\ releases (trace (snd (writeRequestToDatabase
                             uuid0 host0 (clock w) "10.0.0.7"
                             defaultRetries w))) = 1%nat
  /\ checked_out (snd (writeRequestToDatabase
                         uuid0 host0 (clock w) "10.0.0.7"
                         defaultRetries w)) = 0%nat.
Proof.
  cbv zeta. repeat split; vm_compute; reflexivity.
Qed.

(** ** Shutdown *)

(** C7, evaluated where it fails: SIGTERM arrives while one request
    handler is in flight.  If the handler holds no pooled client, the
    process exits in the same turn with the handler unfinished; if it
    holds one, the process exits as soon as that client is released,
    again before the handler has answered.  The server does stop
    accepting first. *)
Theorem sigterm_exits_with_handler_in_flight :
  run [SIGTERM] (mkProcess true [Idle] false false None)
  = mkProcess false [Idle] true false (Some 0%Z)
  /\ run [SIGTERM; Releases 0] (mkProcess true [Holding] false false None)
     = mkProcess false [Idle] true false (Some 0%Z)
  /\ inflight (run [SIGTERM; Accepts]
                   (mkProcess true [Holding] false false None))
     = [Holding].
Proof.
  repeat split; reflexivity.
Qed.

(** Whenever no pooled client is out, SIGTERM ends the process in the
    same turn, however many handlers are in flight. *)
Lemma sigterm_does_not_wait (p : Process) :
  exit_code p = None ->
  clients_out p = 0%nat ->
  exit_code (tick p SIGTERM) = Some 0%Z
  /\ inflight (tick p SIGTERM) = inflight p.
Proof.
  intros He Hc. unfold tick, on_SIGTERM. rewrite He.
  unfold clients_out in *. cbn. rewrite Hc. cbn. split; reflexivity.
Qed.

(** Once SIGTERM was handled no request is accepted any more. *)
Lemma sigterm_stops_accepting (p : Process) :
  listening (tick p SIGTERM) = false \/ exit_code p <> None.
Proof.
  unfold tick. destruct (exit_code p) eqn:He.
  - right. discriminate.
  - left. unfold on_SIGTERM. cbn.
    destruct (_ =? 0)%nat; reflexivity.
Qed.

(* ================================================================== *)
(** * The statements at work on concrete runs *)

Lemma room_in_empty_pool : (0 < poolMax)%nat.
Proof. unfold poolMax. lia. Defined.

Lemma collision_retried_exactly_once_witness :
  let req := mkRequest "POST" (Some "/api/request") (Some "203.0.113.9")
                       (Some "10.0.0.7") in
  let w0 := fresh_world (failing AtConnect connectionReset None
                         ++ failing AtInsert syntaxError None) in
  unique_violation_on_insert None (entropy taken_world (drawn taken_world))
                             taken_world
  /\ fst (handleRequest host0 req taken_world) = Normal tt
  /\ generated (trace (snd (handleRequest host0 req taken_world)))
     = [counting_entropy 0; counting_entropy 1]
  /\ gateway_calls (trace (snd (handleRequest host0 req taken_world)))
     = [ (counting_entropy 0, host0, 1793549296789%Z, "203.0.113.9");
         (counting_entropy 1, host0, 1793549296789%Z, "203.0.113.9") ]
  /\ collision_free uuid0 w0 = true
  /\ exists r w0',
       writeRequestToDatabase uuid0 host0 (clock w0) "203.0.113.9"
                              defaultRetries w0
       = (Normal r, w0')
       /\ is_collision r = false.
Proof.
  cbv zeta. split; [reflexivity|].
  destruct (collision_retried_exactly_once host0
              (mkRequest "POST" (Some "/api/request") (Some "203.0.113.9")
                         (Some "10.0.0.7"))
              None None [] taken_world eq_refl room_in_empty_pool eq_refl)
    as (_ & _ & _ & _ & _ & _ & _ & _ & _ & Hdist
        & r2 & w2 & w' & evs & _ & Hh & Ht & Hg & Hc & _).
  rewrite Hh. cbn [fst snd]. cbn in Ht. subst evs.
  split; [reflexivity|]. split; [exact Hg|]. split; [exact Hc|].
  split; [reflexivity|].
  destruct (Hdist uuid0 host0 1793549296789%Z "203.0.113.9" defaultRetries
              (fresh_world (failing AtConnect connectionReset None
                            ++ failing AtInsert syntaxError None))
              eq_refl)
    as (r & w0' & Hw & Hr & _).
  exists r, w0'. split; [exact Hw | exact Hr].
Defined.

Lemma transient_twice_then_success_witness :
  let w := fresh_world (failing AtInsert connectionReset None
                        ++ failing AtInsert adminShutdown None
                        ++ [None; None; None; None] ++ []) in
  isTransientError connectionReset = true
  /\ isTransientError adminShutdown = true
  /\ fst (writeRequestToDatabase uuid0 host0 (clock w) "203.0.113.9"
                                 defaultRetries w)
     = Normal successResult
  /\ clock (snd (writeRequestToDatabase uuid0 host0 (clock w) "203.0.113.9"
                                        defaultRetries w))
     = (clock w + 300)%Z.
Proof.
  cbv zeta. split; [reflexivity|]. split; [reflexivity|].
  destruct (transient_twice_then_success AtInsert AtInsert
              connectionReset adminShutdown None None []
              uuid0 host0 1793549296789%Z "203.0.113.9"
              (fresh_world (failing AtInsert connectionReset None
                            ++ failing AtInsert adminShutdown None
                            ++ [None; None; None; None] ++ []))
              eq_refl room_in_empty_pool eq_refl
              eq_refl eq_refl eq_refl eq_refl)
    as (w' & k & Hw & _ & _ & _ & Hclock & _).
  cbn [clock fresh_world]. rewrite Hw. cbn [fst snd].
  split; [reflexivity | exact Hclock].
Defined.

Lemma log_write_answers_200_witness :
  let req := mkRequest "GET" (Some "/api/request") None (Some "10.0.0.7") in
  let w := fresh_world [None; Some syntaxError] in
  fst (server host0 req w) = Normal tt
  /\ statuses (trace (snd (server host0 req w))) = [200%Z].
Proof.
  cbv zeta.
  destruct (log_write_answers_200 host0
              (mkRequest "GET" (Some "/api/request") None (Some "10.0.0.7"))
              (fresh_world [None; Some syntaxError])
              (or_intror eq_refl) (or_introl eq_refl))
    as (w' & evs & rid & o & Hs & Ht & Hst & _).
  rewrite Hs. cbn [fst snd]. cbn in Ht. subst evs.
  split; [reflexivity | exact Hst].
Defined.

Lemma transient_thrice_exhausts_retries_witness :
  let w := fresh_world (failing AtInsert connectionReset None
                        ++ failing AtConnect adminShutdown None
                        ++ failing AtCommit connectionReset
                                   (Some connectionReset)
                        ++ []) in
  fst (writeRequestToDatabase uuid0 host0 (clock w) "203.0.113.9"
                              defaultRetries w)
  = Normal (mkResult false (Some "ECONNRESET") (Some "read ECONNRESET"))
  /\ request_logs (snd (writeRequestToDatabase uuid0 host0 (clock w)
                                               "203.0.113.9"
                                               defaultRetries w))
     = [].
Proof.
  cbv zeta.
  destruct (transient_thrice_exhausts_retries AtInsert AtConnect AtCommit
              connectionReset adminShutdown connectionReset
              None None (Some connectionReset) []
              uuid0 host0 1793549296789%Z "203.0.113.9"
              (fresh_world (failing AtInsert connectionReset None
                            ++ failing AtConnect adminShutdown None
                            ++ failing AtCommit connectionReset
                                       (Some connectionReset)
                            ++ []))
              eq_refl room_in_empty_pool (fun _ => eq_refl)
              eq_refl eq_refl eq_refl eq_refl eq_refl eq_refl)
    as (w' & Hw & _ & _ & _ & _ & _ & _ & _ & _ & Hlogs & _).
  cbn [clock fresh_world]. rewrite Hw. cbn [fst snd].
  split; [reflexivity | exact Hlogs].
Defined.

Lemma health_check_reports_store_witness :
  let req := mkRequest "GET" (Some "/health") None (Some "10.0.0.7") in
  statuses (trace (snd (server host0 req (fresh_world [])))) = [200%Z]
  /\ statuses (trace (snd (server host0 req
                             (fresh_world [Some connectionReset]))))
     = [503%Z].
Proof.
  cbv zeta. split.
  - destruct (health_check_reports_store host0
                (mkRequest "GET" (Some "/health") None (Some "10.0.0.7"))
                (fresh_world []) eq_refl eq_refl)
      as (w' & evs & Hs & _ & Ht & Hst & _).
    rewrite Hs. cbn [snd]. cbn in Ht. subst evs. exact Hst.
  - destruct (health_check_reports_store host0
                (mkRequest "GET" (Some "/health") None (Some "10.0.0.7"))
                (fresh_world [Some connectionReset]) eq_refl eq_refl)
      as (w' & evs & Hs & _ & Ht & Hst & _).
    rewrite Hs. cbn [snd]. cbn in Ht. subst evs. exact Hst.
Defined.

Lemma permanent_error_not_retried_witness :
  let w := fresh_world (failing AtInsert syntaxError None ++ []) in
  isDuplicateKey syntaxError = false
  /\ isTransientError syntaxError = false
  /\ fst (writeRequestToDatabase uuid0 host0 (clock w) "203.0.113.9"
                                 defaultRetries w)
     = Normal (mkResult false (Some "42601")
                        (Some "syntax error at or near VALUES"))
  /\ passes (trace (snd (writeRequestToDatabase uuid0 host0 (clock w)
                                                "203.0.113.9"
                                                defaultRetries w)))
     = 1%nat.
Proof.
  cbv zeta. split; [reflexivity|]. split; [reflexivity|].
  destruct (permanent_error_not_retried AtInsert syntaxError None []
              uuid0 host0 1793549296789%Z "203.0.113.9" defaultRetries
              (fresh_world (failing AtInsert syntaxError None ++ []))
              (Nat.lt_0_succ 2) eq_refl room_in_empty_pool
              (fun _ => eq_refl) eq_refl eq_refl)
    as (Hw & Hp & _).
  cbn [clock fresh_world]. rewrite Hw. cbn [fst snd].
  split; [reflexivity | exact Hp].
Defined.

Lemma regenerated_identifier_is_next_draw_witness :
  let req := mkRequest "GET" (Some "/") None (Some "10.0.0.7") in
  map call_id (gateway_calls (trace (snd (handleRequest host0 req taken_world))))
  = [counting_entropy 0; counting_entropy 1].
Proof.
  cbv zeta.
  destruct (regenerated_identifier_is_next_draw host0
              (mkRequest "GET" (Some "/") None (Some "10.0.0.7"))
              None None [] taken_world eq_refl room_in_empty_pool eq_refl)
    as (w' & evs & c1 & c2 & Hh & Ht & Hg & H1 & H2 & _).
  rewrite Hh. cbn [snd]. cbn in Ht. subst evs.
  rewrite Hg. cbn [map]. rewrite H1, H2. reflexivity.
Defined.

Lemma client_address_and_timestamp_reused_witness :
  let req := mkRequest "GET" (Some "/") (Some "203.0.113.9")
                       (Some "10.0.0.7") in
  let w := set_faults (failing AtInsert connectionReset None
                       ++ [None; None; None; None]
                       ++ [None; None; None; None]) taken_world in
  clientIpOf req = "203.0.113.9"
  /\ slept (trace (snd (handleRequest host0 req w))) = [100%Z]
  /\ clock (after_uuid
              (snd (writeRequestToDatabase (counting_entropy 0) host0
                      1793549296789%Z "203.0.113.9" defaultRetries
                      (after_uuid w))))
     = 1793549296889%Z
  /\ gateway_calls (trace (snd (handleRequest host0 req w)))
     = [ (counting_entropy 0, host0, 1793549296789%Z, "203.0.113.9");
         (counting_entropy 1, host0, 1793549296789%Z, "203.0.113.9") ].
Proof.
  cbv zeta.
  destruct (client_address_and_timestamp_reused host0
              (mkRequest "GET" (Some "/") (Some "203.0.113.9")
                         (Some "10.0.0.7"))
              (set_faults (failing AtInsert connectionReset None
                           ++ [None; None; None; None]
                           ++ [None; None; None; None]) taken_world))
    as (Hx & _ & _ & w' & evs & r1 & w1 & rid & r
        & Hh & Ht & Hw1 & Hcase & _).
  split; [apply (Hx "203.0.113.9" eq_refl); discriminate|].
  split; [vm_compute; reflexivity|].
  split; [vm_compute; reflexivity|].
  rewrite Hh. cbn [snd]. cbn in Ht. subst evs.
  assert (Hcol : is_collision r1 = true).
  { vm_compute in Hw1. injection Hw1 as <- _. reflexivity. }
  rewrite Hcol in Hcase. destruct Hcase as (_ & _ & Hg). exact Hg.
Defined.

(* ================================================================== *)
(** * Further properties of the server *)

(** ** The dispatcher, branch by branch *)

Lemma handleRequest_returns (host : string) (req : IncomingMessage)
    (w : World) :
  handleRequest host req w = (Normal tt, snd (handleRequest host req w)).
Proof.
  destruct (handleRequest_cases host req w)
    as (r1 & w1 & evs1 & _ & _ & _ & Hcases).
  destruct Hcases
    as [(_ & w' & Hh & _) | (_ & r2 & w2 & evs2 & w' & _ & _ & _ & Hh & _)];
    rewrite Hh; reflexivity.
Qed.

Lemma handleHealthCheck_returns (host : string) (req : IncomingMessage)
    (w : World) :
  handleHealthCheck host req w
  = (Normal tt, snd (handleHealthCheck host req w)).
Proof.
  destruct (handleHealthCheck_run host req w) as (w' & evs & Hh & _).
  rewrite Hh. reflexivity.
Qed.

(** What the listener does, by the branch the request ends in. *)
Lemma server_dispatch (host : string) (req : IncomingMessage) (w : World) :
  server host req w
  = match route req with
    | RouteInvalid =>
        (Normal tt,
         respond 500 [("Content-Type", "application/json")]
                 (JsonBody 0 [("error", "Internal server error");
                              ("message", "Invalid URL")]) w)
    | RoutePreflight => (Normal tt, respond 200 corsHeaders EmptyBody w)
    | RouteHealth => handleHealthCheck host req w
    | RouteLogWrite => handleRequest host req w
    | RouteNotFound =>
        (Normal tt,
         respond 404 [("Content-Type", "application/json")]
                 (JsonBody 0 [("error", "Not found")]) w)
    end.
Proof.
  unfold server, route, bind, try_block, URL_pathname, ret, throw.
  destruct (req_pathname req) as [path|]; [|reflexivity].
  destruct (req_method req =? "OPTIONS"); [reflexivity|].
  destruct ((path =? "/health") && (req_method req =? "GET")).
  - rewrite (handleHealthCheck_returns host req w). reflexivity.
  - destruct (((path =? "/") || (path =? "/api/request"))
              && ((req_method req =? "GET") || (req_method req =? "POST"))).
    + rewrite (handleRequest_returns host req w). reflexivity.
    + reflexivity.
Qed.

Lemma handleRequest_responds (host : string) (req : IncomingMessage)
    (w : World) :
  exists w' evs o,
    handleRequest host req w = (Normal tt, w')
    /\ trace w' = trace w ++ evs
    /\ statuses evs = [200%Z]
    /\ bodies evs = [JsonBody 2 o]
    /\ checked_out w' = checked_out w.
Proof.
  destruct (handleRequest_cases host req w)
    as (r1 & w1 & evs1 & _ & (_ & D1 & _) & _ & Hcases).
  destruct Hcases
    as [(_ & w' & Hh & Ht & _ & Hc)
       | (_ & r2 & w2 & evs2 & w' & _ & D2 & _ & Hh & Ht & _ & Hc)].
  - exists w'. eexists. eexists.
    split; [exact Hh|]. split; [exact Ht|].
    split; [read_trace; reflexivity|].
    split; [read_trace; reflexivity | exact Hc].
  - exists w'. eexists. eexists.
    split; [exact Hh|]. split; [exact Ht|].
    split; [read_trace; reflexivity|].
    split; [read_trace; reflexivity | exact Hc].
Qed.

(** X1: the listener never throws and answers every request exactly
    once, whatever the request and whatever the database does.  The
    status is 500 only when the URL cannot be parsed, 404 only when no
    branch matches, 503 only on the health check, and 200 otherwise; in
    particular no failure of the database ever produces a 500. *)
Theorem server_answers_every_request (host : string) (req : IncomingMessage)
    (w : World) :
  exists w' evs status body,
    server host req w = (Normal tt, w')
    /\ trace w' = trace w ++ evs
    /\ statuses evs = [status]
    /\ bodies evs = [body]
    /\ match route req with
       | RouteInvalid => status = 500%Z
       | RoutePreflight => status = 200%Z
       | RouteHealth => status = if probe_succeeds w then 200%Z else 503%Z
       | RouteLogWrite => status = 200%Z
       | RouteNotFound => status = 404%Z
       end.
Proof.
  rewrite server_dispatch.
  destruct (route req).
  - eexists. exists [EvWriteHead 500 [("Content-Type", "application/json")];
                     EvEnd (JsonBody 0 [("error", "Internal server error");
                                        ("message", "Invalid URL")])].
    eexists. eexists. split; [reflexivity|].
    unfold respond, emit. cbn. rewrite <- app_assoc.
    repeat split; reflexivity.
  - eexists. exists [EvWriteHead 200 corsHeaders; EvEnd EmptyBody].
    eexists. eexists. split; [reflexivity|].
    unfold respond, emit. cbn. rewrite <- app_assoc.
    repeat split; reflexivity.
  - destruct (handleHealthCheck_run host req w)
      as (w' & evs & Hh & Ht & Hs & Hb & _).
    exists w', evs. eexists. eexists.
    split; [exact Hh|]. split; [exact Ht|].
    split; [exact Hs|]. split; [exact Hb | reflexivity].
  - destruct (handleRequest_responds host req w)
      as (w' & evs & o & Hh & Ht & Hs & Hb & _).
    exists w', evs. eexists. eexists.
    split; [exact Hh|]. split; [exact Ht|].
    split; [exact Hs|]. split; [exact Hb | reflexivity].
  - eexists. exists [EvWriteHead 404 [("Content-Type", "application/json")];
                     EvEnd (JsonBody 0 [("error", "Not found")])].
    eexists. eexists. split; [reflexivity|].
    unfold respond, emit. cbn. rewrite <- app_assoc.
    repeat split; reflexivity.
Qed.

(** X2: an OPTIONS request is answered before any path is looked at:
    whatever its path (as long as the URL parses), even /health or
    /api/request, the answer is 200 with the three CORS headers and no
    body, and nothing else happens: no client is taken from the pool, no
    statement is sent, no identifier is drawn. *)
Theorem preflight_touches_nothing (host : string) (req : IncomingMessage)
    (path : string) (w : World) :
  req_pathname req = Some path ->
  req_method req = "OPTIONS" ->
  server host req w
  = (Normal tt,
     respond 200
       [ ("Access-Control-Allow-Origin", "*");
         ("Access-Control-Allow-Methods", "GET, POST, OPTIONS");
         ("Access-Control-Allow-Headers", "Content-Type") ]
       EmptyBody w)
  /\ trace (snd (server host req w))
     = trace w
       ++ [ EvWriteHead 200
              [ ("Access-Control-Allow-Origin", "*");
                ("Access-Control-Allow-Methods", "GET, POST, OPTIONS");
                ("Access-Control-Allow-Headers", "Content-Type") ];
            EvEnd EmptyBody ].
Proof.
  intros Hp Hm. rewrite server_dispatch. unfold route. rewrite Hp, Hm.
  cbn [String.eqb Ascii.eqb Bool.eqb fst snd].
  split; [reflexivity|].
  unfold respond, emit. cbn. rewrite <- app_assoc. reflexivity.
Qed.

(** X3: a request that no branch matches is answered 404 with the body
    [{error: "Not found"}] and touches nothing.  This is what a method
    other than GET, POST and OPTIONS gets on every path, what POST gets
    on /health, and what any other path gets. *)
Theorem unmatched_request_is_404 (host : string) (req : IncomingMessage)
    (path : string) (w : World) :
  req_pathname req = Some path ->
  req_method req <> "OPTIONS" ->
  (path <> "/health" \/ req_method req <> "GET") ->
  ((path <> "/" /\ path <> "/api/request")
   \/ (req_method req <> "GET" /\ req_method req <> "POST")) ->
  server host req w
  = (Normal tt,
     respond 404 [("Content-Type", "application/json")]
             (JsonBody 0 [("error", "Not found")]) w).
Proof.
  intros Hp Hopt Hhealth Hlog.
  rewrite server_dispatch. unfold route. rewrite Hp.
  apply String.eqb_neq in Hopt. rewrite Hopt.
  assert (H1 : (path =? "/health") && (req_method req =? "GET") = false).
  { apply andb_false_iff.
    destruct Hhealth as [H | H]; apply String.eqb_neq in H; auto. }
  rewrite H1.
  assert (H2 : ((path =? "/") || (path =? "/api/request"))
               && ((req_method req =? "GET") || (req_method req =? "POST"))
               = false).
  { apply andb_false_iff.
    destruct Hlog as [[Ha Hb] | [Ha Hb]];
      apply String.eqb_neq in Ha; apply String.eqb_neq in Hb;
      rewrite Ha, Hb; auto. }
  rewrite H2. reflexivity.
Qed.

(** ** Clients taken and given back, over the whole dispatcher *)

Lemma handleHealthCheck_pool (host : string) (req : IncomingMessage)
    (w : World) :
  checked_out (snd (handleHealthCheck host req w))
  = if probe_leaks w then S (checked_out w) else checked_out w.
Proof.
  destruct w as [fs en dr cl lg se tx co tr].
  unfold handleHealthCheck, probe_leaks, new_Date, res_writeHead, res_end.
  run_io.
  destruct fs as [|[e1|] fs]; cbn -[Nat.leb poolMax];
    try (destruct (poolMax <=? co)%nat; cbn -[Nat.leb poolMax]);
    try (destruct fs as [|[e2|] fs]; cbn -[Nat.leb poolMax]);
    reflexivity.
Qed.

(** X4: over the whole dispatcher, the number of clients checked out
    of the pool is the same after a request as before it, with one
    exception: a GET /health whose probe obtains a client and then fails
    on [SELECT 1] leaves exactly one more client checked out. *)
Theorem server_pool_balance (host : string) (req : IncomingMessage)
    (w : World) :
  checked_out (snd (server host req w))
  = match route req with
    | RouteHealth =>
        if probe_leaks w then S (checked_out w) else checked_out w
    | _ => checked_out w
    end.
Proof.
  rewrite server_dispatch.
  destruct (route req); try reflexivity.
  - apply handleHealthCheck_pool.
  - destruct (handleRequest_responds host req w)
      as (w' & evs & o & Hh & _ & _ & _ & Hc).
    rewrite Hh. exact Hc.
Qed.

(** ** The table only grows, and never holds an identifier twice *)

Ltac leaf_classified :=
  left; eexists _, _; split; [reflexivity | reflexivity].

Ltac leaf_committed :=
  right; eexists _, _; split; [reflexivity|];
  split; [reflexivity | first [assumption | reflexivity]].

(** A pass commits a row only for an identifier the table does not hold
    yet. *)
Lemma pass_commits_fresh (rid host : string) (ts : Z) (ip : string)
    (a n : nat) (w : World) :
  (exists e w1,
      pass rid host ts ip a n w = classify e a n w1
      /\ request_logs w1 = request_logs w)
  \/ (exists w1 k,
      pass rid host ts ip a n w = (Normal (Some successResult), w1)
      /\ request_logs w1 = request_logs w ++ [mkEntry k rid host ts ip]
      /\ in_logs rid w = false).
Proof.
  destruct w as [fs en dr cl lg se tx co tr].
  run_io.
  destruct fs as [|[e1|] fs]; cbn -[Nat.leb poolMax classify String.eqb];
    try solve [leaf_classified];
    (destruct (poolMax <=? co)%nat eqn:Hroom;
     cbn -[Nat.leb poolMax classify String.eqb]; [solve [leaf_classified]|]).
  all: rewrite ?app_nil_r.
  all: try (destruct fs as [|[e2|] fs]; cbn -[Nat.leb poolMax classify String.eqb]).
  all: try (destruct fs as [|[e3|] fs]; cbn -[Nat.leb poolMax classify String.eqb]).
  all: rewrite ?app_nil_r.
  all: try (destruct (existsb (fun r => request_id r =? rid) lg) eqn:Htaken;
            cbn -[Nat.leb poolMax classify String.eqb]).
  all: try (destruct fs as [|[e4|] fs]; cbn -[Nat.leb poolMax classify String.eqb]).
  all: try (destruct fs as [|[e5|] fs]; cbn -[Nat.leb poolMax classify String.eqb]).
  all: try solve [leaf_classified].
  all: try solve [leaf_committed].
Qed.

Lemma retry_loop_fresh (rid host : string) (ts : Z) (ip : string) (n : nat) :
  forall (left a : nat) (w : World),
  exists r w',
    retry_loop left rid host ts ip a n w = (Normal r, w')
    /\ ((res_success r = true
         /\ in_logs rid w = false
         /\ exists k,
             request_logs w' = request_logs w ++ [mkEntry k rid host ts ip])
        \/ (res_success r = false /\ request_logs w' = request_logs w)).
Proof.
  induction left as [|left IH]; intros a w.
  - exists maxRetriesResult, w. split; [reflexivity|]. right. split; reflexivity.
  - cbn [retry_loop]. unfold bind.
    destruct (pass_commits_fresh rid host ts ip a n w)
      as [(e & w1 & Hp & Hlogs1) | (w1 & k & Hp & Hlogs1 & Hfresh)].
    + rewrite Hp.
      destruct (classify_total e a n w1)
        as (r & w2 & evs2 & Hc & _ & Hlogs2 & Hr).
      rewrite Hc. destruct r as [res|].
      * exists res, w2. split; [reflexivity|]. right.
        destruct Hr as (Hs & _). split; [exact Hs | congruence].
      * destruct (IH (S a) w2) as (r & w3 & Hl & Hout).
        exists r, w3. split; [exact Hl|].
        unfold in_logs in *. rewrite Hlogs2, Hlogs1 in Hout. exact Hout.
    + rewrite Hp. exists successResult, w1. split; [reflexivity|].
      left. split; [reflexivity|]. split; [exact Hfresh|].
      exists k. exact Hlogs1.
Qed.

Lemma gateway_fresh (rid host : string) (ts : Z) (ip : string) (n : nat)
    (w : World) :
  exists r w',
    writeRequestToDatabase rid host ts ip n w = (Normal r, w')
    /\ ((res_success r = true
         /\ in_logs rid w = false
         /\ exists k,
             request_logs w' = request_logs w ++ [mkEntry k rid host ts ip])
        \/ (res_success r = false /\ request_logs w' = request_logs w)).
Proof.
  unfold writeRequestToDatabase, bind, effect.
  destruct (retry_loop_fresh rid host ts ip n n 0
              (emit (EvGateway rid host ts ip) w)) as (r & w' & Hl & Hout).
  exists r, w'. rewrite Hl. split; [reflexivity | exact Hout].
Qed.

Lemma handleRequest_adds (host : string) (req : IncomingMessage) (w : World) :
  adds_at_most_one host w (snd (handleRequest host req w)).
Proof.
  rewrite handleRequest_unfold.
  destruct (gateway_fresh (entropy w (drawn w)) host (clock w)
              (clientIpOf req) defaultRetries (after_uuid w))
    as (r1 & w1 & Hw1 & Hout1).
  rewrite Hw1.
  destruct (is_collision r1) eqn:Hcol.
  - assert (Hlogs1 : request_logs w1 = request_logs w).
    { destruct Hout1 as [(Hs & _) | (_ & H)]; [|exact H].
      unfold is_collision in Hcol. rewrite Hs in Hcol. discriminate. }
    destruct (gateway_fresh (entropy w1 (drawn w1)) host (clock w)
                (clientIpOf req) defaultRetries (after_uuid w1))
      as (r2 & w2 & Hw2 & Hout2).
    rewrite Hw2. cbn [snd]. unfold adds_at_most_one.
    change (request_logs (after_response host (entropy w1 (drawn w1))
                            (clock w) (clientIpOf req) r2 w2))
      with (request_logs w2).
    destruct Hout2 as [(_ & Hfresh & k & Hk) | (_ & H)].
    + right. exists k, (entropy w1 (drawn w1)), (clock w), (clientIpOf req).
      unfold in_logs in *. cbn in Hfresh, Hk.
      rewrite Hlogs1 in Hfresh, Hk. split; assumption.
    + left. cbn in H. congruence.
  - cbn [snd]. unfold adds_at_most_one.
    change (request_logs (after_response host (entropy w (drawn w))
                            (clock w) (clientIpOf req) r1 w1))
      with (request_logs w1).
    destruct Hout1 as [(_ & Hfresh & k & Hk) | (_ & H)].
    + right. exists k, (entropy w (drawn w)), (clock w), (clientIpOf req).
      split; assumption.
    + left. exact H.
Qed.

Lemma handleHealthCheck_logs (host : string) (req : IncomingMessage)
    (w : World) :
  request_logs (snd (handleHealthCheck host req w)) = request_logs w.
Proof.
  destruct w as [fs en dr cl lg se tx co tr].
  unfold handleHealthCheck, new_Date, res_writeHead, res_end.
  run_io.
  destruct fs as [|[e1|] fs]; cbn -[Nat.leb poolMax];
    try (destruct (poolMax <=? co)%nat; cbn -[Nat.leb poolMax]);
    try (destruct fs as [|[e2|] fs]; cbn -[Nat.leb poolMax]);
    reflexivity.
Qed.

Lemma server_adds (host : string) (req : IncomingMessage) (w : World) :
  adds_at_most_one host w (snd (server host req w)).
Proof.
  rewrite server_dispatch.
  destruct (route req); try (left; reflexivity).
  - left. apply handleHealthCheck_logs.
  - apply handleRequest_adds.
Qed.

Lemma in_logs_false (rid : string) (w : World) :
  in_logs rid w = false -> ~ In rid (logged_ids w).
Proof.
  unfold in_logs, logged_ids. intros H Hin.
  apply in_map_iff in Hin. destruct Hin as (r & Hr & Hin).
  assert (Ht : existsb (fun r0 => request_id r0 =? rid) (request_logs w) = true).
  { apply existsb_exists. exists r. split; [exact Hin|].
    apply String.eqb_eq. exact Hr. }
  congruence.
Qed.

Lemma NoDup_snoc (l : list string) (x : string) :
  NoDup l -> ~ In x l -> NoDup (l ++ [x]).
Proof.
  intros Hl Hx. apply NoDup_app.
  - exact Hl.
  - constructor; [intros [] | constructor].
  - intros a Ha [<- | []]. exact (Hx Ha).
Qed.

Lemma server_returns (host : string) (req : IncomingMessage) (w : World) :
  server host req w = (Normal tt, snd (server host req w)).
Proof.
  rewrite server_dispatch.
  destruct (route req); try reflexivity.
  - apply handleHealthCheck_returns.
  - apply handleRequest_returns.
Qed.

Lemma serve_step (host : string) (req : IncomingMessage)
    (reqs : list IncomingMessage) (w : World) :
  serve host (req :: reqs) w = serve host reqs (snd (server host req w)).
Proof.
  cbn [serve]. unfold bind. rewrite (server_returns host req w). reflexivity.
Qed.

Lemma serve_returns (host : string) (reqs : list IncomingMessage) :
  forall w, fst (serve host reqs w) = Normal tt.
Proof.
  induction reqs as [|req reqs IH]; intros w; [reflexivity|].
  cbn [serve]. unfold bind. rewrite (server_returns host req w). apply IH.
Qed.

(** X5: whatever requests arrive, one after the other, and whatever
    the database does, the table only grows: the rows that were there
    stay as they are and in place, at most one row is added per request,
    every added row names this server, and if no identifier occurred
    twice before, none occurs twice afterwards. *)
Theorem table_grows_without_duplicates (host : string)
    (reqs : list IncomingMessage) :
  forall w : World,
  exists added,
    request_logs (snd (serve host reqs w)) = request_logs w ++ added
    /\ length added <= length reqs
    /\ Forall (fun r => server_hostname r = host) added
    /\ (NoDup (logged_ids w) -> NoDup (logged_ids (snd (serve host reqs w)))).
Proof.
  induction reqs as [|req reqs IH]; intros w.
  - exists []. cbn. rewrite app_nil_r. repeat split; auto.
  - rewrite serve_step.
    destruct (IH (snd (server host req w)))
      as (added & Hlogs & Hlen & Hhost & Hdup).
    destruct (server_adds host req w)
      as [Hsame | (k & rid & ts & ip & Hrow & Hfresh)].
    + exists added. rewrite Hlogs, Hsame.
      split; [reflexivity|]. split; [cbn; lia|]. split; [exact Hhost|].
      intros Hw. apply Hdup. unfold logged_ids. rewrite Hsame. exact Hw.
    + exists (mkEntry k rid host ts ip :: added).
      rewrite Hlogs, Hrow, <- app_assoc.
      split; [reflexivity|]. split; [cbn; lia|].
      split; [constructor; [reflexivity | exact Hhost]|].
      intros Hw. apply Hdup. unfold logged_ids. rewrite Hrow, map_app.
      apply NoDup_snoc; [exact Hw | apply in_logs_false; exact Hfresh].
Qed.

(** ** The handler, whatever the database does *)

(** X6: for every request and whatever the database does, the handler
    draws one identifier per gateway call and makes one call, or two
    when the first call returned the collision result, never more; all
    calls carry the same host name, timestamp and client address; and
    the request_id of the response is the identifier of the last call,
    whether that call committed its row or not. *)
Theorem handler_calls_gateway_once_or_twice (host : string)
    (req : IncomingMessage) (w : World) :
  let d1 := entropy w (drawn w) in
  let d2 := entropy w (S (drawn w)) in
  exists w' evs r1 o,
    handleRequest host req w = (Normal tt, w')
    /\ trace w' = trace w ++ evs
    /\ fst (writeRequestToDatabase d1 host (clock w) (clientIpOf req)
                                   defaultRetries (after_uuid w))
       = Normal r1
    /\ generated evs = (if is_collision r1 then [d1; d2] else [d1])
    /\ gateway_calls evs
       = map (fun d => (d, host, clock w, clientIpOf req)) (generated evs)
    /\ bodies evs = [JsonBody 2 o]
    /\ field "request_id" o = Some (last (generated evs) d1).
Proof.
  intros d1 d2.
  destruct (handleRequest_cases host req w)
    as (r1 & w1 & evs1 & Hw1 & (_ & D1 & _) & _ & Hcases).
  fold d1 d2 in Hw1, Hcases.
  destruct Hcases
    as [(Hcol & w' & Hh & Ht & _)
       | (Hcol & r2 & w2 & evs2 & w' & _ & D2 & _ & Hh & Ht & _)].
  - exists w'. eexists. exists r1. eexists.
    split; [exact Hh|]. split; [exact Ht|].
    split; [rewrite Hw1; reflexivity|]. rewrite Hcol.
    assert (Hg : generated
                   (EvRandomUUID d1
                    :: EvGateway d1 host (clock w) (clientIpOf req) :: evs1
                    ++ response_events host d1 (clock w) (clientIpOf req) r1)
                 = [d1]) by (read_trace; reflexivity).
    rewrite Hg.
    split; [reflexivity|].
    split; [read_trace; reflexivity|].
    split; [read_trace; reflexivity|]. reflexivity.
  - exists w'. eexists. exists r1. eexists.
    split; [exact Hh|]. split; [exact Ht|].
    split; [rewrite Hw1; reflexivity|]. rewrite Hcol.
    assert (Hg : generated
                   (EvRandomUUID d1
                    :: EvGateway d1 host (clock w) (clientIpOf req) :: evs1
                    ++ EvRandomUUID d2
                    :: EvGateway d2 host (clock w) (clientIpOf req) :: evs2
                    ++ response_events host d2 (clock w) (clientIpOf req) r2)
                 = [d1; d2]) by (read_trace; reflexivity).
    rewrite Hg.
    split; [reflexivity|].
    split; [read_trace; reflexivity|].
    split; [read_trace; reflexivity|]. reflexivity.
Qed.

(** ** Attempts and delays of a call, for any number of retries *)

Ltac leaf_counted :=
  eexists _, _; split; [first [left; eexists; reflexivity | right; reflexivity]|];
  cbn; tidy_trace; repeat split; reflexivity.

(** A pass asks the pool for a client exactly once and does not sleep
    before its error, if any, is classified. *)
Lemma pass_connects_once (rid host : string) (ts : Z) (ip : string)
    (a n : nat) (w : World) :
  exists w1 evs,
    ((exists e, pass rid host ts ip a n w = classify e a n w1)
     \/ pass rid host ts ip a n w = (Normal (Some successResult), w1))
    /\ trace w1 = trace w ++ evs
    /\ passes evs = 1%nat
    /\ slept evs = []
    /\ clock w1 = clock w.
Proof.
  destruct w as [fs en dr cl lg se tx co tr].
  run_io.
  destruct fs as [|[e1|] fs]; cbn -[Nat.leb poolMax classify String.eqb];
    try solve [leaf_counted];
    (destruct (poolMax <=? co)%nat eqn:Hroom;
     cbn -[Nat.leb poolMax classify String.eqb]; [solve [leaf_counted]|]).
  all: rewrite ?app_nil_r.
  all: try (destruct fs as [|[e2|] fs]; cbn -[Nat.leb poolMax classify String.eqb]).
  all: try (destruct fs as [|[e3|] fs]; cbn -[Nat.leb poolMax classify String.eqb]).
  all: rewrite ?app_nil_r.
  all: try (destruct (existsb (fun r => request_id r =? rid) lg) eqn:Htaken;
            cbn -[Nat.leb poolMax classify String.eqb]).
  all: try (destruct fs as [|[e4|] fs]; cbn -[Nat.leb poolMax classify String.eqb]).
  all: try (destruct fs as [|[e5|] fs]; cbn -[Nat.leb poolMax classify String.eqb]).
  all: solve [leaf_counted].
Qed.

Lemma passes_app (l1 l2 : list Event) :
  passes (l1 ++ l2) = (passes l1 + passes l2)%nat.
Proof. unfold passes. rewrite collect_app, length_app. reflexivity. Qed.

Lemma backoff_delay_le (a : nat) : (backoff_delay a <= 400)%Z.
Proof.
  destruct a as [|[|[|a]]]; unfold backoff_delay; simpl; try lia.
  destruct a; simpl; lia.
Qed.

Lemma total_backoff_le (a j : nat) :
  (total (map backoff_delay (seq a j)) <= 400 * Z.of_nat j)%Z.
Proof.
  revert a. induction j as [|j IH]; intros a; [cbn; lia|].
  cbn [seq map total fold_right].
  fold (total (map backoff_delay (seq (S a) j))).
  pose proof (backoff_delay_le a). specialize (IH (S a)). lia.
Qed.

Lemma retry_loop_attempts (rid host : string) (ts : Z) (ip : string) (n : nat) :
  forall (left a : nat) (w : World),
  (0 < left)%nat ->
  (a + left = n)%nat ->
  exists r w' evs j,
    retry_loop left rid host ts ip a n w = (Normal r, w')
    /\ trace w' = trace w ++ evs
    /\ passes evs = S j
    /\ (a + S j <= n)%nat
    /\ slept evs = map backoff_delay (seq a j)
    /\ clock w' = (clock w + total (slept evs))%Z.
Proof.
  induction left as [|left IH]; intros a w Hpos Hleft; [lia|].
  cbn [retry_loop]. unfold bind.
  destruct (pass_connects_once rid host ts ip a n w)
    as (w1 & evs1 & Hp & T1 & P1 & S1 & K1).
  destruct Hp as [(e & Hp) | Hp]; rewrite Hp.
  - destruct (classify_total e a n w1)
      as (r & w2 & evs2 & Hc & (T2 & _) & _ & Hr).
    rewrite Hc. destruct r as [res|].
    + destruct Hr as (_ & _ & -> & K2). rewrite app_nil_r in T2.
      exists res, w2, evs1, 0%nat. split; [reflexivity|].
      rewrite S1. cbn. repeat split; try congruence; lia.
    + destruct Hr as (Ha & -> & K2).
      destruct (IH (S a) w2) as (r & w3 & evs3 & j & Hl & T3 & P3 & Hj & S3 & K3);
        [lia | lia |].
      exists r, w3, (evs1 ++ [EvSleep (backoff_delay a)] ++ evs3), (S j).
      split; [exact Hl|].
      split; [rewrite T3, T2, T1, <- !app_assoc; reflexivity|].
      split; [rewrite !passes_app, P1, P3; reflexivity|].
      split; [lia|].
      rewrite !slept_app, S1, S3.
      change (slept [EvSleep (backoff_delay a)]) with [backoff_delay a].
      cbn [app seq map].
      split; [reflexivity|].
      rewrite K3, K2, K1, S3. cbn [total fold_right].
      fold (total (map backoff_delay (seq (S a) j))). lia.
  - exists successResult, w1, evs1, 0%nat. split; [reflexivity|].
    rewrite S1. cbn. repeat split; try congruence; lia.
Qed.

(** X7: for any number of retries [n >= 1] and whatever the database
    does, a call of [writeRequestToDatabase] returns after at least one
    and at most [n] passes; it sleeps once between two passes and never
    after the last one, the delays being the first entries of 100, 200,
    400, 400, ... in that order; the time it spends in backoff is their
    sum, at most 400 ms per repeated pass.  With [n = 0] it returns the
    MAX_RETRIES result without touching the database. *)
Theorem gateway_attempts_and_delays (rid host : string) (ts : Z)
    (ip : string) (n : nat) (w : World) :
  exists r w' evs j,
    writeRequestToDatabase rid host ts ip n w = (Normal r, w')
    /\ trace w' = trace w ++ EvGateway rid host ts ip :: evs
    /\ ((n = 0%nat /\ r = maxRetriesResult /\ evs = [] /\ j = 0%nat)
        \/ (passes evs = S j /\ (S j <= n)%nat))
    /\ slept evs = map backoff_delay (seq 0 j)
    /\ clock w' = (clock w + total (slept evs))%Z
    /\ (total (slept evs) <= 400 * Z.of_nat j)%Z.
Proof.
  unfold writeRequestToDatabase, bind, effect.
  destruct n as [|n].
  - exists maxRetriesResult. eexists. exists [], 0%nat.
    split; [reflexivity|]. cbn.
    repeat split; try lia. left. repeat split.
  - destruct (retry_loop_attempts rid host ts ip (S n) (S n) 0
                (emit (EvGateway rid host ts ip) w))
      as (r & w' & evs & j & Hl & Ht & Hp & Hj & Hs & Hk); [lia | lia |].
    exists r, w', evs, j. rewrite Hl. split; [reflexivity|].
    split; [rewrite Ht; cbn; rewrite <- app_assoc; reflexivity|].
    split; [right; split; [exact Hp | lia]|].
    split; [exact Hs|]. split; [exact Hk|].
    rewrite Hs. apply total_backoff_le.
Qed.

(** ** Errors the classification reads by their text *)

Lemma includes_nonempty (needle s : string) :
  needle <> "" -> includes needle s = true -> (s =? "") = false.
Proof.
  intros Hn H. destruct s as [|c s]; [|reflexivity].
  destruct needle as [|d needle]; [congruence|]. cbn in H. discriminate.
Qed.

(** X8: the duplicate-key test also reads the message of the error and
    is made before the transient test.  So any error whose message
    contains "duplicate key", whatever its code (a transient one
    included) and at whatever round trip it is thrown (the connect
    included), ends the call at once with the collision result: it is
    not retried and nothing is slept. *)
Theorem duplicate_key_message_is_collision (p : Phase) (e : JsError)
    (rb : option JsError) (rest : list (option JsError))
    (rid host : string) (ts : Z) (ip : string) (retries : nat) (w : World) :
  (0 < retries)%nat ->
  faults w = failing p e rb ++ rest ->
  (checked_out w < poolMax)%nat ->
  (p = AtCommit -> in_logs rid w = false) ->
  includes "duplicate key" (err_message e) = true ->
  let evs := EvGateway rid host ts ip :: failing_events p rid host ts ip in
  writeRequestToDatabase rid host ts ip retries w
  = (Normal collisionResult, after_failing p rest evs w)
  /\ passes evs = 1%nat
  /\ slept evs = [].
Proof.
  intros Hn Hf Hroom Hfresh Hmsg evs. split.
  - destruct retries as [|k]; [lia|].
    unfold writeRequestToDatabase, bind, effect. cbn [retry_loop]. unfold bind.
    rewrite (pass_failing p e rb rest) by assumption.
    rewrite classify_collision.
    + unfold ret. rewrite after_failing_emit. reflexivity.
    + unfold isDuplicateKey. rewrite Hmsg.
      rewrite (includes_nonempty "duplicate key" _ ltac:(discriminate) Hmsg).
      apply orb_true_r.
  - subst evs. destruct p; split; reflexivity.
Qed.

(** ** A pool with no client left *)

(** When every client of the pool is checked out, [dbPool.connect]
    fails with the pool's timeout error, which has no code: the call
    treats it as permanent. *)
Lemma gateway_on_drained_pool (rid host : string) (ts : Z)
    (ip : string) (retries : nat) (w : World) :
  (0 < retries)%nat ->
  (poolMax <= checked_out w)%nat ->
  hd None (faults w) = None ->
  exists w',
    writeRequestToDatabase rid host ts ip retries w
    = (Normal (mkResult false (Some "UNKNOWN")
                        (Some "timeout exceeded when trying to connect")),
       w')
    /\ trace w' = trace w ++ [EvGateway rid host ts ip; EvConnect]
    /\ clock w' = clock w
    /\ checked_out w' = checked_out w
    /\ request_logs w' = request_logs w.
Proof.
  intros Hn Hfull Hhd.
  destruct retries as [|k]; [lia|].
  destruct w as [fs en dr cl lg se tx co tr].
  cbn in Hfull, Hhd. apply Nat.leb_le in Hfull.
  unfold writeRequestToDatabase, bind, effect. cbn [retry_loop]. unfold bind.
  run_io.
  destruct fs as [|f fs]; cbn in Hhd; [|subst f];
    cbn -[Nat.leb poolMax classify]; rewrite Hfull;
    cbn -[Nat.leb poolMax]; eexists; (split; [reflexivity|]);
    cbn; tidy_trace; repeat split; reflexivity.
Qed.

Lemma probe_on_drained_pool (w : World) :
  (poolMax <= checked_out w)%nat ->
  hd None (faults w) = None ->
  probe_succeeds w = false.
Proof.
  intros Hfull Hhd.
  destruct w as [fs en dr cl lg se tx co tr].
  cbn in Hfull, Hhd. apply Nat.leb_le in Hfull.
  unfold probe_succeeds. run_io.
  destruct fs as [|f fs]; cbn in Hhd; [|subst f];
    cbn -[Nat.leb poolMax]; rewrite Hfull; reflexivity.
Qed.

(** X9: when every client of the pool is checked out and the database
    itself is in order, a request on the log-write path is still
    answered 200, with db_status "failed" and the pool's timeout message
    as db_error: the pool's error has no code, so the write is given up
    after a single pass without backoff and nothing is committed.  A
    health check then answers 503 with database "disconnected". *)
Theorem drained_pool_fails_requests (host : string) (req : IncomingMessage)
    (w : World) :
  (poolMax <= checked_out w)%nat ->
  hd None (faults w) = None ->
  (route req = RouteLogWrite ->
   exists w' evs o,
     server host req w = (Normal tt, w')
     /\ trace w' = trace w ++ evs
     /\ statuses evs = [200%Z]
     /\ bodies evs = [JsonBody 2 o]
     /\ field "db_status" o = Some "failed"
     /\ field "db_error" o = Some "timeout exceeded when trying to connect"
     /\ passes evs = 1%nat
     /\ slept evs = []
     /\ request_logs w' = request_logs w)
  /\ (route req = RouteHealth ->
      exists w' evs,
        server host req w = (Normal tt, w')
        /\ trace w' = trace w ++ evs
        /\ statuses evs = [503%Z]
        /\ bodies evs = [JsonBody 2 (healthData host (clock w) false)]).
Proof.
  intros Hfull Hhd. split; intros Hroute.
  - rewrite server_dispatch, Hroute, handleRequest_unfold.
    destruct (gateway_on_drained_pool (entropy w (drawn w)) host (clock w)
                (clientIpOf req) defaultRetries (after_uuid w))
      as (w1 & Hw1 & T1 & _ & _ & L1);
      [unfold defaultRetries; lia | exact Hfull | exact Hhd |].
    rewrite Hw1. cbn [is_collision res_success res_error negb andb strict_eq
                      String.eqb Ascii.eqb Bool.eqb].
    eexists. eexists. eexists. split; [reflexivity|].
    project_world. rewrite T1. project_world. tidy_trace.
    split; [reflexivity|].
    split; [reflexivity|]. split; [reflexivity|].
    split; [reflexivity|]. split; [reflexivity|].
    split; [reflexivity|]. split; [reflexivity|]. exact L1.
  - rewrite server_dispatch, Hroute.
    destruct (handleHealthCheck_run host req w)
      as (w' & evs & Hh & Ht & Hs & Hb & _).
    rewrite (probe_on_drained_pool w Hfull Hhd) in Hs, Hb.
    exists w', evs. repeat split; assumption.
Qed.

(** ** Health checks that fail on their query, one after the other *)

Lemma failed_probe_step (host : string) (req : IncomingMessage) (e : JsError)
    (rest : list (option JsError)) (w : World) :
  route req = RouteHealth ->
  faults w = None :: Some e :: rest ->
  (checked_out w < poolMax)%nat ->
  exists evs,
    trace (snd (server host req w)) = trace w ++ evs
    /\ statuses evs = [503%Z]
    /\ releases evs = 0%nat
    /\ checked_out (snd (server host req w)) = S (checked_out w)
    /\ faults (snd (server host req w)) = rest
    /\ request_logs (snd (server host req w)) = request_logs w.
Proof.
  intros Hroute Hf Hroom.
  rewrite server_dispatch, Hroute.
  destruct w as [fs en dr cl lg se tx co tr].
  cbn in Hf, Hroom. subst fs. apply pool_has_room in Hroom.
  unfold handleHealthCheck, new_Date, res_writeHead, res_end.
  run_io. rewrite Hroom. cbn.
  eexists. tidy_trace. split; [reflexivity|]. repeat split; reflexivity.
Qed.

(** X10: every health check whose probe obtains a client and then
    fails on its query answers 503 and keeps that client: after [n] such
    checks in a row, [n] more clients are checked out of the pool than
    before, none was released, and the table is as it was. *)
Theorem failed_probes_drain_pool (host : string) :
  forall (errors : list JsError) (reqs : list IncomingMessage)
         (rest : list (option JsError)) (w : World),
  length reqs = length errors ->
  Forall (fun req => route req = RouteHealth) reqs ->
  faults w = failing_probes errors ++ rest ->
  (checked_out w + length errors <= poolMax)%nat ->
  exists evs,
    trace (snd (serve host reqs w)) = trace w ++ evs
    /\ statuses evs = repeat 503%Z (length errors)
    /\ releases evs = 0%nat
    /\ checked_out (snd (serve host reqs w))
       = (checked_out w + length errors)%nat
    /\ faults (snd (serve host reqs w)) = rest
    /\ request_logs (snd (serve host reqs w)) = request_logs w.
Proof.
  induction errors as [|e errors IH]; intros reqs rest w Hlen Hroutes Hf Hroom.
  - destruct reqs; [|discriminate]. exists []. cbn.
    rewrite app_nil_r, Nat.add_0_r. repeat split. exact Hf.
  - destruct reqs as [|req reqs]; [discriminate|].
    inversion Hroutes as [|? ? Hroute Hroutes']; subst.
    cbn [length] in Hlen, Hroom. injection Hlen as Hlen.
    rewrite serve_step.
    destruct (failed_probe_step host req e (failing_probes errors ++ rest) w
                Hroute Hf ltac:(lia))
      as (evs1 & T1 & S1 & R1 & C1 & F1 & L1).
    destruct (IH reqs rest (snd (server host req w)) Hlen Hroutes' F1
                ltac:(rewrite C1; lia))
      as (evs2 & T2 & S2 & R2 & C2 & F2 & L2).
    exists (evs1 ++ evs2).
    split; [rewrite T2, T1, app_assoc; reflexivity|].
    split; [unfold statuses in *; rewrite collect_app, S1, S2; reflexivity|].
    split; [unfold releases in *; rewrite collect_app, length_app, R1, R2;
            reflexivity|].
    split; [rewrite C2, C1; cbn [length]; lia|].
    split; [exact F2 | congruence].
Qed.

(** ** Two collisions in a row *)

(** X11: when the insert of the second write meets a unique-constraint
    violation as well, the handler gives up: it does not draw a third
    identifier.  The response is 200 with db_status "failed", the
    collision message as db_error and the second identifier as
    request_id; the two writes took one pass each, nothing was slept and
    nothing was committed. *)
Theorem second_collision_is_reported (host : string) (req : IncomingMessage)
    (f1 rb1 f2 rb2 : option JsError) (rest : list (option JsError))
    (w : World) :
  let d1 := entropy w (drawn w) in
  let d2 := entropy w (S (drawn w)) in
  let ts := clock w in
  let ip := clientIpOf req in
  faults w = [None; None; f1; rb1] ++ [None; None; f2; rb2] ++ rest ->
  (checked_out w < poolMax)%nat ->
  unique_violation_on_insert f1 d1 w ->
  unique_violation_on_insert f2 d2 w ->
  let evs :=
    EvRandomUUID d1 :: EvGateway d1 host ts ip
    :: failing_events AtInsert d1 host ts ip
    ++ EvRandomUUID d2 :: EvGateway d2 host ts ip
    :: failing_events AtInsert d2 host ts ip
    ++ response_events host d2 ts ip collisionResult in
  exists w',
    handleRequest host req w = (Normal tt, w')
    /\ trace w' = trace w ++ evs
    /\ generated evs = [d1; d2]
    /\ passes evs = 2%nat
    /\ slept evs = []
    /\ statuses evs = [200%Z]
    /\ field "request_id" (responseData host d2 ts ip collisionResult)
       = Some d2
    /\ field "db_status" (responseData host d2 ts ip collisionResult)
       = Some "failed"
    /\ field "db_error" (responseData host d2 ts ip collisionResult)
       = Some "Request ID collision detected - extremely rare event"
    /\ request_logs w' = request_logs w
    /\ faults w' = rest.
Proof.
  intros d1 d2 ts ip Hf Hroom Hv1 Hv2 evs.
  rewrite handleRequest_unfold. fold d1 ts ip.
  rewrite (gateway_collision f1 rb1 ([None; None; f2; rb2] ++ rest)
             d1 host ts ip (after_uuid w) Hf Hroom Hv1).
  change (is_collision collisionResult) with true. cbv iota.
  match goal with
  | |- context [entropy ?w1 (drawn ?w1)] =>
      change (entropy w1 (drawn w1)) with d2
  end.
  rewrite (gateway_collision f2 rb2 rest d2 host ts ip);
    [ | reflexivity | exact Hroom | ].
  - eexists. split; [reflexivity|].
    subst evs. project_world. unfold failing_events, response_events.
    tidy_trace.
    repeat split; reflexivity.
  - destruct f2 as [e2|]; [exact Hv2 | exact Hv2].
Qed.

(* ================================================================== *)
(** * Properties of the frontend *)

(** ** The Map *)

Lemma map_get_set (k : string) (v : nat) (m : list (string * nat))
    (h : string) :
  map_get h (map_set k v m) = if k =? h then Some v else map_get h m.
Proof.
  induction m as [|[k' v'] m IH]; cbn; [reflexivity|].
  destruct (k' =? k) eqn:Hk; cbn.
  - apply String.eqb_eq in Hk. subst k'.
    destruct (k =? h); reflexivity.
  - destruct (k' =? h) eqn:Hh.
    + apply String.eqb_eq in Hh. subst k'.
      rewrite String.eqb_sym, Hk. reflexivity.
    + exact IH.
Qed.

Lemma map_set_keys (k : string) (v : nat) (m : list (string * nat))
    (x : string) :
  In x (map fst (map_set k v m)) <-> x = k \/ In x (map fst m).
Proof.
  induction m as [|[k' v'] m IH]; cbn.
  - intuition congruence.
  - destruct (k' =? k) eqn:Hk; cbn.
    + apply String.eqb_eq in Hk. subst k'. intuition congruence.
    + rewrite IH. intuition congruence.
Qed.

Lemma map_set_NoDup (k : string) (v : nat) (m : list (string * nat)) :
  NoDup (map fst m) -> NoDup (map fst (map_set k v m)).
Proof.
  induction m as [|[k' v'] m IH]; cbn; intros H.
  - constructor; [intros [] | constructor].
  - inversion H as [|? ? Hnot Hrest]; subst.
    destruct (k' =? k) eqn:Hk; cbn.
    + apply String.eqb_eq in Hk. subst k'. constructor; assumption.
    + constructor; [|apply IH; exact Hrest].
      rewrite map_set_keys. intros [-> | Hin]; [|exact (Hnot Hin)].
      rewrite String.eqb_refl in Hk. discriminate.
Qed.

Lemma map_get_In (h : string) (c : nat) (m : list (string * nat)) :
  NoDup (map fst m) -> In (h, c) m -> map_get h m = Some c.
Proof.
  induction m as [|[k' v'] m IH]; cbn; intros Hnd Hin; [contradiction|].
  inversion Hnd as [|? ? Hnot Hrest]; subst.
  destruct Hin as [Heq | Hin].
  - injection Heq as -> ->. rewrite String.eqb_refl. reflexivity.
  - destruct (k' =? h) eqn:Hk.
    + apply String.eqb_eq in Hk. subst k'. exfalso. apply Hnot.
      apply in_map_iff. exists (h, c). split; [reflexivity | exact Hin].
    + apply IH; assumption.
Qed.

Lemma map_get_key (h : string) (c : nat) (m : list (string * nat)) :
  map_get h m = Some c -> In h (map fst m).
Proof.
  induction m as [|[k v] m IH]; cbn; [discriminate|].
  destruct (k =? h) eqn:Hk.
  - apply String.eqb_eq in Hk. auto.
  - intros H. right. apply IH. exact H.
Qed.

(** ** What an action does to the state *)

Lemma addRequest_requests (tl : option string -> string) (d : RequestData)
    (p : Page) :
  requests (addRequest tl d p) = d :: requests p.
Proof. reflexivity. Qed.

Lemma addRequest_servers (tl : option string -> string) (d : RequestData)
    (p : Page) :
  servers (addRequest tl d p)
  = match counted d with
    | Some h =>
        map_set h (S (match map_get h (servers p) with
                      | Some c => c
                      | None => 0
                      end)) (servers p)
    | None => servers p
    end.
Proof.
  unfold addRequest, counted. cbn [servers updateStats updateServerDistribution
                                   updateRequestLogs].
  destruct (rd_server_hostname d) as [h|]; cbn; [|reflexivity].
  destruct (h =? "") eqn:He; cbn; [reflexivity|].
  destruct (h =? "Error") eqn:Hr; cbn; [reflexivity|].
  f_equal. destruct (map_get h (servers p)) as [c|]; [|reflexivity].
  destruct c; cbn; lia.
Qed.

Lemma count_host_cons (h : string) (d : RequestData) (l : list RequestData) :
  count_host h (d :: l)
  = Nat.add (match counted d with
             | Some h' => if h' =? h then 1%nat else 0%nat
             | None => 0%nat
             end)
            (count_host h l).
Proof.
  unfold count_host. cbn [filter].
  destruct (counted d) as [h'|]; [|reflexivity].
  destruct (h' =? h); reflexivity.
Qed.

Lemma addRequest_agree (tl : option string -> string) (d : RequestData)
    (p : Page) :
  servers_agree p -> servers_agree (addRequest tl d p).
Proof.
  intros Hp h. rewrite addRequest_requests, addRequest_servers.
  rewrite count_host_cons.
  destruct (counted d) as [k|]; [|apply Hp].
  rewrite map_get_set.
  destruct (k =? h) eqn:Hk.
  - apply String.eqb_eq in Hk. subst k. rewrite (Hp h).
    destruct (count_host h (requests p)); reflexivity.
  - apply Hp.
Qed.

Lemma addRequest_NoDup (tl : option string -> string) (d : RequestData)
    (p : Page) :
  NoDup (map fst (servers p)) ->
  NoDup (map fst (servers (addRequest tl d p))).
Proof.
  intros H. rewrite addRequest_servers.
  destruct (counted d); [apply map_set_NoDup|]; exact H.
Qed.

Lemma addRequest_shows (tl : option string -> string) (d : RequestData)
    (p : Page) :
  shows_state tl (addRequest tl d p).
Proof. repeat split. Qed.

(** The element [sendRequest] adds to [requests], if any. *)
Lemma sendRequest_adds (tl : option string -> string) (jm : string)
    (url : string) (outcome : FetchOutcome) (t_id t_iso : Z) (p : Page) :
  (requests (sendRequest tl jm url outcome t_id t_iso p) = requests p
   /\ servers (sendRequest tl jm url outcome t_id t_iso p) = servers p
   /\ requestLogs (sendRequest tl jm url outcome t_id t_iso p) = requestLogs p
   /\ serverDistribution (sendRequest tl jm url outcome t_id t_iso p)
      = serverDistribution p
   /\ totalRequests (sendRequest tl jm url outcome t_id t_iso p)
      = totalRequests p
   /\ uniqueServers (sendRequest tl jm url outcome t_id t_iso p)
      = uniqueServers p)
  \/ exists d,
       requests (sendRequest tl jm url outcome t_id t_iso p)
       = requests (addRequest tl d p)
       /\ servers (sendRequest tl jm url outcome t_id t_iso p)
          = servers (addRequest tl d p)
       /\ requestLogs (sendRequest tl jm url outcome t_id t_iso p)
          = requestLogs (addRequest tl d p)
       /\ serverDistribution (sendRequest tl jm url outcome t_id t_iso p)
          = serverDistribution (addRequest tl d p)
       /\ totalRequests (sendRequest tl jm url outcome t_id t_iso p)
          = totalRequests (addRequest tl d p)
       /\ uniqueServers (sendRequest tl jm url outcome t_id t_iso p)
          = uniqueServers (addRequest tl d p).
Proof.
  unfold sendRequest.
  destruct (url =? ""); [left; repeat split|].
  right. destruct outcome as [message | status body].
  - eexists. repeat split.
  - destruct (negb (response_ok status)); [eexists; repeat split|].
    destruct (response_json jm body); eexists; repeat split.
Qed.

(** ** What holds of the page after any actions *)

Lemma refresh_views (tl : option string -> string) (p q : Page) :
  requests p = requests q ->
  servers p = servers q ->
  requestLogs (refresh tl p) = requestLogs (refresh tl q)
  /\ serverDistribution (refresh tl p) = serverDistribution (refresh tl q).
Proof.
  intros Hr Hs. unfold refresh, updateStats, updateServerDistribution,
    updateRequestLogs. cbn. rewrite Hr, Hs. split; reflexivity.
Qed.

Lemma shows_state_transfer (tl : option string -> string) (p q : Page) :
  shows_state tl q ->
  requests p = requests q ->
  servers p = servers q ->
  requestLogs p = requestLogs q ->
  serverDistribution p = serverDistribution q ->
  totalRequests p = totalRequests q ->
  uniqueServers p = uniqueServers q ->
  shows_state tl p.
Proof.
  intros (H1 & H2 & H3 & H4) Hr Hs Hl Hd Ht Hu.
  destruct (refresh_views tl p q Hr Hs) as [V1 V2].
  unfold shows_state. rewrite Hl, Hd, Ht, Hu, V1, V2, Hr, Hs.
  repeat split; assumption.
Qed.

Lemma initial_invariant (tl : option string -> string) (bt : string) :
  page_invariant tl (initial_page tl bt).
Proof.
  split; [|split].
  - intros h. reflexivity.
  - constructor.
  - repeat split.
Qed.

Lemma act_invariant (tl : option string -> string) (jm : string) (p : Page)
    (a : Action) :
  page_invariant tl p -> page_invariant tl (act tl jm p a).
Proof.
  intros (Hagree & Hnd & Hshow).
  destruct a as [url outcome t_id t_iso | confirmed]; cbn [act].
  - destruct (sendRequest_adds tl jm url outcome t_id t_iso p)
      as [(Hr & Hs & Hl & Hd & Ht & Hu)
         | (d & Hr & Hs & Hl & Hd & Ht & Hu)].
    + split; [|split].
      * intros h. rewrite Hr, Hs. apply Hagree.
      * rewrite Hs. exact Hnd.
      * apply (shows_state_transfer tl _ p); assumption.
    + split; [|split].
      * intros h. rewrite Hr, Hs. apply addRequest_agree. exact Hagree.
      * rewrite Hs. apply addRequest_NoDup. exact Hnd.
      * apply (shows_state_transfer tl _ (addRequest tl d p));
          try assumption. apply addRequest_shows.
  - destruct confirmed; cbn [clearLogs].
    + split; [|split].
      * intros h. reflexivity.
      * constructor.
      * repeat split.
    + split; [exact Hagree | split; [exact Hnd | exact Hshow]].
Qed.

Lemma after_actions_invariant (tl : option string -> string) (jm bt : string)
    (actions : list Action) :
  page_invariant tl (after_actions tl jm bt actions).
Proof.
  unfold after_actions.
  assert (H : forall p, page_invariant tl p ->
                        page_invariant tl (fold_left (act tl jm) actions p)).
  { induction actions as [|a actions IH]; intros p Hp; [exact Hp|].
    cbn [fold_left]. apply IH. apply act_invariant. exact Hp. }
  apply H. apply initial_invariant.
Qed.

(** X12: whatever the user has done so far (requests sent, with any
    outcome, and logs cleared or not), the Map [servers] holds, for each
    host name, exactly the number of elements of [requests] that carry
    that host name; a host name with no such element has no entry, and
    the elements without a host name, with an empty one, or with the
    host name "Error" (the entries the page makes for failed requests)
    are counted under no host. *)
Theorem servers_count_the_requests (tl : option string -> string)
    (jm bt : string) (actions : list Action) (h : string) :
  let p := after_actions tl jm bt actions in
  map_get h (servers p)
  = (if (count_host h (requests p) =? 0)%nat then None
     else Some (count_host h (requests p)))
  /\ count_host "Error" (requests p) = 0%nat
  /\ count_host "" (requests p) = 0%nat
  /\ NoDup (map fst (servers p)).
Proof.
  cbv zeta.
  destruct (after_actions_invariant tl jm bt actions) as (Hagree & Hnd & _).
  split; [apply Hagree|]. split; [|split; [|exact Hnd]].
  - unfold count_host.
    induction (requests (after_actions tl jm bt actions)) as [|d l IH];
      [reflexivity|].
    cbn [filter]. unfold counted at 1.
    destruct (rd_server_hostname d) as [k|]; [|exact IH].
    destruct (k =? "") eqn:He; cbn [orb]; [exact IH|].
    destruct (k =? "Error") eqn:Hr; [exact IH|].
    rewrite Hr. exact IH.
  - unfold count_host.
    induction (requests (after_actions tl jm bt actions)) as [|d l IH];
      [reflexivity|].
    cbn [filter]. unfold counted at 1.
    destruct (rd_server_hostname d) as [k|]; [|exact IH].
    destruct (k =? "") eqn:He; cbn [orb]; [exact IH|].
    destruct (k =? "Error") eqn:Hr; [exact IH|].
    rewrite He. exact IH.
Qed.

(** X13: after any actions the page shows its state: the request log
    and the server distribution are what [updateRequestLogs] and
    [updateServerDistribution] make of the current [requests] and
    [servers], "total requests" is the length of [requests] and "unique
    servers" the number of entries of [servers], which is the number of
    distinct host names counted. *)
Theorem page_shows_its_state (tl : option string -> string)
    (jm bt : string) (actions : list Action) :
  let p := after_actions tl jm bt actions in
  requestLogs p = requestLogs (updateRequestLogs tl p)
  /\ serverDistribution p = serverDistribution (updateServerDistribution p)
  /\ totalRequests p = decimal (length (requests p))
  /\ uniqueServers p = decimal (length (servers p))
  /\ (forall h, In h (map fst (servers p))
                <-> (0 < count_host h (requests p))%nat)
  /\ NoDup (map fst (servers p)).
Proof.
  cbv zeta.
  destruct (after_actions_invariant tl jm bt actions)
    as (Hagree & Hnd & (H1 & H2 & H3 & H4)).
  split; [exact H1|]. split; [exact H2|]. split; [exact H3|].
  split; [exact H4|]. split; [|exact Hnd].
  intros h. specialize (Hagree h). split.
  - intros Hin. apply in_map_iff in Hin. destruct Hin as ([k c] & Hk & Hin).
    cbn in Hk. subst k.
    rewrite (map_get_In h c _ Hnd Hin) in Hagree.
    destruct (count_host h _); [discriminate | lia].
  - intros Hpos.
    destruct (count_host h _) as [|c]; [lia|]. cbn in Hagree.
    apply (map_get_key h (S c)). exact Hagree.
Qed.

(** ** The server distribution *)

Lemma insert_desc_perm (x : string * nat) (l : list (string * nat)) :
  Permutation (insert_desc x l) (x :: l).
Proof.
  induction l as [|y l IH]; cbn [insert_desc]; [reflexivity|].
  destruct (snd x <? snd y)%nat; [|reflexivity].
  rewrite IH. apply perm_swap.
Qed.

Lemma sort_desc_perm (l : list (string * nat)) : Permutation (sort_desc l) l.
Proof.
  induction l as [|x l IH]; cbn [sort_desc]; [reflexivity|].
  rewrite insert_desc_perm. constructor. exact IH.
Qed.

Lemma insert_desc_sorted (x : string * nat) (l : list (string * nat)) :
  Sorted count_ge l -> Sorted count_ge (insert_desc x l).
Proof.
  induction l as [|y l IH]; cbn [insert_desc]; intros Hs.
  - constructor; constructor.
  - destruct (snd x <? snd y)%nat eqn:Hlt.
    + apply Nat.ltb_lt in Hlt.
      inversion Hs as [|? ? Hs' Hhd]; subst.
      constructor; [apply IH; exact Hs'|].
      destruct l as [|z l]; cbn [insert_desc].
      * constructor. unfold count_ge. lia.
      * destruct (snd x <? snd z)%nat.
        -- inversion Hhd; subst. constructor. assumption.
        -- constructor. unfold count_ge. lia.
    + apply Nat.ltb_ge in Hlt.
      constructor; [exact Hs|]. constructor. exact Hlt.
Qed.

Lemma sort_desc_sorted (l : list (string * nat)) :
  StronglySorted count_ge (sort_desc l).
Proof.
  apply Sorted_StronglySorted.
  - intros a b c Hab Hbc. unfold count_ge in *. lia.
  - induction l as [|x l IH]; cbn [sort_desc]; [constructor|].
    apply insert_desc_sorted. exact IH.
Qed.

Lemma math_max_ge (v : nat) (values : list nat) :
  In v values -> (v <= math_max values)%nat.
Proof.
  induction values as [|u values IH]; cbn; [contradiction|].
  intros [-> | Hin]; [lia|]. specialize (IH Hin). unfold math_max in IH. lia.
Qed.

Lemma math_max_in (values : list nat) :
  values <> [] -> In (math_max values) values.
Proof.
  induction values as [|u values IH]; [congruence|]. intros _.
  cbn. destruct values as [|u' values].
  - left. cbn. lia.
  - assert (Hin : In (math_max (u' :: values)) (u' :: values))
      by (apply IH; discriminate).
    unfold math_max in *.
    destruct (Nat.max_spec u (fold_right Nat.max 0%nat (u' :: values)))
      as [[_ ->] | [_ ->]]; [right; exact Hin | left; reflexivity].
Qed.

(** The first entry of a sorted, non-empty list of entries carries the
    largest count of the list it was sorted from. *)
Lemma sorted_head_is_max (x : string * nat) (rest l : list (string * nat)) :
  sort_desc l = x :: rest -> snd x = math_max (map snd l).
Proof.
  intros Hsort.
  pose proof (sort_desc_perm l) as Hperm.
  pose proof (sort_desc_sorted l) as Hsorted.
  rewrite Hsort in Hperm, Hsorted.
  apply Nat.le_antisymm.
  - apply math_max_ge. apply in_map.
    apply (Permutation_in _ Hperm). left. reflexivity.
  - assert (Hne : map snd l <> []).
    { destruct l; [|discriminate].
      apply Permutation_sym, Permutation_nil in Hperm. discriminate. }
    pose proof (math_max_in _ Hne) as Hin.
    apply in_map_iff in Hin. destruct Hin as (y & Hy & Hin).
    rewrite <- Hy.
    apply Permutation_sym in Hperm.
    apply (Permutation_in _ Hperm) in Hin.
    destruct Hin as [<- | Hin]; [lia|].
    apply StronglySorted_inv in Hsorted. destruct Hsorted as [_ Hall].
    rewrite Forall_forall in Hall. exact (Hall y Hin).
Qed.

Lemma dist_entry_map (m : nat) (label : string * nat -> string)
    (l : list (string * nat)) :
  map dist_entry
      (map (fun entry => mkDistItem (fst entry) (snd entry) m (label entry)) l)
  = l.
Proof.
  induction l as [|[k v] l IH]; cbn; [reflexivity|].
  rewrite IH. reflexivity.
Qed.

(** X14: after any actions, the server distribution shows the
    empty-state paragraph exactly when no server was counted; otherwise
    it shows one item per entry of [servers], each entry once, larger
    counts first; every count is at least 1 and at most the largest
    count, which is what the widths are divided by (so never zero); and
    the first item carries the largest count: its bar is full. *)
Theorem distribution_is_sorted (tl : option string -> string)
    (jm bt : string) (actions : list Action) :
  let p := after_actions tl jm bt actions in
  match serverDistribution p with
  | EmptyState => servers p = []
  | Items items =>
      Permutation (map dist_entry items) (servers p)
      /\ StronglySorted count_ge (map dist_entry items)
      /\ Forall (fun i =>
                   (1 <= di_count i <= di_maxCount i)%nat
                   /\ di_maxCount i = math_max (map snd (servers p))) items
      /\ exists first rest,
           items = first :: rest /\ di_count first = di_maxCount first
  end.
Proof.
  cbv zeta.
  destruct (after_actions_invariant tl jm bt actions)
    as (Hagree & Hnd & (_ & H2 & _)).
  rewrite H2. unfold refresh, updateStats, updateServerDistribution.
  cbn [serverDistribution servers updateRequestLogs].
  set (m := servers (after_actions tl jm bt actions)) in *.
  assert (Hpos : Forall (fun e => (1 <= snd e)%nat) m).
  { apply Forall_forall. intros [h c] Hin. cbn.
    pose proof (Hagree h) as Hh. fold m in Hh.
    rewrite (map_get_In h c m Hnd Hin) in Hh.
    destruct (count_host h _); [discriminate|].
    injection Hh as ->. lia. }
  destruct m as [|e m'] eqn:Hm; [reflexivity|]. rewrite <- Hm in *.
  rewrite dist_entry_map.
  split; [apply sort_desc_perm|]. split; [apply sort_desc_sorted|]. split.
  - apply Forall_forall. intros i Hi.
    apply in_map_iff in Hi. destruct Hi as (entry & <- & Hin). cbn.
    apply (Permutation_in _ (sort_desc_perm m)) in Hin.
    split; [|reflexivity]. split.
    + rewrite Forall_forall in Hpos. exact (Hpos entry Hin).
    + apply math_max_ge. apply in_map. exact Hin.
  - destruct (sort_desc m) as [|x rest] eqn:Hsort.
    + pose proof (sort_desc_perm m) as Hperm. rewrite Hsort in Hperm.
      apply Permutation_nil in Hperm. rewrite Hm in Hperm. discriminate.
    + cbn [map]. eexists. eexists. split; [reflexivity|]. cbn.
      apply (sorted_head_is_max x rest m Hsort).
Qed.

(** ** The page and the backend together *)

Lemma skipn_old_trace (old new : list Event) :
  skipn (length old) (old ++ new) = new.
Proof.
  induction old as [|e old IH]; [reflexivity | exact IH].
Qed.

Lemma responseData_no_isError (host rid : string) (ts : Z) (ip : string)
    (r : DbResult) :
  field "isError" (responseData host rid ts ip r) = None.
Proof.
  unfold responseData. cbn.
  destruct (truthy (res_error r)); [|reflexivity].
  destruct (js_or (res_message r) (res_error r)); reflexivity.
Qed.

Lemma log_write_exchange (host : string) (req : IncomingMessage) (w : World) :
  route req = RouteLogWrite ->
  exists evs rid r,
    trace (snd (server host req w)) = trace w ++ evs
    /\ statuses evs = [200%Z]
    /\ bodies evs
       = [JsonBody 2 (responseData host rid (clock w) (clientIpOf req) r)]
    /\ write_outcome rid host (clock w) (clientIpOf req) w
                     (snd (server host req w)) r.
Proof.
  intros Hroute. rewrite server_dispatch, Hroute.
  destruct (handleRequest_cases host req w)
    as (r1 & w1 & evs1 & _ & (_ & D1 & _) & Hout1 & Hcases).
  destruct Hcases
    as [(_ & w' & Hh & Ht & Hlogs & _)
       | (Hcol & r2 & w2 & evs2 & w' & _ & D2 & Hout2 & Hh & Ht & Hlogs & _)].
  - rewrite Hh. cbn [snd]. eexists. eexists. exists r1.
    split; [exact Ht|].
    split; [read_trace; reflexivity|].
    split; [read_trace; reflexivity|].
    unfold write_outcome in *. rewrite Hlogs. exact Hout1.
  - rewrite Hh. cbn [snd]. eexists. eexists. exists r2.
    split; [exact Ht|].
    split; [read_trace; reflexivity|].
    split; [read_trace; reflexivity|].
    unfold write_outcome in *. rewrite Hlogs.
    rewrite <- (collision_is_failure _ _ _ _ _ _ _ Hcol Hout1).
    exact Hout2.
Qed.

(** What [fetch] comes to, by the branch of the listener the request
    ends in. *)
Lemma answer_by_route (host : string) (req : IncomingMessage) (w : World) :
  match route req with
  | RouteInvalid =>
      answer host req w
      = FetchResponse 500 (JsonBody 0 [("error", "Internal server error");
                                       ("message", "Invalid URL")])
  | RoutePreflight => answer host req w = FetchResponse 200 EmptyBody
  | RouteHealth =>
      answer host req w
      = FetchResponse (if probe_succeeds w then 200%Z else 503%Z)
          (JsonBody 2 (healthData host (clock w) (probe_succeeds w)))
  | RouteLogWrite =>
      exists rid r,
        answer host req w
        = FetchResponse 200
            (JsonBody 2 (responseData host rid (clock w) (clientIpOf req) r))
        /\ write_outcome rid host (clock w) (clientIpOf req) w
                         (snd (server host req w)) r
  | RouteNotFound =>
      answer host req w = FetchResponse 404 (JsonBody 0 [("error", "Not found")])
  end.
Proof.
  destruct (route req) eqn:Hroute.
  - unfold answer. rewrite server_dispatch, Hroute. unfold respond, emit.
    cbn [snd trace]. rewrite <- app_assoc, skipn_old_trace. reflexivity.
  - unfold answer. rewrite server_dispatch, Hroute. unfold respond, emit.
    cbn [snd trace]. rewrite <- app_assoc, skipn_old_trace. reflexivity.
  - unfold answer. rewrite server_dispatch, Hroute.
    destruct (handleHealthCheck_run host req w)
      as (w' & evs & Hh & Ht & Hs & Hb & _).
    rewrite Hh. cbn [snd]. rewrite Ht, skipn_old_trace, Hs, Hb. reflexivity.
  - destruct (log_write_exchange host req w Hroute)
      as (evs & rid & r & Ht & Hs & Hb & Hout).
    exists rid, r. split; [|exact Hout].
    unfold answer. rewrite Ht, skipn_old_trace, Hs, Hb. reflexivity.
  - unfold answer. rewrite server_dispatch, Hroute. unfold respond, emit.
    cbn [snd trace]. rewrite <- app_assoc, skipn_old_trace. reflexivity.
Qed.

(** X15: a request the backend serves on its log-write path is always
    logged by the page as an entry of that server, not as an error
    entry, whatever the database did: the entry carries the host name,
    the timestamp and the client address of the response, and, unless
    the host name is empty or "Error", the server's count goes up by
    one, also when the write failed.  The entry says "success" and has
    no error exactly when the row of its request_id was committed; no
    alert is raised and the button is enabled again. *)
Theorem served_request_is_counted (tl : option string -> string)
    (jm url host : string) (req : IncomingMessage) (w : World)
    (t_id t_iso : Z) (p : Page) :
  url <> "" ->
  route req = RouteLogWrite ->
  let p' := sendRequest tl jm url (answer host req w) t_id t_iso p in
  let w' := snd (server host req w) in
  exists d rid,
    requests p' = d :: requests p
    /\ rd_isError d = false
    /\ rd_request_id d = Some rid
    /\ rd_server_hostname d = Some host
    /\ rd_timestamp d = Some (toISOString (clock w))
    /\ rd_client_ip d = Some (clientIpOf req)
    /\ servers p'
       = (if (host =? "") || (host =? "Error") then servers p
          else map_set host
                 (S (match map_get host (servers p) with
                     | Some c => c
                     | None => 0
                     end)) (servers p))
    /\ alerts p' = alerts p
    /\ btn_disabled p' = false
    /\ ((rd_db_status d = Some "success"
         /\ rd_db_error d = None
         /\ exists k,
             request_logs w'
             = request_logs w
               ++ [mkEntry k rid host (clock w) (clientIpOf req)])
        \/ (rd_db_status d = Some "failed"
            /\ (exists msg, rd_db_error d = Some msg)
            /\ request_logs w' = request_logs w)).
Proof.
  intros Hurl Hroute p' w'.
  pose proof (answer_by_route host req w) as Ha. rewrite Hroute in Ha.
  destruct Ha as (rid & r & Ha & Hout).
  subst p'. rewrite Ha. unfold sendRequest.
  apply String.eqb_neq in Hurl. rewrite Hurl.
  change (negb (response_ok 200)) with false. cbv iota.
  cbn [response_json].
  set (o := responseData host rid (clock w) (clientIpOf req) r).
  destruct (responseData_fields host rid (clock w) (clientIpOf req) r)
    as (F1 & F2 & F3 & F4 & _).
  fold o in F1, F2, F3, F4.
  exists (parsed o), rid.
  split; [reflexivity|].
  split; [unfold parsed; cbn [rd_isError]; subst o;
          rewrite responseData_no_isError; reflexivity|].
  split; [exact F1|]. split; [exact F2|]. split; [exact F3|].
  split; [exact F4|].
  split.
  - change (servers (set_button false "Send Request"
                       (addRequest tl (parsed o)
                          (set_button true "Sending..." p))))
      with (servers (addRequest tl (parsed o)
                       (set_button true "Sending..." p))).
    rewrite addRequest_servers. unfold counted.
    change (rd_server_hostname (parsed o)) with (field "server_hostname" o).
    rewrite F2. destruct ((host =? "") || (host =? "Error")); reflexivity.
  - split; [reflexivity|]. split; [reflexivity|].
    exact (reported_outcome host rid (clock w) (clientIpOf req) r w w' Hout).
Qed.

Lemma count_host_uncounted (h : string) (d : RequestData)
    (l : list RequestData) :
  counted d = None -> count_host h (d :: l) = count_host h l.
Proof. intros H. rewrite count_host_cons, H. reflexivity. Qed.

(** X16: when the request of the page fails (the fetch is rejected,
    the status is not 2xx, or the body is not JSON), the page logs an
    error entry with the message of the failure, raises one alert with
    that message and enables the button again; the entry carries the
    host name "Error" and is counted under no server, so [servers] and
    every count stay as they were.  Of the answers of the backend, this
    is what a 404, a 500, the empty 200 of OPTIONS and the 503 of a
    failed health check come to; the answers of the log-write path and
    of a successful health check do not. *)
Theorem failed_request_is_not_counted (tl : option string -> string)
    (jm url : string) (outcome : FetchOutcome) (message : string)
    (t_id t_iso : Z) (p : Page) :
  url <> "" ->
  failure_message jm outcome = Some message ->
  let p' := sendRequest tl jm url outcome t_id t_iso p in
  requests p'
  = mkData (Some ("error-" ++ decimalZ t_id)%string) (Some "Error")
           (Some (toISOString t_iso)) (Some "N/A") (Some "failed")
           (Some message) true
    :: requests p
  /\ servers p' = servers p
  /\ (forall h, count_host h (requests p') = count_host h (requests p))
  /\ alerts p' = alerts p ++ [failure_alert message]
  /\ btn_disabled p' = false
  /\ btn_text p' = "Send Request"
  /\ (forall host req w,
        failure_message jm (answer host req w)
        = match route req with
          | RouteInvalid => Some "HTTP error! status: 500"
          | RoutePreflight => Some jm
          | RouteHealth =>
              if probe_succeeds w then None
              else Some "HTTP error! status: 503"
          | RouteLogWrite => None
          | RouteNotFound => Some "HTTP error! status: 404"
          end).
Proof.
  intros Hurl Hfail p'.
  assert (Hp' : p' = set_button false "Send Request"
                       (sendRequest_catch tl message t_id t_iso
                          (set_button true "Sending..." p))).
  { subst p'. unfold sendRequest.
    apply String.eqb_neq in Hurl. rewrite Hurl.
    destruct outcome as [m | status body]; unfold failure_message in Hfail.
    - injection Hfail as ->. reflexivity.
    - destruct (negb (response_ok status)).
      + assert (Hm : message
                     = ("HTTP error! status: "
                        ++ decimalZ status)%string) by congruence.
        rewrite Hm. reflexivity.
      + destruct (response_json jm body) as [m | o];
          [injection Hfail as ->; reflexivity | discriminate]. }
  rewrite Hp'.
  split; [reflexivity|]. split; [reflexivity|].
  split; [intros h; reflexivity|].
  split; [reflexivity|]. split; [reflexivity|]. split; [reflexivity|].
  intros host req w.
  pose proof (answer_by_route host req w) as Ha.
  destruct (route req).
  - rewrite Ha. reflexivity.
  - rewrite Ha. reflexivity.
  - rewrite Ha. destruct (probe_succeeds w); reflexivity.
  - destruct Ha as (rid & r & -> & _). reflexivity.
  - rewrite Ha. reflexivity.
Qed.

(* ================================================================== *)
(** * The further statements at work on concrete runs *)

Lemma preflight_touches_nothing_witness :
  let req := mkRequest "OPTIONS" (Some "/health") None (Some "10.0.0.7") in
  let w := fresh_world [Some connectionReset] in
  statuses (trace (snd (server host0 req w))) = [200%Z]
  /\ faults (snd (server host0 req w)) = [Some connectionReset].
Proof.
  cbv zeta.
  destruct (preflight_touches_nothing host0
              (mkRequest "OPTIONS" (Some "/health") None (Some "10.0.0.7"))
              "/health" (fresh_world [Some connectionReset]) eq_refl eq_refl)
    as [Hs _].
  rewrite Hs. split; reflexivity.
Defined.

Lemma unmatched_request_is_404_witness :
  let req := mkRequest "POST" (Some "/health") None (Some "10.0.0.7") in
  statuses (trace (snd (server host0 req (fresh_world [])))) = [404%Z]
  /\ checked_out (snd (server host0 req (fresh_world []))) = 0%nat.
Proof.
  cbv zeta.
  assert (H1 : "POST" <> "OPTIONS") by discriminate.
  assert (H2 : "POST" <> "GET") by discriminate.
  assert (H3 : "/health" <> "/") by discriminate.
  assert (H4 : "/health" <> "/api/request") by discriminate.
  rewrite (unmatched_request_is_404 host0
             (mkRequest "POST" (Some "/health") None (Some "10.0.0.7"))
             "/health" (fresh_world []) eq_refl H1 (or_intror H2)
             (or_introl (conj H3 H4))).
  split; reflexivity.
Defined.

Lemma duplicate_key_message_is_collision_witness :
  let w := fresh_world (failing AtConnect resetQuotingDuplicate None ++ []) in
  isTransientError resetQuotingDuplicate = true
  /\ fst (writeRequestToDatabase uuid0 host0 (clock w) "203.0.113.9"
                                 defaultRetries w)
     = Normal collisionResult.
Proof.
  cbv zeta. split; [reflexivity|].
  destruct (duplicate_key_message_is_collision AtConnect
              resetQuotingDuplicate None [] uuid0 host0 1793549296789%Z
              "203.0.113.9" defaultRetries
              (fresh_world (failing AtConnect resetQuotingDuplicate None ++ []))
              (Nat.lt_0_succ 2) eq_refl room_in_empty_pool
              ltac:(discriminate) eq_refl)
    as (Hw & _).
  cbn [clock fresh_world]. rewrite Hw. reflexivity.
Defined.

Lemma drained_pool_fails_requests_witness :
  statuses (trace (snd (server host0 logRequest drained_world))) = [200%Z]
  /\ request_logs (snd (server host0 logRequest drained_world)) = []
  /\ statuses (trace (snd (server host0 healthRequest drained_world)))
     = [503%Z].
Proof.
  destruct (drained_pool_fails_requests host0 logRequest drained_world
              (Nat.le_refl poolMax) eq_refl) as [Hlog _].
  destruct (drained_pool_fails_requests host0 healthRequest drained_world
              (Nat.le_refl poolMax) eq_refl) as [_ Hhealth].
  destruct (Hlog eq_refl)
    as (w' & evs & o & Hs & Ht & Hst & _ & _ & _ & _ & _ & Hl).
  destruct (Hhealth eq_refl) as (w2 & evs2 & Hs2 & Ht2 & Hst2 & _).
  rewrite Hs, Hs2. cbn [snd]. cbn in Ht, Ht2. subst evs evs2.
  split; [exact Hst|]. split; [exact Hl | exact Hst2].
Defined.

Lemma failed_probes_drain_pool_witness :
  let errors := repeat queryCanceled 10 in
  let w := fresh_world (failing_probes errors ++ []) in
  checked_out (snd (serve host0 (repeat healthRequest 10) w)) = poolMax.
Proof.
  cbv zeta.
  destruct (failed_probes_drain_pool host0 (repeat queryCanceled 10)
              (repeat healthRequest 10) []
              (fresh_world (failing_probes (repeat queryCanceled 10) ++ []))
              eq_refl
              ltac:(repeat constructor)
              eq_refl
              (Nat.le_refl 10))
    as (evs & _ & _ & _ & Hc & _).
  exact Hc.
Defined.

Lemma second_collision_is_reported_witness :
  let req := mkRequest "GET" (Some "/") None (Some "10.0.0.7") in
  let w := mkWorld ([None; None; None; None] ++ [None; None; None; None] ++ [])
                   (fun _ => uuid0) 0 1793549296789
                   [mkEntry 1 uuid0 host0 1793549290000 "203.0.113.9"]
                   1 None 0 [] in
  fst (handleRequest host0 req w) = Normal tt
  /\ request_logs (snd (handleRequest host0 req w)) = request_logs w.
Proof.
  cbv zeta.
  destruct (second_collision_is_reported host0
              (mkRequest "GET" (Some "/") None (Some "10.0.0.7"))
              None None None None []
              (mkWorld ([None; None; None; None] ++ [None; None; None; None]
                        ++ [])
                       (fun _ => uuid0) 0 1793549296789
                       [mkEntry 1 uuid0 host0 1793549290000 "203.0.113.9"]
                       1 None 0 [])
              eq_refl room_in_empty_pool eq_refl eq_refl)
    as (w' & Hh & _ & _ & _ & _ & _ & _ & _ & _ & Hl & _).
  rewrite Hh. split; [reflexivity | exact Hl].
Defined.

Lemma served_request_is_counted_witness :
  let w := fresh_world [None; Some syntaxError] in
  let p := initial_page showTimestamp "Send Request" in
  let p' := sendRequest showTimestamp "Unexpected end of JSON input"
              "http://localhost:3000/api/request"
              (answer host0 logRequest w) 1793549296800 1793549296801 p in
  servers p' = [(host0, 1%nat)]
  /\ request_logs (snd (server host0 logRequest w)) = [].
Proof.
  cbv zeta.
  destruct (served_request_is_counted showTimestamp
              "Unexpected end of JSON input"
              "http://localhost:3000/api/request" host0 logRequest
              (fresh_world [None; Some syntaxError])
              1793549296800 1793549296801
              (initial_page showTimestamp "Send Request")
              ltac:(discriminate) eq_refl)
    as (d & rid & _ & _ & _ & _ & _ & _ & Hs & _ & _ & Hout).
  split; [exact Hs|].
  destruct Hout as [(_ & _ & k & Hk) | (_ & _ & Hl)]; [|exact Hl].
  exfalso. revert Hk. vm_compute. intros Hk.
  apply (f_equal (@length LogEntry)) in Hk. discriminate.
Defined.

Lemma failed_request_is_not_counted_witness :
  let w := fresh_world [Some connectionReset] in
  let p := initial_page showTimestamp "Send Request" in
  let p' := sendRequest showTimestamp "Unexpected end of JSON input"
              "http://localhost:3000/health"
              (answer host0 healthRequest w) 1793549296800 1793549296801 p in
  failure_message "Unexpected end of JSON input" (answer host0 healthRequest w)
  = Some "HTTP error! status: 503"
  /\ servers p' = []
  /\ map rd_request_id (requests p') = [Some "error-1793549296800"].
Proof.
  cbv zeta.
  assert (Hf : failure_message "Unexpected end of JSON input"
                 (answer host0 healthRequest
                    (fresh_world [Some connectionReset]))
               = Some "HTTP error! status: 503") by (vm_compute; reflexivity).
  destruct (failed_request_is_not_counted showTimestamp
              "Unexpected end of JSON input" "http://localhost:3000/health"
              (answer host0 healthRequest (fresh_world [Some connectionReset]))
              "HTTP error! status: 503" 1793549296800 1793549296801
              (initial_page showTimestamp "Send Request")
              ltac:(discriminate) Hf)
    as (Hr & Hs & _).
  split; [exact Hf|]. split; [exact Hs|].
  rewrite Hr. vm_compute. reflexivity.
Defined.
